(** * torch/_dynamo/repro/after_aot.py: capture, replay and analysis of
      failing graphs after AOT Autograd.

    The development embeds the Python module shallowly.  Functions that only
    compute become Rocq functions; methods that mutate [self], log, print or
    raise live in a small state-and-exception monad whose state survives a
    raised exception, as Python side effects do.  Calls into the rest of
    PyTorch (the backend compiler, the file system, the content store, the
    FX interpreter) are read from explicit oracle records.

    The validators and generators of
    [torch/testing/_internal/opinfo/definitions/sparse.py] are embedded in
    the module [sparse]. *)

From Stdlib Require Import ZArith String List Lia.
From stdpp Require Import base option list gmap strings pretty.

Open Scope Z_scope.
Open Scope string_scope.

(* ===================================================================== *)
(** * Python exceptions and effects                                       *)
(* ===================================================================== *)

(** The exception classes the module raises or catches, each with the
    argument it was made with.  [KeyboardInterrupt] and [SystemExit] derive
    from [BaseException] only, so [except Exception] does not catch them;
    [FileNotFoundError] derives from [OSError]. *)
Inductive exn :=
| AccuracyError (msg : string)
| NotImplementedError (msg : string)
| AssertionError
| TypeError (msg : string)
| NameError (name : string)
| FileNotFoundError (path : string)
| OSError (msg : string)
| RuntimeError (msg : string)
| AttributeError (attr : string)
| IndexError
| UnicodeDecodeError (encoding object : string) (start stop : Z) (reason : string)
| KeyboardInterrupt
| SystemExit (code : Z).

Global Instance exn_eq_dec : EqDecision exn.
Proof. solve_decision. Defined.

Definition is_Exception (e : exn) : bool :=
  match e with
  | KeyboardInterrupt | SystemExit _ => false
  | _ => true
  end.

Definition is_OSError (e : exn) : bool :=
  match e with
  | FileNotFoundError _ | OSError _ => true
  | _ => false
  end.

Definition is_FileNotFoundError (e : exn) : bool :=
  match e with
  | FileNotFoundError _ => true
  | _ => false
  end.

Inductive result (A : Type) :=
| Ok (a : A)
| Raise (e : exn).
Arguments Ok {A} a.
Arguments Raise {A} e.

(** A computation over a mutable state [S]; the state reached when the
    exception was raised is kept. *)
Definition M (S A : Type) : Type := S -> result A * S.

Definition ret {S A} (a : A) : M S A := fun s => (Ok a, s).

Definition bind {S A B} (m : M S A) (k : A -> M S B) : M S B :=
  fun s =>
    match m s with
    | (Ok a, s') => k a s'
    | (Raise e, s') => (Raise e, s')
    end.

Definition raise {S A} (e : exn) : M S A := fun s => (Raise e, s).

Definition get {S} : M S S := fun s => (Ok s, s).

Definition modify {S} (f : S -> S) : M S unit := fun s => (Ok tt, f s).

(** [try: body / except <class> as e: handler e]; [catches] is the class
    test.  An exception of another class propagates. *)
Definition try_except {S A} (body : M S A) (catches : exn -> bool)
    (handler : exn -> M S A) : M S A :=
  fun s =>
    match body s with
    | (Ok a, s') => (Ok a, s')
    | (Raise e, s') => if catches e then handler e s' else (Raise e, s')
    end.

(** [assert cond] *)
Definition assert {S} (cond : bool) : M S unit :=
  if cond then ret tt else raise AssertionError.

Notation "'let!' x ':=' m 'in' k" := (bind m (fun x => k))
  (at level 10, x pattern, m at level 100, k at level 200).

(* ===================================================================== *)
(** * Python text                                                         *)
(* ===================================================================== *)

(** A [str] is kept as its UTF-8 encoding and a [bytes] object as it is:
    both are strings of bytes here. *)

Definition ord1 (c : Ascii.ascii) : N := Ascii.N_of_ascii c.

(** The number of bytes of the character that a byte starts. *)
Definition utf8_length (c : Ascii.ascii) : nat :=
  let b := ord1 c in
  if (b <? 192)%N then 1%nat
  else if (b <? 224)%N then 2%nat
  else if (b <? 240)%N then 3%nat
  else 4%nat.

(** The characters of a text in order, each as its bytes; [cur] holds the
    bytes read of a character that still needs [need] more. *)
Fixpoint characters_from (cur : string) (need : nat) (s : string) : list string :=
  match s with
  | EmptyString => if decide (cur = "") then [] else [cur]
  | String c s' =>
      match need with
      | O =>
          match utf8_length c with
          | 1%nat => String c "" :: characters_from "" 0 s'
          | n => characters_from (String c "") (Nat.pred n) s'
          end
      | 1%nat => (cur ++ String c "") :: characters_from "" 0 s'
      | S k => characters_from (cur ++ String c "") k s'
      end
  end.

Definition characters (s : string) : list string := characters_from "" 0 s.

(** [ord(ch)]: the code point of a character. *)
Definition ord (ch : string) : N :=
  match map ord1 (list_ascii_of_string ch) with
  | [b] => b
  | [b1; b2] => (b1 mod 32) * 64 + b2 mod 64
  | [b1; b2; b3] => ((b1 mod 16) * 64 + b2 mod 64) * 64 + b3 mod 64
  | [b1; b2; b3; b4] => (((b1 mod 8) * 64 + b2 mod 64) * 64 + b3 mod 64) * 64 + b4 mod 64
  | _ => 0
  end%N.

(** The separators of Unicode beyond U+00FF: the space separators (Zs) and
    the line and paragraph separators. *)
Definition is_separator (cp : N) : Datatypes.bool :=
  ((cp =? 0x1680) || ((0x2000 <=? cp) && (cp <=? 0x200A)) || (cp =? 0x2028)
   || (cp =? 0x2029) || (cp =? 0x202F) || (cp =? 0x205F) || (cp =? 0x3000))%N.

(** [ch.isspace()]: the whitespace of Unicode, the characters [str.strip]
    removes. *)
Definition isspace (ch : string) : Datatypes.bool :=
  let cp := ord ch in
  (((9 <=? cp) && (cp <=? 13)) || ((28 <=? cp) && (cp <=? 32))
   || (cp =? 0x85) || (cp =? 0xA0))%N
  || is_separator cp.

(** The line boundaries of [str.splitlines]. *)
Definition is_linebreak (ch : string) : Datatypes.bool :=
  let cp := ord ch in
  (((10 <=? cp) && (cp <=? 13)) || ((28 <=? cp) && (cp <=? 30))
   || (cp =? 0x85) || (cp =? 0x2028) || (cp =? 0x2029))%N.

(** [ch.isprintable()].  Up to U+00FF the table is that of Python; beyond,
    where Python asks the Unicode database, the separators are not
    printable and every other character is taken to be. *)
Definition isprintable (ch : string) : Datatypes.bool :=
  let cp := ord ch in
  negb ((cp <? 32) || ((127 <=? cp) && (cp <=? 0xA0)) || (cp =? 0xAD))%N
  && negb (is_separator cp).

(** [sub in s] on strings. *)
Fixpoint contains (sub s : string) : Datatypes.bool :=
  if String.prefix sub s then true
  else match s with
       | EmptyString => false
       | String _ s' => contains sub s'
       end.

Fixpoint join (sep : string) (l : list string) : string :=
  match l with
  | [] => ""
  | [x] => x
  | x :: rest => x ++ sep ++ join sep rest
  end.

Definition hex_digit (n : N) : Ascii.ascii :=
  if (n <? 10)%N then Ascii.ascii_of_N (48 + n) else Ascii.ascii_of_N (87 + n).

(** [n] in hexadecimal on [digits] digits. *)
Fixpoint hex (digits : nat) (n : N) : string :=
  match digits with
  | O => ""
  | S k => hex k (n / 16) ++ String (hex_digit (n mod 16)) ""
  end.

Definition double_quote : string := String (Ascii.ascii_of_nat 34) "".

Definition backslash : string := String (Ascii.ascii_of_nat 92) "".

(** The quote [repr] puts around a text: the apostrophe, unless the text
    holds one and holds no double quote. *)
Definition repr_quote (s : string) : string :=
  if contains "'" s && negb (contains double_quote s) then double_quote else "'".

Definition repr_char (quote ch : string) : string :=
  let cp := ord ch in
  if bool_decide (ch = quote) || bool_decide (ch = backslash) then backslash ++ ch
  else if (cp =? 9)%N then backslash ++ "t"
  else if (cp =? 10)%N then backslash ++ "n"
  else if (cp =? 13)%N then backslash ++ "r"
  else if isprintable ch then ch
  else if (cp <? 256)%N then backslash ++ "x" ++ hex 2 cp
  else if (cp <? 65536)%N then backslash ++ "u" ++ hex 4 cp
  else backslash ++ "U" ++ hex 8 cp.

(** [repr(s)] of a [str]. *)
Definition repr_str (s : string) : string :=
  let quote := repr_quote s in
  quote ++ join "" (map (repr_char quote) (characters s)) ++ quote.

Definition repr_byte (quote : string) (c : Ascii.ascii) : string :=
  let b := ord1 c in
  let ch := String c "" in
  if bool_decide (ch = quote) || bool_decide (ch = backslash) then backslash ++ ch
  else if (b =? 9)%N then backslash ++ "t"
  else if (b =? 10)%N then backslash ++ "n"
  else if (b =? 13)%N then backslash ++ "r"
  else if ((b <? 32) || (127 <=? b))%N then backslash ++ "x" ++ hex 2 b
  else ch.

(** [repr(b)] of a [bytes] object. *)
Definition repr_bytes (b : string) : string :=
  let quote := repr_quote b in
  "b" ++ quote ++ join "" (map (repr_byte quote) (list_ascii_of_string b)) ++ quote.

Definition is_continuation (c : Ascii.ascii) : Datatypes.bool :=
  ((128 <=? ord1 c) && (ord1 c <? 192))%N.

(** Where strict UTF-8 decoding of [s] stops, if it does: the start and the
    end of the offending bytes and the reason, as [UnicodeDecodeError]
    reports them.  Overlong forms, surrogates and code points beyond
    U+10FFFF are refused. *)
Fixpoint utf8_error (pos : Z) (s : string) : option (Z * Z * string) :=
  match s with
  | EmptyString => None
  | String c1 s1 =>
      let b1 := ord1 c1 in
      if (b1 <? 128)%N then utf8_error (pos + 1) s1
      else if ((b1 <? 194) || (244 <? b1))%N
      then Some (pos, pos + 1, "invalid start byte")
      else
        match s1 with
        | EmptyString => Some (pos, pos + 1, "unexpected end of data")
        | String c2 s2 =>
            let b2 := ord1 c2 in
            if negb (is_continuation c2)
               || ((b1 =? 224) && (b2 <? 160))%N || ((b1 =? 237) && (160 <=? b2))%N
               || ((b1 =? 240) && (b2 <? 144))%N || ((b1 =? 244) && (144 <=? b2))%N
            then Some (pos, pos + 1, "invalid continuation byte")
            else if (b1 <? 224)%N then utf8_error (pos + 2) s2
            else
              match s2 with
              | EmptyString => Some (pos, pos + 2, "unexpected end of data")
              | String c3 s3 =>
                  if negb (is_continuation c3)
                  then Some (pos, pos + 2, "invalid continuation byte")
                  else if (b1 <? 240)%N then utf8_error (pos + 3) s3
                  else
                    match s3 with
                    | EmptyString => Some (pos, pos + 3, "unexpected end of data")
                    | String c4 s4 =>
                        if negb (is_continuation c4)
                        then Some (pos, pos + 3, "invalid continuation byte")
                        else utf8_error (pos + 4) s4
                    end
              end
        end
  end.

(** [b.decode("utf-8")] *)
Definition decode_utf8 {S} (b : string) : M S string :=
  match utf8_error 0 b with
  | None => ret b
  | Some (start, stop, reason) =>
      raise (UnicodeDecodeError "utf-8" b start stop reason)
  end.

(** [text.splitlines(True)] on the characters of a text: a line ends after
    a line boundary, and a carriage return followed by a line feed is one
    boundary. *)
Fixpoint splitlines_from (line : string) (chars : list string) : list string :=
  match chars with
  | [] => if decide (line = "") then [] else [line]
  | ch :: rest =>
      if is_linebreak ch then
        match rest with
        | ch2 :: rest2 =>
            if ((ord ch =? 13) && (ord ch2 =? 10))%N
            then (line ++ ch ++ ch2) :: splitlines_from "" rest2
            else (line ++ ch) :: splitlines_from "" rest
        | [] => [line ++ ch]
        end
      else splitlines_from (line ++ ch) rest
  end.

Definition splitlines (text : string) : list string :=
  splitlines_from "" (characters text).

(** [not line.strip()] *)
Definition is_blank (line : string) : Datatypes.bool :=
  forallb isspace (characters line).

(** [textwrap.indent(text, prefix)]: the prefix goes before every line that
    is not all whitespace. *)
Definition textwrap_indent (text prefix : string) : string :=
  join "" (map (fun line => if is_blank line then line else prefix ++ line)
               (splitlines text)).

Definition repr_Z (z : Z) : string := pretty z.

(** [repr] of a tuple of ints: [()], [(3,)], [(2, 3)]. *)
Definition repr_tuple (l : list Z) : string :=
  match l with
  | [] => "()"
  | [x] => "(" ++ repr_Z x ++ ",)"
  | _ => "(" ++ join ", " (map repr_Z l) ++ ")"
  end.

(** A [logging] record: level, format string and its arguments as text. *)
Inductive log_level := ERROR | WARNING.

Record log_record := LogRecord {
  log_lvl : log_level;
  log_fmt : string;
  log_args : list string
}.

Global Instance log_level_eq_dec : EqDecision log_level.
Proof. solve_decision. Defined.
Global Instance log_record_eq_dec : EqDecision log_record.
Proof. solve_decision. Defined.

(* ===================================================================== *)
(** * The part of [torch] the module manipulates                          *)
(* ===================================================================== *)

Module torch.

Inductive dtype :=
| float32 | float64 | float16 | bfloat16
| complex64 | complex128
| uint8 | int8 | int16 | int32 | int64
| bool.

(** [dtype.itemsize], in bytes. *)
Definition itemsize (d : dtype) : Z :=
  match d with
  | float32 => 4 | float64 => 8 | float16 => 2 | bfloat16 => 2
  | complex64 => 8 | complex128 => 16
  | uint8 => 1 | int8 => 1 | int16 => 2 | int32 => 4 | int64 => 8
  | bool => 1
  end.

Definition repr_dtype (d : dtype) : string :=
  match d with
  | float32 => "torch.float32" | float64 => "torch.float64"
  | float16 => "torch.float16" | bfloat16 => "torch.bfloat16"
  | complex64 => "torch.complex64" | complex128 => "torch.complex128"
  | uint8 => "torch.uint8" | int8 => "torch.int8" | int16 => "torch.int16"
  | int32 => "torch.int32" | int64 => "torch.int64"
  | bool => "torch.bool"
  end.

(** [torch.device(type, index)]. *)
Record device := Device {
  type : string;
  index : option Z
}.

Definition cpu : device := Device "cpu" None.
Definition cuda (i : Z) : device := Device "cuda" (Some i).
Definition meta : device := Device "meta" None.

(** [repr(device)]: [device(type='cuda', index=0)]. *)
Definition repr_device (d : device) : string :=
  match index d with
  | None => "device(type=" ++ repr_str (type d) ++ ")"
  | Some i => "device(type=" ++ repr_str (type d) ++ ", index=" ++ repr_Z i ++ ")"
  end.

(** [str(device)]: [cuda:0]. *)
Definition str_device (d : device) : string :=
  match index d with
  | None => type d
  | Some i => type d ++ ":" ++ repr_Z i
  end.

(** An [UntypedStorage].  [sid] stands for the identity of the underlying
    allocation, the key [StorageWeakRef] hashes and compares by; it is not
    derived from the bytes. *)
Record UntypedStorage := Storage {
  sid : nat;
  s_device : device;
  s_nbytes : Z;
  s_data : list Z
}.

(** A tensor: a typed strided view of a storage.  [t_device] is what
    [t.device] reports; for a fake tensor it differs from the (meta)
    device of the storage.  [t_metadata] is [get_tensor_metadata(t)],
    each value kept as its [repr]. *)
Record Tensor := mkTensor {
  untyped_storage : UntypedStorage;
  shape : list Z;
  stride : list Z;
  storage_offset : Z;
  t_dtype : dtype;
  t_device : device;
  t_metadata : list (string * string)
}.

Global Instance dtype_eq_dec : EqDecision dtype.
Proof. solve_decision. Defined.
Global Instance device_eq_dec : EqDecision device.
Proof. solve_decision. Defined.
Global Instance UntypedStorage_eq_dec : EqDecision UntypedStorage.
Proof. solve_decision. Defined.
Global Instance Tensor_eq_dec : EqDecision Tensor.
Proof. solve_decision. Defined.

End torch.

(** Modelled from the spec: [torch._prims_common.make_contiguous_strides_for]
    is not part of the sources at hand; it is the canonical row-major stride
    of a shape, a dimension of extent 0 counting as 1. *)
Fixpoint make_contiguous_strides_for (shape : list Z) : list Z :=
  match shape with
  | [] => []
  | _ :: rest =>
      fold_right (fun l acc => Z.max l 1 * acc) 1 rest
        :: make_contiguous_strides_for rest
  end.

(** [StorageWeakRef(s)]: hashed and compared by allocation identity. *)
Definition StorageWeakRef (s : torch.UntypedStorage) : nat := torch.sid s.

(* ===================================================================== *)
(** * Repro support code                                                  *)
(* ===================================================================== *)

(** ** Default values of tensor attributes *)

Definition _stride_or_default (stride : option (list Z)) (shape : list Z) : list Z :=
  match stride with
  | Some s => s
  | None => make_contiguous_strides_for shape
  end.

Definition _dtype_or_default (dtype : option torch.dtype) : torch.dtype :=
  match dtype with
  | Some d => d
  | None => torch.float32
  end.

Definition _device_or_default (device : option torch.device) : torch.device :=
  match device with
  | Some d => d
  | None => torch.cpu
  end.

Definition _storage_offset_or_default (storage_offset : option Z) : Z :=
  match storage_offset with
  | Some o => o
  | None => 0
  end.

(** ** The lines of [load_args]

    Every line the writer emits is a call on the reader.  A line is kept as
    the call it spells: an argument the f-string leaves out (its [maybe_...]
    part is empty) is [None] here, one it writes is [Some].  [render] gives
    the text. *)
Inductive Instr :=
| IStorage (v : string) (storage_hash : option string) (nbytes : Z)
    (maybe_device : option torch.device) (maybe_dtype_hint : option torch.dtype)
| ITensor (storage : string) (shape : list Z) (maybe_stride : option (list Z))
    (maybe_storage_offset : option Z) (maybe_dtype : option torch.dtype)
    (maybe_tensor_metadata : list (string * string)) (name : string)
| ISymint (val : Z) (name : string).

Global Instance Instr_eq_dec : EqDecision Instr.
Proof. solve_decision. Defined.

Definition repr_option_str (o : option string) : string :=
  match o with
  | None => "None"
  | Some s => repr_str s
  end.

Definition render_maybe {A} (o : option A) (f : A -> string) : string :=
  match o with
  | None => ""
  | Some a => f a
  end.

Definition render (i : Instr) : string :=
  match i with
  | IStorage v storage_hash nbytes maybe_device maybe_dtype_hint =>
      v ++ " = reader.storage(" ++ repr_option_str storage_hash ++ ", "
        ++ repr_Z nbytes
        ++ render_maybe maybe_device (fun d => ", device=" ++ torch.repr_device d)
        ++ render_maybe maybe_dtype_hint
             (fun d => ", dtype_hint=" ++ torch.repr_dtype d)
        ++ ")"
  | ITensor storage shape maybe_stride maybe_storage_offset maybe_dtype md name =>
      "reader.tensor(" ++ storage ++ ", " ++ repr_tuple shape
        ++ render_maybe maybe_stride (fun s => ", " ++ repr_tuple s)
        ++ render_maybe maybe_storage_offset
             (fun o => ", storage_offset=" ++ repr_Z o)
        ++ render_maybe maybe_dtype (fun d => ", dtype=" ++ torch.repr_dtype d)
        ++ match md with
           | [] => ""
           | _ => ", " ++ join ", " (map (fun kv => fst kv ++ "=" ++ snd kv) md)
           end
        ++ ")  # " ++ name
  | ISymint val name =>
      "reader.symint(" ++ repr_Z val ++ ")  # " ++ name
  end.

Definition is_storage_instr (i : Instr) : Datatypes.bool :=
  match i with
  | IStorage _ _ _ _ _ => true
  | _ => false
  end.

(** An [int] or a [torch.SymInt] (of which only the hint is used). *)
Inductive PyInt :=
| Int (v : Z)
| SymInt (hint : Z).

(** A graph input: the values the writer is given and the reader hands back
    in [reader.args].  [ArgOther] is any other Python object, kept as its
    text. *)
Inductive Arg :=
| ArgInt (i : PyInt)
| ArgTensor (t : torch.Tensor)
| ArgOther (text : string).

Global Instance PyInt_eq_dec : EqDecision PyInt.
Proof. solve_decision. Defined.
Global Instance Arg_eq_dec : EqDecision Arg.
Proof. solve_decision. Defined.

(** ** NopInputReader *)
Module NopInputReader.

Record t := mk { total : Z }.

Definition __init__ : t := {| total := 0 |}.

Definition storage (storage_hash : option string) (nbytes : Z)
    (device : option torch.device) (dtype_hint : option torch.dtype) : M t unit :=
  modify (fun self => {| total := total self + 1 |}).

Definition tensor : M t unit := ret tt.

Definition symint : M t unit := ret tt.

(** Running the body of [load_args] on the counting reader; [defined]
    holds the local variables bound so far.  A storage line binds its
    variable (to [None], which [storage] returns); a tensor line reads the
    variable of its buffer before it calls [tensor], and reading a variable
    that is not bound raises [NameError] (its subclass [UnboundLocalError]
    when the variable is bound further down). *)
Definition exec (defined : gset string) (i : Instr) : M t (gset string) :=
  match i with
  | IStorage v h n d dh =>
      let! _ := storage h n d dh in
      ret ({[v]} ∪ defined)
  | ITensor b _ _ _ _ _ _ =>
      if decide (b ∈ defined)
      then let! _ := tensor in ret defined
      else raise (NameError b)
  | ISymint _ _ =>
      let! _ := symint in ret defined
  end.

Fixpoint load_args_from (defined : gset string) (script : list Instr)
    : M t (gset string) :=
  match script with
  | [] => ret defined
  | i :: rest => let! defined' := exec defined i in load_args_from defined' rest
  end.

Definition load_args (script : list Instr) : M t unit :=
  let! _ := load_args_from ∅ script in
  ret tt.

End NopInputReader.

(** Modelled from the spec: [torch.utils._content_store.ContentStoreReader]
    is not part of the sources at hand.  It is a read-by-hash store; a read
    of an absent hash fails with a distinguishable not-found condition
    ([FileNotFoundError], the one [InputReader.storage] catches).  A stored
    storage comes back with the device it was saved with. *)
Module ContentStoreReader.

Definition t := gmap string torch.UntypedStorage.

Definition read_storage {S} (self : t) (h : string) : M S torch.UntypedStorage :=
  match self !! h with
  | Some s => ret s
  | None => raise (FileNotFoundError h)
  end.

End ContentStoreReader.

(** Modelled from the spec: [torch._dynamo.testing.rand_strided] is not part
    of the sources at hand.  It synthesizes data of the requested shape,
    stride, dtype and device: a fresh storage just large enough for the
    strided view, filled by the generator [randn].  [fresh] is the identity
    of the new allocation. *)
Definition rand_strided (randn : Z -> list Z) (fresh : nat)
    (shape stride : list Z) (dtype : torch.dtype) (device : torch.device)
    : torch.Tensor :=
  let needed_size :=
    fold_right Z.add 0 (zip_with (fun sh st => (sh - 1) * st) shape stride) + 1 in
  let nbytes := needed_size * torch.itemsize dtype in
  {| torch.untyped_storage := torch.Storage fresh device nbytes (randn nbytes);
     torch.shape := shape;
     torch.stride := stride;
     torch.storage_offset := 0;
     torch.t_dtype := dtype;
     torch.t_device := device;
     torch.t_metadata := [] |}.

(** ** InputReader *)
Module InputReader.

(** [store], [args] and [pbar] are the attributes of the object ([pbar]
    holds the number of ticks received).  [log] collects what the module
    logger received and [allocated] counts the storages synthesized so
    far; both are ambient state the methods touch. *)
Record t := mk {
  store : option ContentStoreReader.t;
  args : list Arg;
  pbar : option Z;
  log : list log_record;
  allocated : nat
}.

Definition log_warning (fmt : string) (a : list string) : M t unit :=
  modify (fun self =>
    mk (store self) (args self) (pbar self)
       (log self ++ [LogRecord WARNING fmt a]) (allocated self)).

Definition __init__ (save_dir : option ContentStoreReader.t) (pbar : option Z) : t :=
  {| store := save_dir;
     args := [];
     pbar := pbar;
     log := match save_dir with
            | None => [LogRecord WARNING
                         "no save_dir specified, will generate random data" []]
            | Some _ => []
            end;
     allocated := 0 |}.

Definition pbar_update (n : Z) : M t unit :=
  modify (fun self =>
    mk (store self) (args self) (option_map (Z.add n) (pbar self))
       (log self) (allocated self)).

Definition next_allocation : M t nat :=
  fun self =>
    (Ok (allocated self),
     mk (store self) (args self) (pbar self) (log self) (S (allocated self))).

Definition args_append (v : Arg) : M t unit :=
  modify (fun self =>
    mk (store self) (args self ++ [v]) (pbar self) (log self) (allocated self)).

Section WithGenerator.

Variable randn : Z -> list Z.

Definition storage (storage_hash : option string) (nbytes : Z)
    (device : option torch.device) (dtype_hint : option torch.dtype)
    : M t torch.UntypedStorage :=
  let! self := get in
  let! _ := match pbar self with
            | Some _ => pbar_update 1
            | None => ret tt
            end in
  let device := _device_or_default device in
  let dtype_hint := _dtype_or_default dtype_hint in
  let! loaded :=
    match store self, storage_hash with
    | Some st, Some h =>
        try_except
          (let! storage := ContentStoreReader.read_storage st h in
           ret (Some storage))
          is_FileNotFoundError
          (fun _ => ret None)
    | _, _ => ret None
    end in
  match loaded with
  | Some storage =>
      let! _ :=
        if decide (device ≠ torch.s_device storage)
        then log_warning "device mismatch: %s != %s"
               [torch.str_device device;
                torch.str_device (torch.s_device storage)]
        else ret tt in
      ret storage
  | None =>
      let! _ := log_warning "could not load %s, generating random data instead"
                  [match storage_hash with Some h => h | None => "None" end] in
      let shape := [nbytes `div` torch.itemsize dtype_hint] in
      let stride := _stride_or_default None shape in
      let! fresh := next_allocation in
      ret (torch.untyped_storage
             (rand_strided randn fresh shape stride dtype_hint device))
  end.

(** [t = torch.tensor([], dtype, device=storage.device)] followed by
    [t.set_(storage, storage_offset, shape, stride)] and
    [set_tensor_metadata(t, metadata)]. *)
Definition tensor (storage : torch.UntypedStorage) (shape : list Z)
    (stride : option (list Z)) (storage_offset : option Z)
    (dtype : option torch.dtype) (metadata : list (string * string))
    : M t torch.Tensor :=
  let stride := _stride_or_default stride shape in
  let storage_offset := _storage_offset_or_default storage_offset in
  let dtype := _dtype_or_default dtype in
  let t := {| torch.untyped_storage := storage;
              torch.shape := shape;
              torch.stride := stride;
              torch.storage_offset := storage_offset;
              torch.t_dtype := dtype;
              torch.t_device := torch.s_device storage;
              torch.t_metadata := metadata |} in
  let! _ := args_append (ArgTensor t) in
  ret t.

Definition symint (val : Z) : M t Z :=
  let! _ := args_append (ArgInt (Int val)) in
  ret val.

(** Running the body of [load_args]: [env] holds the local variables
    [buf0], [buf1], ... of the function. *)
Definition exec (env : gmap string torch.UntypedStorage) (i : Instr)
    : M t (gmap string torch.UntypedStorage) :=
  match i with
  | IStorage v h n d dh =>
      let! s := storage h n d dh in
      ret (<[v := s]> env)
  | ITensor b sh st off dt md _ =>
      match env !! b with
      | Some s => let! _ := tensor s sh st off dt md in ret env
      | None => raise (NameError b)
      end
  | ISymint val _ =>
      let! _ := symint val in ret env
  end.

Fixpoint load_args_from (env : gmap string torch.UntypedStorage)
    (script : list Instr) : M t (gmap string torch.UntypedStorage) :=
  match script with
  | [] => ret env
  | i :: rest => let! env' := exec env i in load_args_from env' rest
  end.

Definition load_args (script : list Instr)
    : M t (gmap string torch.UntypedStorage) :=
  load_args_from ∅ script.

End WithGenerator.

End InputReader.

(** Modelled from the spec: [torch.utils._content_store.ContentStoreWriter]
    is not part of the sources at hand.  It is a write-by-content store:
    a write returns the content hash of the bytes and keeps the first
    storage saved under a hash. *)
Module ContentStoreWriter.

Record t := mk {
  hash_storage : list Z -> string;
  files : gmap string torch.UntypedStorage
}.

Definition write_storage (self : t) (storage : torch.UntypedStorage) : string * t :=
  let h := hash_storage self (torch.s_data storage) in
  match files self !! h with
  | Some _ => (h, self)
  | None => (h, mk (hash_storage self) (<[h := storage]> (files self)))
  end.

End ContentStoreWriter.

(** ** InputWriter *)
Module InputWriter.

Record t := mk {
  _lines : list Instr;
  storage_counter : nat;
  store : option ContentStoreWriter.t;
  seen_storages : gmap nat string
}.

(** [store] is [ContentStoreWriter(save_dir)], or [None] when there is no
    [save_dir]. *)
Definition __init__ (store : option ContentStoreWriter.t) : t :=
  {| _lines := []; storage_counter := 0; store := store; seen_storages := ∅ |}.

Definition lines (self : t) : list string :=
  ["def load_args(reader):"]
    ++ map (fun l => "    " ++ render l) (_lines self)
    ++ ["load_args._version = 0"].

(** [next(self.storage_counter)] *)
Definition next_storage_counter : M t nat :=
  fun self =>
    (Ok (storage_counter self),
     mk (_lines self) (S (storage_counter self)) (store self) (seen_storages self)).

(** [self.store.write_storage(s)], [st] being [self.store]. *)
Definition store_write_storage (st : ContentStoreWriter.t)
    (s : torch.UntypedStorage) : M t string :=
  fun self =>
    let '(h, st') := ContentStoreWriter.write_storage st s in
    (Ok h, mk (_lines self) (storage_counter self) (Some st') (seen_storages self)).

Definition lines_append (l : Instr) : M t unit :=
  modify (fun self =>
    mk (_lines self ++ [l]) (storage_counter self) (store self) (seen_storages self)).

Definition seen_storages_set (ws : nat) (v : string) : M t unit :=
  modify (fun self =>
    mk (_lines self) (storage_counter self) (store self)
       (<[ws := v]> (seen_storages self))).

Definition storage (untyped_storage : torch.UntypedStorage)
    (dtype_hint : option torch.dtype) (device_hint : option torch.device)
    : M t string :=
  let ws := StorageWeakRef untyped_storage in
  let! self := get in
  match seen_storages self !! ws with
  | Some v => ret v
  | None =>
      let! n := next_storage_counter in
      let v := "buf" ++ pretty n in
      let maybe_dtype_hint :=
        if decide (_dtype_or_default None ≠ _dtype_or_default dtype_hint)
        then dtype_hint else None in
      let device := torch.s_device untyped_storage in
      let! device :=
        if decide (torch.type device = "meta")
        then let! _ := assert (bool_decide (device_hint ≠ None)) in
             ret (default device device_hint)
        else ret device in
      let maybe_device :=
        if decide (_device_or_default None ≠ device) then Some device else None in
      let nbytes := torch.s_nbytes untyped_storage in
      let! storage_hash :=
        match store self with
        | Some st =>
            if decide (torch.type (torch.s_device untyped_storage) ≠ "meta")
            then let! h := store_write_storage st untyped_storage in ret (Some h)
            else ret None
        | None => ret None
        end in
      let! _ := lines_append (IStorage v storage_hash nbytes maybe_device maybe_dtype_hint) in
      let! _ := seen_storages_set ws v in
      ret v
  end.

Definition tensor (name : string) : torch.Tensor -> M t unit := fun t =>
  let! storage := storage (torch.untyped_storage t)
                    (Some (torch.t_dtype t)) (Some (torch.t_device t)) in
  let maybe_stride :=
    if decide (_stride_or_default None (torch.shape t) ≠ torch.stride t)
    then Some (torch.stride t) else None in
  let maybe_dtype :=
    if decide (_dtype_or_default None ≠ torch.t_dtype t)
    then Some (torch.t_dtype t) else None in
  let maybe_storage_offset :=
    if decide (_storage_offset_or_default None ≠ torch.storage_offset t)
    then Some (torch.storage_offset t) else None in
  let maybe_tensor_metadata := torch.t_metadata t in
  lines_append
    (ITensor storage (torch.shape t) maybe_stride maybe_storage_offset
       maybe_dtype maybe_tensor_metadata name).

Definition symint (name : string) (val : PyInt) : M t unit :=
  let val := match val with
             | SymInt hint => hint
             | Int v => v
             end in
  lines_append (ISymint val name).

End InputWriter.

(* ===================================================================== *)
(** * The process around the module                                       *)
(* ===================================================================== *)

(** ** FX graphs, as far as the module looks into them *)
Module fx.

Record Node := mkNode {
  name : string;
  op : string
}.

(** [fx_placeholder_targets(gm)], [gm.graph.nodes] in emission order and
    the text [NNModuleToString.convert(gm)] produces. *)
Record GraphModule := mkGraphModule {
  fx_placeholder_targets : list string;
  nodes : list Node;
  source : string
}.

Global Instance Node_eq_dec : EqDecision Node.
Proof. solve_decision. Defined.
Global Instance GraphModule_eq_dec : EqDecision GraphModule.
Proof. solve_decision. Defined.

End fx.

(** What a graph or a compiled callable returns: a single object or a
    tuple/list of objects.  An element that is itself a tuple or list is
    [ItemSeq]; its contents are never looked at. *)
Inductive PyItem :=
| ItemTensor (t : torch.Tensor)
| ItemInt (v : Z)
| ItemSeq
| ItemNone.

Inductive PyObj :=
| ObjItem (i : PyItem)
| ObjSeq (l : list PyItem).

(** ** [torch._dynamo.config] *)
Module config.

Record t := mk {
  repro_after : option string;
  repro_level : Z;
  dynamic_shapes : Datatypes.bool
}.

End config.

(** The script [save_graph_repro] writes: the optional overrides import, the
    module text, the body of [load_args] and the arguments of the trailing
    [run_repro] call. *)
Record ReproFile := mkReproFile {
  imports_inductor_overrides : Datatypes.bool;
  model_str : string;
  load_args : list Instr;
  accuracy : Datatypes.bool;
  command : string;
  save_dir : option string;
  tracing_mode : string
}.

Global Instance ReproFile_eq_dec : EqDecision ReproFile.
Proof. solve_decision. Defined.

(** What the process does that an observer can see, in order.  [Stored]
    is a writer session putting storages into the content store under a
    directory: the files it added, by hash. *)
Inductive effect :=
| Logged (r : log_record)
| Printed (text : string)
| MadeDirs (path : string)
| Wrote (path : string) (f : ReproFile)
| Copied (src dst : string)
| BuckTarget (path : string)
| MinifierLauncher (f : ReproFile)
| Spawned (cmd : list string) (cwd : string) (env : gmap string string)
| Stored (save_dir : string) (files : gmap string torch.UntypedStorage).

Global Instance effect_eq_dec : EqDecision effect.
Proof. solve_decision. Defined.

Record World := mkWorld {
  cfg : config.t;
  effects : list effect
}.

Definition emit (e : effect) : M World unit :=
  modify (fun w => mkWorld (cfg w) (effects w ++ [e])).

Definition log_warning (fmt : string) (a : list string) : M World unit :=
  emit (Logged (LogRecord WARNING fmt a)).

Definition log_error (fmt : string) (a : list string) : M World unit :=
  emit (Logged (LogRecord ERROR fmt a)).

Definition print (text : string) : M World unit := emit (Printed text).

Definition get_config : M World config.t := fun w => (Ok (cfg w), w).

(** [with config.patch(repro_after=v): body]: the old value is restored on
    the way out, whether [body] returns or raises. *)
Definition config_patch_repro_after {A} (v : option string) (body : M World A)
    : M World A :=
  fun w =>
    let old := config.repro_after (cfg w) in
    let patched c :=
      config.mk v (config.repro_level c) (config.dynamic_shapes c) in
    let restored c :=
      config.mk old (config.repro_level c) (config.dynamic_shapes c) in
    let '(r, w') := body (mkWorld (patched (cfg w)) (effects w)) in
    (r, mkWorld (restored (cfg w')) (effects w')).

(** A computation on an object of its own, run to the end inside the
    process; the object is handed back with the result. *)
Definition run_local {S W A} (m : M S A) (init : S) : M W (A * S) :=
  fun w =>
    match m init with
    | (Ok a, s) => (Ok (a, s), w)
    | (Raise e, _) => (Raise e, w)
    end.

(** An operating-system call that either succeeds or raises. *)
Definition syscall (outcome : option exn) (done : effect) : M World unit :=
  match outcome with
  | Some e => raise e
  | None => emit done
  end.

(** A finished subprocess: its exit code and the bytes it wrote to the
    two captured streams. *)
Record Completed := mkCompleted {
  returncode : Z;
  stdout : string;
  stderr : string
}.

(** The file system and process environment, and the helpers of
    [torch._dynamo.debug_utils] that touch them.  A [..._raises] field tells
    whether the call fails and with which exception. *)
Record OS := mkOS {
  minifier_dir : string;
  getcwd : string;
  path_exists : string -> Datatypes.bool;
  makedirs_raises : string -> option exn;
  open_write_raises : string -> option exn;
  copyfile_raises : string -> string -> option exn;
  use_buck : Datatypes.bool;
  buck_write_raises : string -> option exn;
  buck_cmd : string -> list string;
  helper_for_dump_minify_raises : ReproFile -> option exn;
  content_store : string -> ContentStoreWriter.t;
  content_store_reader : string -> ContentStoreReader.t;
  environ : gmap string string;
  uuid4 : string;
  popen : list string -> string -> gmap string string -> Completed
}.

Definition path_join (a b : string) : string := a ++ "/" ++ b.

(* ===================================================================== *)
(** * Dumping repros                                                      *)
(* ===================================================================== *)

Section Dump.

Variable os : OS.

(** The loop of [generate_compiler_repro_string] over
    [zip(fx_placeholder_targets(gm), args)]. *)
Fixpoint write_args (targets : list string) (args : list Arg)
    : M InputWriter.t unit :=
  match targets, args with
  | placeholder :: targets', arg :: args' =>
      let! _ :=
        match arg with
        | ArgInt i => InputWriter.symint placeholder i
        | ArgTensor t => InputWriter.tensor placeholder t
        | ArgOther text =>
            raise (TypeError ("arg is neither SymInt/int nor torch.Tensor, " ++ text))
        end in
      write_args targets' args'
  | _, _ => ret tt
  end.

(** What a writer session has added to its content store: the files that
    were not there when it began. *)
Definition written_content (before after : InputWriter.t)
    : gmap string torch.UntypedStorage :=
  match InputWriter.store before, InputWriter.store after with
  | Some b, Some a => ContentStoreWriter.files a ∖ ContentStoreWriter.files b
  | _, _ => ∅
  end.

Definition stored_by (save_dir : option string) (before after : InputWriter.t)
    : list effect :=
  match save_dir with
  | Some dir =>
      if decide (written_content before after = ∅) then []
      else [Stored dir (written_content before after)]
  | None => []
  end.

(** A writer session run inside the process: the writer is handed back,
    and what it has put into the content store under [save_dir] stays
    there, whether the session returns or raises. *)
Definition run_writer (save_dir : option string) (session : M InputWriter.t unit)
    (writer : InputWriter.t) : M World InputWriter.t :=
  fun w =>
    let '(r, writer') := session writer in
    let w' := mkWorld (cfg w) (effects w ++ stored_by save_dir writer writer') in
    match r with
    | Ok _ => (Ok writer', w')
    | Raise e => (Raise e, w')
    end.

(** Returns the module text and the body of [load_args]. *)
Definition generate_compiler_repro_string (gm : fx.GraphModule) (args : list Arg)
    (save_dir : option string) : M World (string * list Instr) :=
  let model_str := fx.source gm in
  let writer := InputWriter.__init__ (option_map (content_store os) save_dir) in
  let! writer :=
    run_writer save_dir (write_args (fx.fx_placeholder_targets gm) args) writer in
  ret (model_str, InputWriter._lines writer).

(** What is written through [fd]. *)
Definition save_graph_repro (gm : fx.GraphModule) (args : list Arg)
    (compiler_name : string) (save_dir : option string) (command : string)
    : M World ReproFile :=
  let imports := contains "inductor" compiler_name in
  let! (model_str, body) := generate_compiler_repro_string gm args save_dir in
  let accuracy := contains "_accuracy" compiler_name in
  let! c := get_config in
  let tracing_mode := if config.dynamic_shapes c then "symbolic" else "real" in
  ret (mkReproFile imports model_str body accuracy command save_dir tracing_mode).

Definition ensure_subdir (subdir : string) : M World unit :=
  if negb (path_exists os subdir)
  then syscall (makedirs_raises os subdir) (MadeDirs subdir)
  else ret tt.

Definition dump_compiler_graph_state (gm : fx.GraphModule) (args : list Arg)
    (compiler_name : string) : M World unit :=
  let subdir := path_join (minifier_dir os) "checkpoints" in
  let! _ := ensure_subdir subdir in
  let n := pretty (length (fx.nodes gm)) in
  let file_name := path_join subdir (n ++ ".py") in
  let! _ := log_warning "Writing checkpoint with %s nodes to %s" [n; file_name] in
  let! _ :=
    (* with open(file_name, "w") as fd: save_graph_repro(fd, ...) *)
    let! _ := match open_write_raises os file_name with
              | Some e => raise e
              | None => ret tt
              end in
    let! f := save_graph_repro gm args compiler_name (Some subdir) "run" in
    emit (Wrote file_name f) in
  let curdir := getcwd os in
  let repro_path := path_join curdir "repro.py" in
  try_except
    (let! _ := syscall (copyfile_raises os file_name repro_path)
                 (Copied file_name repro_path) in
     let! _ := log_warning "Copying repro file for convenience to %s" [repro_path] in
     if use_buck os
     then syscall (buck_write_raises os file_name) (BuckTarget file_name)
     else ret tt)
    is_OSError
    (fun _ => log_warning "No write permissions for %s" [repro_path]).

Definition dump_to_minify (gm : fx.GraphModule) (args : list Arg)
    (compiler_name : string) : M World unit :=
  let subdir := path_join (minifier_dir os) "checkpoints" in
  let! _ := ensure_subdir subdir in
  let! out := save_graph_repro gm args compiler_name (Some subdir) "minify" in
  syscall (helper_for_dump_minify_raises os out) (MinifierLauncher out).

End Dump.

(* ===================================================================== *)
(** * Main entry point: [wrap_compiler_debug]                             *)
(* ===================================================================== *)

(** A compiled function, called with the list of real inputs. *)
Definition Callable : Type := list Arg -> M World PyObj.

Definition CompilerFn : Type := fx.GraphModule -> list Arg -> M World Callable.

(** The [Repro] module of a repro script, as far as [repro_common] looks at
    it: the names of its parameters and its buffers with their [numel]. *)
Record ReproModule := mkReproModule {
  named_parameters : list string;
  named_buffers : list (string * Z)
}.

(** The function [load_args] of a repro script: its body and its
    [_version] attribute, if it has one. *)
Record LoadArgs := mkLoadArgs {
  body : list Instr;
  _version : option Z
}.

(** The parts of PyTorch the module calls into. *)
Record Backend := mkBackend {
  get_aot_graph_name : string;
  (** [FakeTensorMode().from_tensor] *)
  from_tensor : torch.Tensor -> torch.Tensor;
  (** [torch.cuda.synchronize], which surfaces asynchronous faults *)
  cuda_synchronize : M World unit;
  (** [backend_accuracy_fails(..., only_fwd=True)] *)
  backend_aot_accuracy_fails : fx.GraphModule -> list Arg -> CompilerFn -> M World Datatypes.bool;
  (** calling an [fx.GraphModule] eagerly *)
  run_graph : fx.GraphModule -> list Arg -> M World PyObj;
  compile_fx_inner : CompilerFn;
  (** [make_fx(mod, tracing_mode)] applied to the arguments *)
  make_fx : ReproModule -> option string -> list Arg -> M World fx.GraphModule;
  (** the generator behind [rand_strided] *)
  randn : Z -> list Z;
  MAX_CONSTANT_NUMEL_INLINE : Z
}.

Definition is_cuda (t : torch.Tensor) : Datatypes.bool :=
  bool_decide (torch.type (torch.t_device t) = "cuda").

Section Wrapper.

Variable os : OS.
Variable backend : Backend.
Variable unconfigured_compiler_fn : CompilerFn.
Variable compiler_name : string.

Definition compiler_fn : CompilerFn := unconfigured_compiler_fn.

(** The closure [inner_debug_fn] of [debug_wrapper]; [gm], [orig_graph]
    (the graph as it was before compilation), [example_inputs] and
    [inner_compiled_fn] are its free variables. *)
Definition inner_debug_fn (orig_graph : fx.GraphModule)
    (example_inputs : list Arg) (inner_compiled_fn : Callable) : Callable :=
  fun real_inputs =>
    let copy_tensor_attrs :=
      map (fun x => match x with
                    | ArgTensor t => ArgTensor (from_tensor backend t)
                    | _ => x
                    end) real_inputs in
    let! c := get_config in
    let! _ :=
      if decide (config.repro_level c = 3)
      then dump_to_minify os orig_graph real_inputs compiler_name
      else ret tt in
    let! c := get_config in
    if decide (config.repro_level c = 4) then
      if decide (compiler_name ≠ "inductor") then
        raise (NotImplementedError
                 "Accuracy minification is supported for inductor only")
      else
        let! fails := backend_aot_accuracy_fails backend orig_graph real_inputs compiler_fn in
        if fails : Datatypes.bool then
          let! _ := log_warning "Accuracy failed for the AOT Autograd graph %s"
                      [get_aot_graph_name backend] in
          let! _ := dump_compiler_graph_state os orig_graph real_inputs
                      (compiler_name ++ "_accuracy") in
          let! _ := dump_to_minify os orig_graph real_inputs
                      (compiler_name ++ "_accuracy") in
          raise (AccuracyError "Bad accuracy detected")
        else
          inner_compiled_fn real_inputs
    else
      try_except
        (let! out := inner_compiled_fn real_inputs in
         let! _ :=
           if existsb (fun arg => match arg with
                                  | ArgTensor t => is_cuda t
                                  | _ => false
                                  end) example_inputs
           then cuda_synchronize backend
           else ret tt in
         ret out)
        is_Exception
        (fun e =>
           let! c := get_config in
           let! _ :=
             if decide (config.repro_level c = 1)
             then dump_compiler_graph_state os orig_graph copy_tensor_attrs compiler_name
             else if decide (config.repro_level c = 2)
             then dump_to_minify os orig_graph copy_tensor_attrs compiler_name
             else ret tt in
           raise e).

Definition deferred_for_real_inputs (orig_graph : fx.GraphModule)
    (example_inputs : list Arg) (inner_compiled_fn : Callable) : Callable :=
  fun real_inputs =>
    let! c := get_config in
    if decide (config.repro_after c ≠ Some "aot")
    then inner_compiled_fn real_inputs
    else config_patch_repro_after None
           (inner_debug_fn orig_graph example_inputs inner_compiled_fn real_inputs).

Definition debug_wrapper (gm : fx.GraphModule) (example_inputs : list Arg)
    : M World Callable :=
  let orig_graph := gm in
  let! c := get_config in
  let! _ := assert (bool_decide
                      (config.repro_after c ∈ [Some "dynamo"; Some "aot"; None])) in
  let! inner_compiled_fn :=
    try_except
      (compiler_fn gm example_inputs)
      is_Exception
      (fun e =>
         let! c := get_config in
         let! _ :=
           if decide (config.repro_after c = Some "aot") then
             let! _ :=
               if decide (config.repro_level c = 1)
               then dump_compiler_graph_state os orig_graph example_inputs compiler_name
               else if decide (config.repro_level c = 2)
               then dump_to_minify os orig_graph example_inputs compiler_name
               else ret tt in
             log_error "CompilerError" []
           else ret tt in
         raise e) in
  let! c := get_config in
  if decide (config.repro_after c = Some "aot")
  then ret (deferred_for_real_inputs orig_graph example_inputs inner_compiled_fn)
  else ret inner_compiled_fn.

End Wrapper.

Definition wrap_compiler_debug := debug_wrapper.


(* ===================================================================== *)
(** * Isolation and minifier tools                                        *)
(* ===================================================================== *)

(** [repr(e)] of an exception made with one argument (five for
    [UnicodeDecodeError], none where none is kept). *)
Definition repr_exn (e : exn) : string :=
  match e with
  | AccuracyError m => "AccuracyError(" ++ repr_str m ++ ")"
  | NotImplementedError m => "NotImplementedError(" ++ repr_str m ++ ")"
  | AssertionError => "AssertionError()"
  | TypeError m => "TypeError(" ++ repr_str m ++ ")"
  | NameError n => "NameError(" ++ repr_str n ++ ")"
  | FileNotFoundError p => "FileNotFoundError(" ++ repr_str p ++ ")"
  | OSError m => "OSError(" ++ repr_str m ++ ")"
  | RuntimeError m => "RuntimeError(" ++ repr_str m ++ ")"
  | AttributeError a => "AttributeError(" ++ repr_str a ++ ")"
  | IndexError => "IndexError()"
  | UnicodeDecodeError enc obj start stop reason =>
      "UnicodeDecodeError(" ++ repr_str enc ++ ", " ++ repr_bytes obj ++ ", "
        ++ repr_Z start ++ ", " ++ repr_Z stop ++ ", " ++ repr_str reason ++ ")"
  | KeyboardInterrupt => "KeyboardInterrupt()"
  | SystemExit c => "SystemExit(" ++ repr_Z c ++ ")"
  end.

(** The parsed command line of a repro script. *)
Module options.

Record t := mk {
  save_dir : option string;
  accuracy : Datatypes.bool;
  tracing_mode : option string;
  isolate : Datatypes.bool;
  skip_saving_inductor_intermediates : Datatypes.bool;
  skip_saving_float64_intermediates : Datatypes.bool;
  skip_check_deterministic : Datatypes.bool;
  stable_hash : Datatypes.bool
}.

End options.

Section Minifier.

Variable os : OS.
Variable backend : Backend.

Definition isolate_fails (fx_g : fx.GraphModule) (args : list Arg)
    (compiler_name : string) (env : option (gmap string string))
    (save_dir : option string) (accuracy : Datatypes.bool) : M World Datatypes.bool :=
  let env := default ∅ env in
  let subdir := path_join (getcwd os) "isolate" in
  let! _ := ensure_subdir os subdir in
  let file_name := path_join subdir (substring 0 5 (uuid4 os) ++ ".py") in
  let! _ :=
    let! _ := match open_write_raises os file_name with
              | Some e => raise e
              | None => ret tt
              end in
    let! f := save_graph_repro os fx_g args compiler_name save_dir "minifier-query" in
    emit (Wrote file_name f) in
  let new_env := env ∪ environ os in
  let cmd := if use_buck os then buck_cmd os file_name else ["python"; file_name] in
  let! _ := emit (Spawned cmd subdir new_env) in
  let p := popen os cmd subdir new_env in
  if decide (returncode p ≠ 0) then
    let! out := decode_utf8 (stdout p) in
    let! _ := print (textwrap_indent out ">>  ") in
    let! err := decode_utf8 (stderr p) in
    let! _ := print (textwrap_indent err ">>  ") in
    ret true
  else ret false.

(** The loop [for arg in args: if arg.is_cuda: has_cuda = True; break];
    only a tensor has the attribute. *)
Fixpoint any_is_cuda (args : list Arg) : M World Datatypes.bool :=
  match args with
  | [] => ret false
  | ArgTensor t :: rest => if is_cuda t then ret true else any_is_cuda rest
  | _ :: _ => raise (AttributeError "is_cuda")
  end.

Definition is_seq_item (i : PyItem) : Datatypes.bool :=
  match i with
  | ItemSeq => true
  | _ => false
  end.

Definition inductor_fails (fx_g : fx.GraphModule) (args : list Arg)
    (check_str : option string) : M World Datatypes.bool :=
  let! has_cuda := any_is_cuda args in
  let sync := if has_cuda : Datatypes.bool then cuda_synchronize backend else ret tt in
  let! ran :=
    try_except
      (let! result := run_graph backend fx_g args in
       let! _ := assert (match result with ObjSeq _ => true | _ => false end) in
       let! _ := assert (negb (match result with
                               | ObjSeq l => existsb is_seq_item l
                               | _ => false
                               end)) in
       ret true)
      is_Exception
      (fun _ => ret false) in
  if negb ran then ret false else
  let! _ := sync in
  try_except
    (let! compile_mod := compile_fx_inner backend fx_g args in
     let! _ := compile_mod args in
     let! _ := sync in
     ret false)
    is_Exception
    (fun e =>
       if match check_str with
          | Some c => negb (contains c (repr_exn e))
          | None => false
          end
       then ret false
       else let! _ := print (repr_exn e) in ret true).

Definition inductor_accuracy_fails (fx_g : fx.GraphModule) (args : list Arg)
    (check_str : option string) : M World Datatypes.bool :=
  backend_aot_accuracy_fails backend fx_g args (compile_fx_inner backend).

(* ===================================================================== *)
(** * Repro main                                                          *)
(* ===================================================================== *)

Fixpoint warn_large_buffers (buffers : list (string * Z)) : M World unit :=
  match buffers with
  | [] => ret tt
  | (n, numel) :: rest =>
      let! _ :=
        if (MAX_CONSTANT_NUMEL_INLINE backend <? numel)%Z
        then log_warning
               "Constant %s was not serialized, generated random data instead. If you think this is affecting you, please comment on https://github.com/pytorch/pytorch/issues/100468"
               [n]
        else ret tt in
      warn_large_buffers rest
  end.

(** Runs [load_args(input_reader)] on a reader just made and hands the
    reader back; what the reader logged since it was made goes to the log
    of the process, also when it raises. *)
Definition run_input_reader (script : list Instr) (reader : InputReader.t)
    : M World InputReader.t :=
  fun w =>
    let '(r, reader') := InputReader.load_args (randn backend) script reader in
    let w' := mkWorld (cfg w) (effects w ++ map Logged (InputReader.log reader')) in
    match r with
    | Ok _ => (Ok reader', w')
    | Raise e => (Raise e, w')
    end.

Definition repro_common (options : options.t) (repro_mod : ReproModule)
    (load_args : LoadArgs) : M World (fx.GraphModule * list Arg) :=
  let! _ := assert (negb (bool_decide (named_parameters repro_mod ≠ []))) in
  let! _ := warn_large_buffers (named_buffers repro_mod) in
  let! _ :=
    match _version load_args with
    | None =>
        log_warning
          "load_args does not have a _version attribute, please file a bug to PyTorch and describe how you generate this repro script"
          []
    | Some v =>
        if (0 <? v)%Z
        then log_warning
               "load_args is version %s, but this version of PyTorch only supports version 0.  We will try to run it anyway but there may be an incompatibility; if so, try upgrading your version of PyTorch."
               [repr_Z v]
        else ret tt
    end in
  let! (_, nop_reader) :=
    run_local (NopInputReader.load_args (body load_args)) NopInputReader.__init__ in
  let store := option_map (content_store_reader os) (options.save_dir options) in
  let input_reader := InputReader.__init__ store (Some 0) in
  let! input_reader := run_input_reader (body load_args) input_reader in
  let args := InputReader.args input_reader in
  let! gm := make_fx backend repro_mod (options.tracing_mode options) args in
  ret (gm, args).

Definition repro_minifier_query (options : options.t) (repro_mod : ReproModule)
    (load_args : LoadArgs) : M World unit :=
  let! (gm, args) := repro_common options repro_mod load_args in
  let fail_fn := if options.accuracy options
                 then inductor_accuracy_fails else inductor_fails in
  let! failed := fail_fn gm args None in
  if failed : Datatypes.bool then raise (SystemExit 1) else raise (SystemExit 0).

End Minifier.

(** The exit status of the interpreter for the outcome of the main
    program: the code of a [SystemExit], 1 after any other uncaught
    exception, 0 otherwise. *)
Definition exit_status {A} (r : result A) : Z :=
  match r with
  | Ok _ => 0
  | Raise (SystemExit code) => code
  | Raise _ => 1
  end.

(* ===================================================================== *)
(** * The accuracy analyzer: [repro_analyze]                              *)
(* ===================================================================== *)

(** One entry of a tensor-metadata tuple. *)
Inductive MetaField :=
| MetaShape (s : list Z)
| MetaDtype (d : torch.dtype)
| MetaStride (s : list Z)
| MetaDevice (d : torch.device).

Global Instance MetaField_eq_dec : EqDecision MetaField.
Proof. solve_decision. Defined.

(** [f"{a}"] for an entry. *)
Definition str_meta (f : MetaField) : string :=
  match f with
  | MetaShape s => repr_tuple s
  | MetaDtype d => torch.repr_dtype d
  | MetaStride s => repr_tuple s
  | MetaDevice d => torch.str_device d
  end.

(** Modelled from the spec: [ContentStoreWriter.compute_tensor_metadata] is
    not part of the sources at hand.  It is the structural metadata of a
    tensor (shape, dtype, stride, device), not its content. *)
Definition compute_tensor_metadata (t : torch.Tensor) : list MetaField :=
  [MetaShape (torch.shape t); MetaDtype (torch.t_dtype t);
   MetaStride (torch.stride t); MetaDevice (torch.t_device t)].

(** What the analyzer is handed by the rest of PyTorch: the intermediates
    the hooks of the compiled function see on its n-th call, in order; the
    value [fx.Interpreter.run_node] computes for a node, on the n-th float64
    run and on the run with the original semantics; the tensors already in
    the save directory; and closeness of two tensors under
    [config.repro_tolerance] with NaN equal to NaN. *)
Record AnalyzeOracle := mkAnalyzeOracle {
  compiled_run : nat -> list (string * torch.Tensor);
  float64_node : nat -> fx.Node -> torch.Tensor;
  eager_node : fx.Node -> torch.Tensor;
  stored_tensors : gmap string torch.Tensor;
  allclose : torch.Tensor -> torch.Tensor -> Datatypes.bool
}.

(** Modelled from the spec: [torch._dynamo.utils.same] is not part of the
    sources at hand.  The original value is compared with the compiled one
    and with the float64 one under the tolerance; it disagrees when either
    comparison fails, and [log_error] is told which. *)
Definition same (close : torch.Tensor -> torch.Tensor -> Datatypes.bool)
    (ref res fp64_ref : torch.Tensor) : Datatypes.bool * list string :=
  let ok_res := close ref res in
  let ok_fp64 := close ref fp64_ref in
  (ok_res && ok_fp64,
   ((if ok_res then [] else ["original disagrees with inductor beyond tolerance"])
    ++ (if ok_fp64 then [] else ["original disagrees with float64 beyond tolerance"]))%list).

Module Analysis.

(** The local state of [repro_analyze]: [known_names], the tensors of the
    content store under the save directory, the lines written through a
    progress bar and the ticks the bars received. *)
Record t := mk {
  known_names : gset string;
  tensors : gmap string torch.Tensor;
  written : list string;
  ticks : Z
}.

Definition known_names_add (name : string) : M t unit :=
  modify (fun st => mk ({[name]} ∪ known_names st) (tensors st) (written st) (ticks st)).

(** [writer.write_tensor(path, val)] *)
Definition write_tensor (path : string) (val : torch.Tensor) : M t unit :=
  modify (fun st => mk (known_names st) (<[path := val]> (tensors st))
                       (written st) (ticks st)).

(** [reader.read_tensor(path)] *)
Definition read_tensor (path : string) : M t torch.Tensor :=
  fun st =>
    match tensors st !! path with
    | Some v => (Ok v, st)
    | None => (Raise (FileNotFoundError path), st)
    end.

(** [reader.read_tensor_metadata(path)] *)
Definition read_tensor_metadata (path : string) : M t (list MetaField) :=
  let! v := read_tensor path in
  ret (compute_tensor_metadata v).

Definition pbar_write (line : string) : M t unit :=
  modify (fun st => mk (known_names st) (tensors st) (written st ++ [line]) (ticks st)).

Definition pbar_update (n : Z) : M t unit :=
  modify (fun st => mk (known_names st) (tensors st) (written st) (ticks st + n)).

End Analysis.

Section Analyze.

Variable oracle : AnalyzeOracle.
Variable options : options.t.

Definition save_hook (name : string) (val : torch.Tensor) : M Analysis.t unit :=
  let! _ := Analysis.known_names_add name in
  let! _ :=
    if negb (options.skip_saving_inductor_intermediates options)
    then Analysis.write_tensor (path_join "inductor" name) val
    else ret tt in
  Analysis.pbar_update 1.

(** The pairs [(tuple1[i], tuple2[i])] that differ, for [i] in
    [range(len(tuple1))]; [tuple2[i]] raises past the end of [tuple2]. *)
Fixpoint diff_values (tuple1 tuple2 : list MetaField)
    : result (list (MetaField * MetaField)) :=
  match tuple1, tuple2 with
  | [], _ => Ok []
  | _ :: _, [] => Raise IndexError
  | a :: rest1, b :: rest2 =>
      match diff_values rest1 rest2 with
      | Ok l => Ok (if decide (a ≠ b) then (a, b) :: l else l)
      | Raise e => Raise e
      end
  end.

Definition compare_tuples (tuple1 tuple2 : list MetaField)
    : M Analysis.t (option string) :=
  match diff_values tuple1 tuple2 with
  | Raise e => raise e
  | Ok [] => ret None
  | Ok diff =>
      ret (Some (join " and "
                   (map (fun ab => str_meta (fst ab) ++ " != " ++ str_meta (snd ab)) diff)))
  end.

Definition check_hook (name : string) (val : torch.Tensor) : M Analysis.t unit :=
  let meta := compute_tensor_metadata val in
  let! meta2 := Analysis.read_tensor_metadata (path_join "inductor" name) in
  let! reason := compare_tuples meta meta2 in
  let! _ :=
    match reason with
    | Some reason =>
        Analysis.pbar_write
          ("NONDETERMINISTIC INDUCTOR at " ++ name ++ " (" ++ reason ++ ")")
    | None => ret tt
    end in
  Analysis.pbar_update 1.

(** A call of the compiled function under [intermediate_hook(hook)]: the
    hook sees every intermediate in turn. *)
Fixpoint run_hooked (hook : string -> torch.Tensor -> M Analysis.t unit)
    (intermediates : list (string * torch.Tensor)) : M Analysis.t unit :=
  match intermediates with
  | [] => ret tt
  | (name, val) :: rest => let! _ := hook name val in run_hooked hook rest
  end.

(** Modelled from the spec: [fx.Interpreter.boxed_run] is not part of the
    sources at hand.  It runs the graph node by node in emission order and
    returns at the output node. *)
Fixpoint boxed_run (run_node : fx.Node -> M Analysis.t torch.Tensor)
    (nodes : list fx.Node) : M Analysis.t unit :=
  match nodes with
  | [] => ret tt
  | n :: rest =>
      let! _ := run_node n in
      if decide (fx.op n = "output") then ret tt else boxed_run run_node rest
  end.

(** [WriterInterp(new_mod, subdir).run_node] *)
Definition WriterInterp_run_node (subdir : string) (n : fx.Node)
    : M Analysis.t torch.Tensor :=
  let r := float64_node oracle 0 n in
  let name := fx.name n in
  let! st := get in
  let! _ :=
    if decide (name ∈ Analysis.known_names st)
    then let! _ := Analysis.pbar_update 1 in
         Analysis.write_tensor (path_join subdir name) r
    else ret tt in
  ret r.

(** [ExactReaderInterp(new_mod).run_node] *)
Definition ExactReaderInterp_run_node (n : fx.Node) : M Analysis.t torch.Tensor :=
  let r := float64_node oracle 1 n in
  let name := fx.name n in
  let! st := get in
  let! _ :=
    if decide (name ∈ Analysis.known_names st)
    then
      let meta := compute_tensor_metadata r in
      let! meta2 := Analysis.read_tensor_metadata (path_join "float64" name) in
      let! reason := compare_tuples meta meta2 in
      let! _ :=
        match reason with
        | Some reason =>
            Analysis.pbar_write
              ("NONDETERMINISTIC FLOAT64 at " ++ name ++ " (" ++ reason ++ ")")
        | None => ret tt
        end in
      Analysis.pbar_update 1
    else ret tt in
  ret r.

Fixpoint write_lines (ls : list string) : M Analysis.t unit :=
  match ls with
  | [] => ret tt
  | l :: rest => let! _ := Analysis.pbar_write l in write_lines rest
  end.

(** [ReaderInterp(mod).run_node]: [log_error] sets [logged] and writes one
    line per message. *)
Definition ReaderInterp_run_node (n : fx.Node) : M Analysis.t torch.Tensor :=
  let r := eager_node oracle n in
  let name := fx.name n in
  let! st := get in
  let! _ :=
    if decide (name ∈ Analysis.known_names st)
    then
      let! inductor := Analysis.read_tensor (path_join "inductor" name) in
      let! float64 := Analysis.read_tensor (path_join "float64" name) in
      let '(ok, msgs) := same (allclose oracle) r inductor float64 in
      let! _ := write_lines
                  (map (fun msg => "DIVERGED at " ++ name ++ ": " ++ msg) msgs) in
      let logged := negb (bool_decide (msgs = [])) in
      let! _ := if negb ok then assert logged else ret tt in
      Analysis.pbar_update 1
    else ret tt in
  ret r.

(** The passes of [repro_analyze] once the graph is loaded and compiled.
    The [assert not new_args] checks after each run concern the calling
    convention of the callee and are left out. *)
Definition analyze_passes (gm : fx.GraphModule) : M Analysis.t unit :=
  let! _ := run_hooked save_hook (compiled_run oracle 0) in
  let! _ :=
    if negb (options.skip_check_deterministic options)
    then run_hooked check_hook (compiled_run oracle 1)
    else ret tt in
  let! _ :=
    if negb (options.skip_saving_float64_intermediates options)
    then boxed_run (WriterInterp_run_node "float64") (fx.nodes gm)
    else ret tt in
  let! _ :=
    if negb (options.skip_check_deterministic options)
    then boxed_run ExactReaderInterp_run_node (fx.nodes gm)
    else ret tt in
  boxed_run ReaderInterp_run_node (fx.nodes gm).

Variable os : OS.
Variable backend : Backend.

Definition repro_analyze (repro_mod : ReproModule) (load_args : LoadArgs)
    : M World unit :=
  let! (gm, args) := repro_common os backend options repro_mod load_args in
  let! compiled := compile_fx_inner backend gm args in
  fun w =>
    let '(r, st) := analyze_passes gm
                      (Analysis.mk ∅ (stored_tensors oracle) [] 0) in
    (r, mkWorld (cfg w) (effects w ++ map Printed (Analysis.written st))).

End Analyze.

(* ===================================================================== *)
(** * Vocabulary of the statements and concrete instances                  *)
(* ===================================================================== *)

(** The state of the reader after the progress tick of [storage]. *)
Definition ticked (self : InputReader.t) : InputReader.t :=
  match InputReader.pbar self with
  | Some _ =>
      InputReader.mk (InputReader.store self) (InputReader.args self)
        (option_map (Z.add 1) (InputReader.pbar self))
        (InputReader.log self) (InputReader.allocated self)
  | None => self
  end.

Definition content_available (self : InputReader.t) (storage_hash : option string)
    : option torch.UntypedStorage :=
  match InputReader.store self, storage_hash with
  | Some st, Some h => st !! h
  | _, _ => None
  end.

(** The storage synthesized when the content cannot be fetched. *)
Definition synthesized (randn : Z -> list Z) (fresh : nat) (nbytes : Z)
    (device : option torch.device) (dtype_hint : option torch.dtype)
    : torch.UntypedStorage :=
  let d := _dtype_or_default dtype_hint in
  let n := (nbytes `div` torch.itemsize d) * torch.itemsize d in
  torch.Storage fresh (_device_or_default device) n (randn n).

(** The device a storage line records: the device of the storage, or the
    hint when the storage is on the meta device. *)
Definition recorded_device (s : torch.UntypedStorage)
    (device_hint : option torch.device) : torch.device :=
  if decide (torch.type (torch.s_device s) = "meta")
  then default (torch.s_device s) device_hint
  else torch.s_device s.

(** The hash a storage line records. *)
Definition recorded_hash (self : InputWriter.t) (s : torch.UntypedStorage)
    : option string :=
  match InputWriter.store self with
  | Some st =>
      if decide (torch.type (torch.s_device s) ≠ "meta")
      then Some (ContentStoreWriter.hash_storage st (torch.s_data s))
      else None
  | None => None
  end.

Definition store_after (self : InputWriter.t) (s : torch.UntypedStorage)
    : option ContentStoreWriter.t :=
  match InputWriter.store self with
  | Some st =>
      if decide (torch.type (torch.s_device s) ≠ "meta")
      then Some (snd (ContentStoreWriter.write_storage st s))
      else Some st
  | None => None
  end.

(** The line [InputWriter.storage] emits for a storage it has not seen. *)
Definition storage_line (self : InputWriter.t) (s : torch.UntypedStorage)
    (dtype_hint : option torch.dtype) (device_hint : option torch.device) : Instr :=
  IStorage ("buf" ++ pretty (InputWriter.storage_counter self))
    (recorded_hash self s) (torch.s_nbytes s)
    (if decide (torch.cpu ≠ recorded_device s device_hint)
     then Some (recorded_device s device_hint) else None)
    (if decide (torch.float32 ≠ _dtype_or_default dtype_hint)
     then dtype_hint else None).

(** The line [InputWriter.tensor] emits for a tensor whose storage goes by
    the name [v]. *)
Definition tensor_line (v name : string) (t : torch.Tensor) : Instr :=
  ITensor v (torch.shape t)
    (if decide (make_contiguous_strides_for (torch.shape t) ≠ torch.stride t)
     then Some (torch.stride t) else None)
    (if decide (0 ≠ torch.storage_offset t)
     then Some (torch.storage_offset t) else None)
    (if decide (torch.float32 ≠ torch.t_dtype t)
     then Some (torch.t_dtype t) else None)
    (torch.t_metadata t) name.

(** What [InputWriter.tensor] does to the writer, in both cases. *)
Definition after_tensor (name : string) (t : torch.Tensor) (self : InputWriter.t)
    : InputWriter.t :=
  let s := torch.untyped_storage t in
  match InputWriter.seen_storages self !! torch.sid s with
  | Some v =>
      InputWriter.mk (InputWriter._lines self ++ [tensor_line v name t])
        (InputWriter.storage_counter self) (InputWriter.store self)
        (InputWriter.seen_storages self)
  | None =>
      let v := "buf" ++ pretty (InputWriter.storage_counter self) in
      InputWriter.mk
        (InputWriter._lines self
           ++ [storage_line self s (Some (torch.t_dtype t)) (Some (torch.t_device t));
               tensor_line v name t])
        (S (InputWriter.storage_counter self))
        (store_after self s)
        (<[torch.sid s := v]> (InputWriter.seen_storages self))
  end.

Definition after_symint (name : string) (val : PyInt) (self : InputWriter.t)
    : InputWriter.t :=
  InputWriter.mk
    (InputWriter._lines self
       ++ [ISymint (match val with SymInt hint => hint | Int v => v end) name])
    (InputWriter.storage_counter self) (InputWriter.store self)
    (InputWriter.seen_storages self).

(** An argument the writer supports: an int, a SymInt or a tensor. *)
Definition supported (arg : Arg) : Prop :=
  match arg with
  | ArgOther _ => False
  | _ => True
  end.

Global Instance supported_dec arg : Decision (supported arg).
Proof. destruct arg; simpl; apply _. Defined.

(** The writer after the loop of [generate_compiler_repro_string]. *)
Fixpoint after_args (targets : list string) (args : list Arg)
    (self : InputWriter.t) : InputWriter.t :=
  match targets, args with
  | placeholder :: targets', arg :: args' =>
      after_args targets' args'
        match arg with
        | ArgInt i => after_symint placeholder i self
        | ArgTensor t => after_tensor placeholder t self
        | ArgOther _ => self
        end
  | _, _ => self
  end.

(** The script [save_graph_repro] writes for supported arguments. *)
Definition repro_file (os : OS) (gm : fx.GraphModule) (args : list Arg)
    (compiler_name : string) (save_dir : option string) (command : string)
    (c : config.t) : ReproFile :=
  mkReproFile (contains "inductor" compiler_name) (fx.source gm)
    (InputWriter._lines
       (after_args (fx.fx_placeholder_targets gm) args
          (InputWriter.__init__ (option_map (content_store os) save_dir))))
    (contains "_accuracy" compiler_name) command save_dir
    (if config.dynamic_shapes c then "symbolic" else "real").

(** What writing that script puts into the content store under
    [save_dir]. *)
Definition session_stored (os : OS) (gm : fx.GraphModule) (args : list Arg)
    (save_dir : option string) : list effect :=
  let writer := InputWriter.__init__ (option_map (content_store os) save_dir) in
  stored_by save_dir writer (after_args (fx.fx_placeholder_targets gm) args writer).

(** The directory is there or can be made. *)
Definition subdir_available (os : OS) (subdir : string) : Prop :=
  path_exists os subdir = true \/ makedirs_raises os subdir = None.

Definition made_dirs (os : OS) (subdir : string) : list effect :=
  if path_exists os subdir then [] else [MadeDirs subdir].

Definition isolate_subdir (os : OS) : string := path_join (getcwd os) "isolate".

Definition isolate_file_name (os : OS) : string :=
  path_join (isolate_subdir os) (substring 0 5 (uuid4 os) ++ ".py").

Definition isolate_cmd (os : OS) : list string :=
  if use_buck os then buck_cmd os (isolate_file_name os)
  else ["python"; isolate_file_name os].

(** The subprocess [isolate_fails] waits for. *)
Definition isolate_process (os : OS) (env : option (gmap string string)) : Completed :=
  popen os (isolate_cmd os) (isolate_subdir os) (default ∅ env ∪ environ os).

(** The bytes decode as UTF-8. *)
Definition decodes (b : string) : Prop := utf8_error 0 b = None.

Global Instance decodes_dec b : Decision (decodes b).
Proof. unfold decodes. apply _. Defined.

(** Decoding the bytes raises this [UnicodeDecodeError]. *)
Definition decode_error (b : string) : option exn :=
  match utf8_error 0 b with
  | None => None
  | Some (start, stop, reason) => Some (UnicodeDecodeError "utf-8" b start stop reason)
  end.

Definition is_Printed (e : effect) : Datatypes.bool :=
  match e with
  | Printed _ => true
  | _ => false
  end.



Definition example_graph : fx.GraphModule :=
  fx.mkGraphModule ["x"; "n"]
    [fx.mkNode "x" "placeholder"; fx.mkNode "n" "placeholder";
     fx.mkNode "add" "call_function"; fx.mkNode "output" "output"]
    "class Repro(torch.nn.Module): ...".

Definition example_os (code : Z) : OS :=
  mkOS "/tmp/minifier" "/work" (fun _ => true) (fun _ => None) (fun _ => None)
    (fun _ _ => None) false (fun _ => None) (fun _ => [])
    (fun _ => None) (fun _ => ContentStoreWriter.mk (fun _ => "h") ∅)
    (fun _ => ∅) ∅ "0123456789abcdef"
    (fun _ _ _ => mkCompleted code "out" "err").

Definition example_callable (r : result PyObj) : Callable :=
  fun _ w => (r, w).

Definition example_backend (compiled : result PyObj) (accuracy_fails : Datatypes.bool)
    : Backend :=
  mkBackend "graph_0" (fun t => t) (ret tt)
    (fun _ _ _ => ret accuracy_fails)
    (fun _ _ => ret (ObjSeq []))
    (fun _ _ => ret (example_callable compiled))
    (fun _ _ _ => ret example_graph)
    (fun _ => []) 4.

Definition example_options (accuracy : Datatypes.bool) : options.t :=
  options.mk None accuracy None true false false false false.

Definition example_storage : torch.UntypedStorage :=
  torch.Storage 7 torch.cpu 24 [].

Definition example_tensor : torch.Tensor :=
  torch.mkTensor example_storage [2; 3] [3; 1] 0 torch.float32 torch.cpu [].

Definition example_load_args : LoadArgs :=
  mkLoadArgs [IStorage "buf0" None 24 None None;
              ITensor "buf0" [2; 3] None None None [] "x"]
             (Some 0).

Definition world0 (after : option string) (level : Z) : World :=
  mkWorld (config.mk after level false) [].

(** The checkpoint an exception handler of the wrapper writes before it
    re-raises: the graph state at level 1, the minifier launcher at level 2,
    nothing at any other level. *)
Definition checkpoint_on_failure (os : OS) (compiler_name : string) (level : Z)
    (gm : fx.GraphModule) (inputs : list Arg) : M World unit :=
  if decide (level = 1) then dump_compiler_graph_state os gm inputs compiler_name
  else if decide (level = 2) then dump_to_minify os gm inputs compiler_name
  else ret tt.

(** The checkpoint [inner_debug_fn] writes before it invokes anything: the
    minifier launcher at level 3. *)
Definition checkpoint_always (os : OS) (compiler_name : string) (level : Z)
    (gm : fx.GraphModule) (inputs : list Arg) : M World unit :=
  if decide (level = 3) then dump_to_minify os gm inputs compiler_name
  else ret tt.

(** [copy_tensor_attrs] of [inner_debug_fn]. *)
Definition copy_tensor_attrs (backend : Backend) (real_inputs : list Arg) : list Arg :=
  map (fun x => match x with
                | ArgTensor t => ArgTensor (from_tensor backend t)
                | _ => x
                end) real_inputs.

Definition repro_after_allowed (c : config.t) : Prop :=
  config.repro_after c ∈ [Some "dynamo"; Some "aot"; None].

Definition with_effect (w : World) (e : effect) : World :=
  mkWorld (cfg w) (effects w ++ [e]).

(** The world inside and after [config.patch(repro_after=None)]. *)
Definition patched (w : World) : World :=
  mkWorld (config.mk None (config.repro_level (cfg w)) (config.dynamic_shapes (cfg w)))
          (effects w).

Definition restored (old : option string) (w : World) : World :=
  mkWorld (config.mk old (config.repro_level (cfg w)) (config.dynamic_shapes (cfg w)))
          (effects w).

Definition example_compiler (compiled : result PyObj) : CompilerFn :=
  fun _ _ => ret (example_callable compiled).

Definition example_inputs : list Arg := [ArgTensor example_tensor; ArgInt (Int 5)].

(** A file system on which the checkpoint file cannot be written. *)
Definition disk_full_os : OS :=
  mkOS "/tmp/minifier" "/work" (fun _ => true) (fun _ => None)
    (fun _ => Some (OSError "No space left on device"))
    (fun _ _ => None) false (fun _ => None) (fun _ => [])
    (fun _ => None) (fun _ => ContentStoreWriter.mk (fun _ => "h") ∅)
    (fun _ => ∅) ∅ "0123456789abcdef"
    (fun _ _ _ => mkCompleted 0 "" "").

(** A file system on which only the convenience copy fails. *)
Definition read_only_cwd_os : OS :=
  mkOS "/tmp/minifier" "/work" (fun _ => true) (fun _ => None) (fun _ => None)
    (fun _ _ => Some (OSError "Permission denied")) false (fun _ => None)
    (fun _ => []) (fun _ => None) (fun _ => ContentStoreWriter.mk (fun _ => "h") ∅)
    (fun _ => ∅) ∅ "0123456789abcdef"
    (fun _ _ _ => mkCompleted 0 "" "").

Definition failing_compiler : CompilerFn :=
  fun _ _ => raise (RuntimeError "boom").

(** The reason [compare_tuples] gives for two metadata tuples that differ. *)
Definition metadata_reason (meta meta2 : list MetaField) : string :=
  join " and "
    (map (fun ab => str_meta (fst ab) ++ " != " ++ str_meta (snd ab))
       (filter (fun ab => fst ab ≠ snd ab) (zip meta meta2))).

(** The line the determinism check writes for an intermediate, if any:
    none when the structural metadata agree with the stored first run. *)
Definition nondeterminism_lines (tensors : gmap string torch.Tensor)
    (nv : string * torch.Tensor) : list string :=
  match tensors !! path_join "inductor" (fst nv) with
  | Some first =>
      if decide (compute_tensor_metadata (snd nv) = compute_tensor_metadata first)
      then []
      else ["NONDETERMINISTIC INDUCTOR at " ++ fst nv ++ " ("
              ++ metadata_reason (compute_tensor_metadata (snd nv))
                                 (compute_tensor_metadata first) ++ ")"]
  | None => []
  end.

(** The store and [known_names] after the first, saving run. *)
Definition saved_inductor (intermediates : list (string * torch.Tensor))
    (tensors : gmap string torch.Tensor) : gmap string torch.Tensor :=
  foldl (fun m nv => <[path_join "inductor" (fst nv) := snd nv]> m) tensors intermediates.

Definition names_after (intermediates : list (string * torch.Tensor))
    (known : gset string) : gset string :=
  foldl (fun k nv => {[fst nv]} ∪ k) known intermediates.

Definition tensor_of_shape (sh : list Z) (data : list Z) : torch.Tensor :=
  torch.mkTensor (torch.Storage 0 torch.cpu 24 data) sh
    (make_contiguous_strides_for sh) 0 torch.float32 torch.cpu [].

Definition analysis0 : Analysis.t := Analysis.mk ∅ ∅ [] 0.

(** The nodes the interpreter visits: all of them up to and including the
    output node. *)
Fixpoint upto_output (nodes : list fx.Node) : list fx.Node :=
  match nodes with
  | [] => []
  | n :: rest => n :: if decide (fx.op n = "output") then [] else upto_output rest
  end.

(** The original value of a node disagrees with the stored compiled value or
    with the stored float64 value. *)
Definition diverges (oracle : AnalyzeOracle) (known : gset string)
    (tensors : gmap string torch.Tensor) (n : fx.Node) : Datatypes.bool :=
  bool_decide (fx.name n ∈ known)
  && match tensors !! path_join "inductor" (fx.name n),
           tensors !! path_join "float64" (fx.name n) with
     | Some inductor, Some float64 =>
         negb (allclose oracle (eager_node oracle n) inductor
               && allclose oracle (eager_node oracle n) float64)
     | _, _ => false
     end.

(** The lines the divergence pass writes at a node. *)
Definition divergence_lines (oracle : AnalyzeOracle) (known : gset string)
    (tensors : gmap string torch.Tensor) (n : fx.Node) : list string :=
  if decide (fx.name n ∈ known) then
    match tensors !! path_join "inductor" (fx.name n),
          tensors !! path_join "float64" (fx.name n) with
    | Some inductor, Some float64 =>
        map (fun msg => "DIVERGED at " ++ fx.name n ++ ": " ++ msg)
          (snd (same (allclose oracle) (eager_node oracle n) inductor float64))
    | _, _ => []
    end
  else [].

(** Both traces of a node that is compared are in the store. *)
Definition traced (known : gset string) (tensors : gmap string torch.Tensor)
    (n : fx.Node) : Prop :=
  fx.name n ∈ known ->
  is_Some (tensors !! path_join "inductor" (fx.name n))
  /\ is_Some (tensors !! path_join "float64" (fx.name n)).

(** A chain A -> B -> C -> output in which only the compiled value of C
    departs from the original one. *)
Definition chain_nodes : list fx.Node :=
  [fx.mkNode "A" "call_function"; fx.mkNode "B" "call_function";
   fx.mkNode "C" "call_function"; fx.mkNode "output" "output"].

Definition chain_value (name : string) : torch.Tensor :=
  tensor_of_shape [2; 3]
    (if decide (name = "A") then [1] else if decide (name = "B") then [2] else [3]).

Definition chain_oracle : AnalyzeOracle :=
  mkAnalyzeOracle
    (fun _ => [("A", chain_value "A"); ("B", chain_value "B");
               ("C", tensor_of_shape [2; 3] [99])])
    (fun _ n => chain_value (fx.name n))
    (fun n => chain_value (fx.name n))
    ∅
    (fun a b => bool_decide (a = b)).

Definition chain_state : Analysis.t :=
  Analysis.mk {["A"; "B"; "C"]}
    (list_to_map
       [("inductor/A", chain_value "A"); ("inductor/B", chain_value "B");
        ("inductor/C", tensor_of_shape [2; 3] [99]);
        ("float64/A", chain_value "A"); ("float64/B", chain_value "B");
        ("float64/C", chain_value "C")])
    [] 0.

(** What the reader makes of a tensor line once the storage is at hand. *)
Definition rebuilt (t : torch.Tensor) (s : torch.UntypedStorage) : torch.Tensor :=
  torch.mkTensor s (torch.shape t) (torch.stride t) (torch.storage_offset t)
    (torch.t_dtype t) (torch.s_device s) (torch.t_metadata t).

(** What the store of the reader holds under a recorded hash. *)
Definition stored_content (rstore : option ContentStoreReader.t)
    (storage_hash : option string) : option torch.UntypedStorage :=
  match rstore, storage_hash with
  | Some st, Some h => st !! h
  | _, _ => None
  end.

(** The hash a storage line carries, given the hash function of the
    writer's store (if there is a store). *)
Definition line_hash (hf : option (list Z -> string)) (s : torch.UntypedStorage)
    : option string :=
  if decide (torch.type (torch.s_device s) ≠ "meta")
  then option_map (fun f => f (torch.s_data s)) hf
  else None.

Definition hash_fn (w : InputWriter.t) : option (list Z -> string) :=
  option_map ContentStoreWriter.hash_storage (InputWriter.store w).

(** The storage the reader binds for the storage line written for the
    storage of [t0]: the stored one when the store holds the recorded hash,
    otherwise a synthesized one on the recorded device. *)
Definition reconstructed (rstore : option ContentStoreReader.t)
    (hf : option (list Z -> string)) (t0 : torch.Tensor) (s : torch.UntypedStorage)
    : Prop :=
  match stored_content rstore (line_hash hf (torch.untyped_storage t0)) with
  | Some stored => s = stored
  | None =>
      torch.s_device s
        = recorded_device (torch.untyped_storage t0) (Some (torch.t_device t0))
      /\ torch.s_nbytes s
         = torch.s_nbytes (torch.untyped_storage t0) `div` torch.itemsize (torch.t_dtype t0)
             * torch.itemsize (torch.t_dtype t0)
  end.

Definition bufname (k : nat) : string := "buf" ++ pretty k.

(** The names the storage lines of a script assign, in order. *)
Definition storage_names (ls : list Instr) : list string :=
  omap (fun i => match i with IStorage v _ _ _ _ => Some v | _ => None end) ls.

Definition hint_of (i : PyInt) : Z :=
  match i with
  | SymInt hint => hint
  | Int v => v
  end.

(** How a written argument and the value the reader hands back for it are
    related, given the names of the storages and the variables bound so
    far. *)
Definition arg_rel (seen : gmap nat string) (env : gmap string torch.UntypedStorage)
    (arg rarg : Arg) : Prop :=
  match arg with
  | ArgInt i => rarg = ArgInt (Int (hint_of i))
  | ArgTensor t =>
      exists v s,
        seen !! torch.sid (torch.untyped_storage t) = Some v
        /\ env !! v = Some s
        /\ rarg = ArgTensor (rebuilt t s)
  | ArgOther _ => False
  end.

(** The lines of a script that hand back an argument, in order. *)
Definition arg_lines (ls : list Instr) : list Instr :=
  omap (fun i => if is_storage_instr i then None else Some i) ls.

(** How a written argument and the line written for it are related. *)
Definition line_rel (seen : gmap nat string) (arg : Arg) (line : Instr) : Prop :=
  match arg with
  | ArgInt i => exists name, line = ISymint (hint_of i) name
  | ArgTensor t =>
      exists v name,
        seen !! torch.sid (torch.untyped_storage t) = Some v
        /\ line = tensor_line v name t
  | ArgOther _ => False
  end.

(** The invariant that ties a writer, after the arguments [done], to the
    reader that has replayed the lines written so far. *)
Record session_inv (rstore : option ContentStoreReader.t)
    (hf : option (list Z -> string)) (done : list Arg) (w : InputWriter.t)
    (env : gmap string torch.UntypedStorage) (r : InputReader.t) : Prop :=
  mk_session_inv {
    inv_hash : hash_fn w = hf;
    inv_rstore : InputReader.store r = rstore;
    inv_names : forall sid v,
      InputWriter.seen_storages w !! sid = Some v ->
      exists k, (k < InputWriter.storage_counter w)%nat /\ v = bufname k;
    inv_inj : forall s1 s2 v,
      InputWriter.seen_storages w !! s1 = Some v ->
      InputWriter.seen_storages w !! s2 = Some v -> s1 = s2;
    inv_env : forall sid v,
      InputWriter.seen_storages w !! sid = Some v ->
      exists s t0,
        env !! v = Some s /\ ArgTensor t0 ∈ done
        /\ torch.sid (torch.untyped_storage t0) = sid
        /\ reconstructed rstore hf t0 s;
    inv_lines :
      storage_names (InputWriter._lines w)
      = bufname <$> seq 0 (InputWriter.storage_counter w);
    inv_args : Forall2 (arg_rel (InputWriter.seen_storages w) env) done
                 (InputReader.args r);
    inv_arg_lines : Forall2 (line_rel (InputWriter.seen_storages w)) done
                      (arg_lines (InputWriter._lines w))
  }.

(** The writer after one argument. *)
Definition after_arg (placeholder : string) (arg : Arg) (w : InputWriter.t)
    : InputWriter.t :=
  match arg with
  | ArgInt i => after_symint placeholder i w
  | ArgTensor t => after_tensor placeholder t w
  | ArgOther _ => w
  end.

Definition view_a : torch.Tensor :=
  torch.mkTensor example_storage [2; 3] [3; 1] 0 torch.float32 torch.cpu [].

Definition view_b : torch.Tensor :=
  torch.mkTensor example_storage [3] [1] 3 torch.float32 torch.cpu [].







Definition on_cpu : torch.Tensor :=
  torch.mkTensor (torch.Storage 2 torch.cpu 4 [1; 2; 3; 4]) [1] [1] 0
    torch.float32 torch.cpu [].



(** ** Vocabulary of the further properties *)

(** The identities of the storages behind the tensors of an argument list. *)
Definition sids_of (args : list Arg) : gset nat :=
  list_to_set
    (omap (fun a => match a with
                    | ArgTensor t => Some (torch.sid (torch.untyped_storage t))
                    | _ => None
                    end) args).

(** A tensor argument, and one that is on a CUDA device. *)
Definition is_tensor_arg (arg : Arg) : Prop :=
  match arg with
  | ArgTensor _ => True
  | _ => False
  end.

Definition is_cuda_arg (arg : Arg) : Datatypes.bool :=
  match arg with
  | ArgTensor t => is_cuda t
  | _ => false
  end.

(** [sync()] of [inductor_fails]. *)
Definition inductor_sync (backend : Backend) (args : list Arg) : M World unit :=
  if existsb is_cuda_arg args then cuda_synchronize backend else ret tt.

(** The result of the eager run passes the two assertions of
    [inductor_fails]: a tuple or list none of whose elements is one. *)
Definition flat_result (result : PyObj) : Datatypes.bool :=
  match result with
  | ObjSeq l => negb (existsb is_seq_item l)
  | ObjItem _ => false
  end.

(** The exception counts as the failure looked for. *)
Definition matches_check_str (check_str : option string) (e : exn) : Datatypes.bool :=
  match check_str with
  | Some c => contains c (repr_exn e)
  | None => true
  end.

(** The outcome of the handler of [inductor_fails]. *)
Definition reported (check_str : option string) (e : exn) (w : World)
    : result Datatypes.bool * World :=
  if matches_check_str check_str e
  then (Ok true, mkWorld (cfg w) (effects w ++ [Printed (repr_exn e)]))
  else (Ok false, w).

(** [w'] is [w] with the same configuration and further effects after the
    ones it had. *)
Definition extends (w w' : World) : Prop :=
  cfg w' = cfg w /\ effects w `prefix_of` effects w'.

(** A computation that leaves the configuration alone and only adds
    effects, whether it returns or raises. *)
Definition only_appends {A} (m : M World A) : Prop :=
  forall w, extends w (snd (m w)).

(** The body of the [try] of [inner_debug_fn]: the invocation, then the
    synchronization when an example input is on a CUDA device. *)
Definition invoke_and_sync (backend : Backend) (example_inputs : list Arg)
    (inner : Callable) (real_inputs : list Arg) : M World PyObj :=
  let! out := inner real_inputs in
  let! _ := if existsb is_cuda_arg example_inputs
            then cuda_synchronize backend
            else ret tt in
  ret out.

(** What leaves [inner_debug_fn] when its handler has caught [e]: [e]
    again once the checkpoint is written, the exception of the checkpoint
    otherwise. *)
Definition reraised_after {A} (e : exn) (dump : result unit * World)
    : result A * World :=
  match dump with
  | (Ok _, w) => (Raise e, w)
  | (Raise e', w) => (Raise e', w)
  end.

(** An argument the writer describes without content: an int, or a tensor
    whose storage is on the meta device. *)
Definition without_content (arg : Arg) : Prop :=
  match arg with
  | ArgInt _ => True
  | ArgTensor t => torch.type (torch.s_device (torch.untyped_storage t)) = "meta"
  | ArgOther _ => False
  end.

(** A line that names no content of the store. *)
Definition names_no_content (i : Instr) : Prop :=
  match i with
  | IStorage _ storage_hash _ _ _ => storage_hash = None
  | _ => True
  end.

(** A CUDA tensor on a storage of its own. *)
Definition cuda_tensor : torch.Tensor :=
  torch.mkTensor (torch.Storage 9 (torch.cuda 0) 24 []) [2; 3] [3; 1] 0
    torch.float32 (torch.cuda 0) [].

(** A fake tensor: the device of the tensor is real, its storage is on the
    meta device. *)
Definition fake_tensor : torch.Tensor :=
  torch.mkTensor (torch.Storage 11 torch.meta 24 []) [2; 3] [3; 1] 0
    torch.float32 (torch.cuda 0) [].

(** A backend whose synchronization surfaces a fault. *)
Definition faulting_backend : Backend :=
  mkBackend "graph_0" (fun t => t) (raise (RuntimeError "illegal memory access"))
    (fun _ _ _ => ret false)
    (fun _ _ => ret (ObjSeq []))
    (fun _ _ => ret (example_callable (Ok (ObjSeq []))))
    (fun _ _ _ => ret example_graph)
    (fun _ => []) 4.

(** Every tensor line of the script names a buffer that a storage line
    before it (or [defined]) has assigned. *)
Fixpoint well_scoped (defined : gset string) (script : list Instr) : Datatypes.bool :=
  match script with
  | [] => true
  | IStorage v _ _ _ _ :: rest => well_scoped ({[v]} ∪ defined) rest
  | ITensor b _ _ _ _ _ _ :: rest => bool_decide (b ∈ defined) && well_scoped defined rest
  | ISymint _ _ :: rest => well_scoped defined rest
  end.


(** A tensor argument that is not on a CUDA device. *)
Definition is_host_tensor_arg (arg : Arg) : Prop :=
  match arg with
  | ArgTensor t => is_cuda t = false
  | _ => False
  end.

(** The warnings [repro_common] logs for the buffers of the module. *)
Definition large_buffer_warnings (backend : Backend) (buffers : list (string * Z))
    : list effect :=
  map (fun nb =>
         Logged (LogRecord WARNING
                   "Constant %s was not serialized, generated random data instead. If you think this is affecting you, please comment on https://github.com/pytorch/pytorch/issues/100468"
                   [fst nb]))
      (filter (fun nb => MAX_CONSTANT_NUMEL_INLINE backend < snd nb) buffers).

(** ** [repro_run] *)

Section Run.

Variable os : OS.
Variable backend : Backend.

(** [same_two_models(mod, compiled, args, only_fwd=True)] of
    [torch._dynamo.debug_utils]. *)
Variable same_two_models :
  fx.GraphModule -> Callable -> list Arg -> M World Datatypes.bool.

Definition repro_run (options : options.t) (repro_mod : ReproModule)
    (load_args : LoadArgs) : M World unit :=
  let! (gm, args) := repro_common os backend options repro_mod load_args in
  let! compiled := compile_fx_inner backend gm args in
  if options.accuracy options then
    let! ok := same_two_models gm compiled args in
    if negb ok then raise (AccuracyError "Bad accuracy detected") else ret tt
  else
    let need_sync :=
      existsb (fun arg => match arg with
                          | ArgTensor t => is_cuda t
                          | _ => false
                          end) args in
    let! ref := compiled args in
    if need_sync then cuda_synchronize backend else ret tt.

End Run.

(** An outcome that is a return or an [Exception], not one of the
    exceptions that pass through [except Exception]. *)
Definition ordinary {A} (r : result A) : Prop :=
  match r with
  | Ok _ => True
  | Raise e => is_Exception e = true
  end.

(** A call that gives the same outcome whenever it is made and leaves no
    trace in the process. *)
Definition stateless {A} (m : M World A) (r : result A) : Prop :=
  forall w, m w = (r, w).

(* ===================================================================== *)
(** * Sample inputs for sparse reductions                                 *)
(* ===================================================================== *)

(** [torch/testing/_internal/opinfo/definitions/sparse.py]: the validators
    that sort samples into those an operation supports and those it is
    expected to reject, and the generators built on them. *)
Module sparse.

Inductive layout :=
| strided | sparse_coo | sparse_csr | sparse_csc | sparse_bsr | sparse_bsc.

Global Instance layout_eq_dec : EqDecision layout.
Proof. solve_decision. Defined.

(** [layout in {torch.sparse_csr, torch.sparse_csc, torch.sparse_bsr,
    torch.sparse_bsc}] *)
Definition is_compressed (l : layout) : Datatypes.bool :=
  match l with
  | sparse_csr | sparse_csc | sparse_bsr | sparse_bsc => true
  | _ => false
  end.

(** [layout in {torch.sparse_bsr, torch.sparse_bsc}] *)
Definition is_block (l : layout) : Datatypes.bool :=
  match l with
  | sparse_bsr | sparse_bsc => true
  | _ => false
  end.

(** What the validators read of a tensor: [layout], [ndim] (also [dim()]),
    [dense_dim()], [sparse_dim()], [_nnz()] and [(t == 0).any()]. *)
Record Tensor := mkTensor {
  t_layout : layout;
  ndim : Z;
  dense_dim : Z;
  sparse_dim : Z;
  _nnz : Z;
  any_zero : Datatypes.bool
}.

Global Instance Tensor_eq_dec : EqDecision Tensor.
Proof. solve_decision. Defined.

(** The values of the arguments the validators look at. *)
Inductive Value :=
| VNone
| VBool (b : Datatypes.bool)
| VInt (z : Z)
| VTuple (l : list Z)
| VList (l : list Z).

Global Instance Value_eq_dec : EqDecision Value.
Proof. solve_decision. Defined.

(** The entry [mask] of the keyword arguments: absent, [None] or a
    tensor. *)
Inductive MaskArg :=
| Unspecified
| MaskNone
| Mask (m : Tensor).

Global Instance MaskArg_eq_dec : EqDecision MaskArg.
Proof. solve_decision. Defined.

(** [SampleInput]: [kwargs] holds the keyword arguments other than
    [mask]. *)
Record SampleInput := mkSampleInput {
  input : Tensor;
  args : list Value;
  kwargs : gmap string Value;
  mask : MaskArg
}.

Global Instance SampleInput_eq_dec : EqDecision SampleInput.
Proof. solve_decision. Defined.

(** An exception class below [Exception]: its name and the names of the
    classes it derives from, nearest first, up to [Exception] (which is
    not listed). *)
Record ExnType := mkExnType {
  cls_name : string;
  cls_bases : list string
}.

Global Instance ExnType_eq_dec : EqDecision ExnType.
Proof. solve_decision. Defined.

(** The classes the file names. *)
Definition TRuntimeError : ExnType := mkExnType "RuntimeError" [].
Definition TNotImplementedError : ExnType :=
  mkExnType "NotImplementedError" ["RuntimeError"].
Definition TValueError : ExnType := mkExnType "ValueError" [].
Definition TTypeError : ExnType := mkExnType "TypeError" [].
Definition TAssertionError : ExnType := mkExnType "AssertionError" [].

(** The method resolution order of a class, as far as [Exception]. *)
Definition mro (a : ExnType) : list string := cls_name a :: cls_bases a.

(** [issubclass(a, b)], the test behind [except b]: [b] is [a] or one of
    the classes [a] derives from. *)
Definition issubclass (a b : ExnType) : Datatypes.bool :=
  bool_decide (cls_name b ∈ mro a).

(** [ErrorInput(sample_input, error_type=..., error_regex=...)];
    [error_type] is a class or a tuple of classes. *)
Record ErrorInput := mkErrorInput {
  sample_input : SampleInput;
  error_type : list ExnType;
  error_regex : string
}.

Global Instance ErrorInput_eq_dec : EqDecision ErrorInput.
Proof. solve_decision. Defined.

(** [error_type] when [ErrorInput] is not given one. *)
Definition default_error_type : list ExnType := [TRuntimeError].

(** What a validator returns: the sample, or the sample as [ErrorInput]. *)
Inductive Sample :=
| Valid (s : SampleInput)
| Invalid (e : ErrorInput).

Global Instance Sample_eq_dec : EqDecision Sample.
Proof. solve_decision. Defined.

(** [op_info]: its name, whether it is a [ReductionOpInfo], and what
    calling it on a sample does: [None] when the call returns, the class of
    the exception when it raises. *)
Record OpInfo := mkOpInfo {
  name : string;
  is_reduction : Datatypes.bool;
  call : SampleInput -> option ExnType
}.

(** Truth value of an argument. *)
Definition truthy (v : Value) : Datatypes.bool :=
  match v with
  | VNone => false
  | VBool b => b
  | VInt z => negb (z =? 0)%Z
  | VTuple l | VList l => negb (bool_decide (l = []))
  end.

(** [isinstance(v, int)]; [bool] is a subclass of [int]. *)
Definition is_int (v : Value) : Datatypes.bool :=
  match v with
  | VInt _ | VBool _ => true
  | _ => false
  end.

(** [isinstance(v, (list, tuple))] *)
Definition is_list_or_tuple (v : Value) : Datatypes.bool :=
  match v with
  | VTuple _ | VList _ => true
  | _ => false
  end.

(** [len(v)] of a list or tuple. *)
Definition len (v : Value) : Z :=
  match v with
  | VTuple l | VList l => Z.of_nat (length l)
  | _ => 0
  end.

(** [sample.kwargs.get(key)] for a key other than [mask]. *)
Definition kwargs_get (sample : SampleInput) (key : string) : Value :=
  default VNone (kwargs sample !! key).

(** Truth value of [sample.kwargs]: the dictionary is not empty. *)
Definition has_kwargs (sample : SampleInput) : Datatypes.bool :=
  negb (bool_decide (kwargs sample = ∅))
  || negb (bool_decide (mask sample = Unspecified)).

Definition _check_fail (op_info : OpInfo) (sample : ErrorInput) : result unit :=
  match call op_info (sample_input sample) with
  | Some raised =>
      if existsb (issubclass raised) (error_type sample)
      then Ok tt
      else Raise AssertionError
  | None => Raise AssertionError
  end.

Definition _check_success (op_info : OpInfo) (sample : SampleInput) : result unit :=
  match call op_info sample with
  | Some _ => Raise AssertionError
  | None => Ok tt
  end.

Definition _check_validate (op_info : OpInfo) (sample : Sample) : result unit :=
  match sample with
  | Invalid e => _check_fail op_info e
  | Valid s => _check_success op_info s
  end.

Definition _validate_sample_input_sparse_reduction_sum (sample : SampleInput)
    : Sample :=
  let t_inp := input sample in
  let dim := kwargs_get sample "dim" in
  let keepdim := kwargs_get sample "keepdim" in
  let layout := t_layout t_inp in
  if is_compressed layout then
    if (is_int dim && (negb (ndim t_inp =? 2)%Z || truthy keepdim))
       || (is_list_or_tuple dim
           && ((negb (ndim t_inp =? 2)%Z && negb (len dim =? ndim t_inp)%Z)
               || truthy keepdim))
    then
      if is_block layout
      then Invalid
             (mkErrorInput sample default_error_type
                "empty_sparse_compressed expected sparse compressed [(]non-block[)] tensor layout but got Sparse(Bsr|Bsc)")
      else Invalid
             (mkErrorInput sample [TNotImplementedError]
                "Could not run 'aten::sum.IntList_out' with arguments from the 'SparseCsr(CPU|CUDA)' backend")
    else if has_kwargs sample && negb (truthy keepdim)
    then Invalid
           (mkErrorInput sample default_error_type
              "torch.empty: Only batched sparse compressed [(]non-block[)] tensors are supported")
    else Valid sample
  else Valid sample.

(** The branch of [_validate_sample_input_sparse_reduction] for
    [masked.sum]. *)
Definition validate_masked_sum (sample : SampleInput) : Sample :=
  if match mask sample with
     | Mask m => (2 <? ndim m)%Z && bool_decide (t_layout m = strided) && any_zero m
     | _ => false
     end
  then Invalid (mkErrorInput sample default_error_type
                  "Expect the same number of specified elements per batch.")
  else if negb (truthy (kwargs_get sample "keepdim"))
  then Invalid (mkErrorInput sample [TAssertionError; TRuntimeError]
                  "reduction operations on (CSR|CSC) tensors with keepdim=False is unsupported")
  else if bool_decide (mask sample = Unspecified)
  then Invalid (mkErrorInput sample [TValueError]
                  "masked (.*) expects explicit mask for sparse_csr tensor input")
  else if (2 <? ndim (input sample))%Z
  then Invalid (mkErrorInput sample default_error_type
                  "crow_indices is supposed to be a vector, but got 3 dimensional tensor.")
  else Valid sample.

(** [v not in {0, 1}]; a list cannot be hashed, and [True] and [False]
    are equal to 1 and 0. *)
Definition not_in_0_1 (v : Value) : result Datatypes.bool :=
  match v with
  | VInt z => Ok (negb ((z =? 0)%Z || (z =? 1)%Z))
  | VBool _ => Ok false
  | VNone | VTuple _ => Ok true
  | VList _ => Raise (TypeError "unhashable type: 'list'")
  end.

(** The branch for [masked.amax], [masked.amin], [masked.mean] and
    [masked.prod]. *)
Definition validate_masked_other (op_name : string) (sample : SampleInput)
    : result Sample :=
  let t_inp := input sample in
  match mask sample with
  | Unspecified | MaskNone =>
      Ok (Invalid (mkErrorInput sample [TValueError]
                     "masked (.*) expects explicit mask for sparse_csr tensor input"))
  | Mask m =>
      if (2 <? ndim m)%Z && bool_decide (t_layout m = strided) && any_zero m
      then Ok (Invalid (mkErrorInput sample default_error_type
                          "Expect the same number of specified elements per batch."))
      else if bool_decide (t_layout m = t_layout t_inp) && (2 <? ndim m)%Z
              && bool_decide (op_name = "masked.mean")
      then Ok (Invalid (mkErrorInput sample [TTypeError]
                          "where[(][)] received an invalid combination of arguments - got [(]Tensor, Tensor, NoneType[)]"))
      else if negb (truthy (kwargs_get sample "keepdim"))
      then Ok (Invalid (mkErrorInput sample [TAssertionError; TRuntimeError]
                          "reduction operations on (CSR|CSC) tensors with keepdim=False is unsupported"))
      else
        match (if (2 <? ndim t_inp)%Z
               then match not_in_0_1 (kwargs_get sample "dim") with
                    | Ok b => Ok (b && (2 <? ndim m)%Z
                                  && negb (bool_decide (t_layout m = strided)))
                    | Raise e => Raise e
                    end
               else Ok false) with
        | Raise e => Raise e
        | Ok true =>
            if bool_decide (kwargs_get sample "dim" = VTuple [0; -1])
            then Ok (Invalid (mkErrorInput sample default_error_type
                                "tensor dimensionality must be sum of batch, base, and dense dimensionalities"))
            else if bool_decide (op_name = "masked.prod")
            then Ok (Invalid (mkErrorInput sample default_error_type
                                "input_dim == 2 INTERNAL ASSERT FAILED at"))
            else Ok (Invalid (mkErrorInput sample [TAssertionError]
                                "Sparse CSR tensors are 2D and only support reduction along dim 0 or 1."))
        | Ok false =>
            if (2 <? ndim t_inp)%Z
            then Ok (Invalid (mkErrorInput sample default_error_type
                                "crow_indices is supposed to be a vector, but got 3 dimensional tensor."))
            else if bool_decide (t_layout m = t_layout t_inp)
                    && negb (_nnz m =? _nnz t_inp)%Z && (0 <? dense_dim t_inp)%Z
            then Ok (Invalid (mkErrorInput sample default_error_type
                                "Index tensor must have the same number of dimensions as src tensor"))
            else Ok (Valid sample)
        end
  end.

(** The two later branches read [sample.kwargs]; they are only entered for
    names other than [sum], for which [sample] is still the
    [SampleInput]. *)
Definition _validate_sample_input_sparse_reduction (op_info : OpInfo)
    (sample : SampleInput) (check_validate : Datatypes.bool) : result Sample :=
  let validated :=
    if bool_decide (name op_info = "sum")
    then Ok (_validate_sample_input_sparse_reduction_sum sample)
    else if bool_decide (name op_info = "masked.sum")
    then Ok (validate_masked_sum sample)
    else if bool_decide (name op_info ∈ ["masked.amax"; "masked.amin";
                                          "masked.mean"; "masked.prod"])
    then validate_masked_other (name op_info) sample
    else Ok (Valid sample) in
  match validated with
  | Raise e => Raise e
  | Ok validated =>
      if check_validate
      then match _check_validate op_info validated with
           | Ok _ => Ok validated
           | Raise e => Raise e
           end
      else Ok validated
  end.

Definition _validate_sample_input_sparse_default (op_info : OpInfo)
    (sample : SampleInput) (check_validate : Datatypes.bool) : result Sample :=
  let validated :=
    if bool_decide (name op_info = "to_sparse")
       && is_compressed (t_layout (input sample))
       && match args sample with
          | [VInt z] => negb (z =? 2)%Z
          | [VBool _] => true
          | _ => false
          end
    then Invalid (mkErrorInput sample default_error_type
                    "sparse dim argument must be 2 for sparse_compressed_to_sparse")
    else Valid sample in
  if check_validate
  then match _check_validate op_info validated with
       | Ok _ => Ok validated
       | Raise e => Raise e
       end
  else Ok validated.

Definition validate_sample_input_sparse (op_info : OpInfo) (sample : SampleInput)
    (check_validate : Datatypes.bool) : result Sample :=
  if is_reduction op_info
  then _validate_sample_input_sparse_reduction op_info sample check_validate
  else _validate_sample_input_sparse_default op_info sample check_validate.

(** A generator run to its end: what it yielded, and the exception that
    ended it, if one did. *)
Definition Generated (A : Type) : Type := (list A * option exn)%type.

(** The loop [for sample in samples: sample = validate_sample_input(op_info,
    sample, check_validate=False); if isinstance(sample, kind): yield
    sample]. *)
Fixpoint yield_validated {A} (validate : SampleInput -> result Sample)
    (keep : Sample -> option A) (samples : list SampleInput) : Generated A :=
  match samples with
  | [] => ([], None)
  | sample :: rest =>
      match validate sample with
      | Raise e => ([], Some e)
      | Ok validated =>
          let '(yielded, ended) := yield_validated validate keep rest in
          (match keep validated with
           | Some a => a :: yielded
           | None => yielded
           end, ended)
      end
  end.

Definition as_sample_input (s : Sample) : option SampleInput :=
  match s with
  | Valid s => Some s
  | Invalid _ => None
  end.

Definition as_error_input (s : Sample) : option ErrorInput :=
  match s with
  | Valid _ => None
  | Invalid e => Some e
  end.

Definition _sample_inputs_sparse (sample_inputs maybe_failing_sample_inputs
      : list SampleInput)
    (validate_sample_input : OpInfo -> SampleInput -> Datatypes.bool -> result Sample)
    (op_info : OpInfo) : Generated SampleInput :=
  let check_validate := false in
  match yield_validated (fun s => validate_sample_input op_info s check_validate)
          as_sample_input sample_inputs with
  | (yielded, Some e) => (yielded, Some e)
  | (yielded, None) =>
      let '(more, ended) :=
        yield_validated (fun s => validate_sample_input op_info s check_validate)
          as_sample_input maybe_failing_sample_inputs in
      ((yielded ++ more)%list, ended)
  end.

Definition _error_inputs_sparse (maybe_failing_sample_inputs : list SampleInput)
    (validate_sample_input : OpInfo -> SampleInput -> Datatypes.bool -> result Sample)
    (op_info : OpInfo) : Generated ErrorInput :=
  let check_validate := false in
  yield_validated (fun s => validate_sample_input op_info s check_validate)
    as_error_input maybe_failing_sample_inputs.

Section KnownFailures.

(** [torch.tensor(data).to_sparse(layout=..., blocksize=..., dense_dim=...)]
    for data of the given shape. *)
Variable to_sparse : list Z -> layout -> option (Z * Z) -> option Z -> Tensor.

Definition kw (dim : Value) (keepdim : option Datatypes.bool) : gmap string Value :=
  match keepdim with
  | Some b => <["keepdim" := VBool b]> {["dim" := dim]}
  | None => {["dim" := dim]}
  end.

(** The samples [_maybe_failing_sample_inputs_sparse_reduction_sum] yields
    for a layout; dtype and [requires_grad] play no part in the
    validation. *)
Definition _maybe_failing_sample_inputs_sparse_reduction_sum (layout : layout)
    : list SampleInput :=
  ((if bool_decide (layout ∈ [sparse_csr; sparse_csc]) then
      [mkSampleInput (to_sparse [2; 2] layout None None) []
         (kw (VInt 0) (Some true)) Unspecified;
       mkSampleInput (to_sparse [2; 1; 2] layout None (Some 1)) []
         (kw (VInt 0) None) Unspecified;
       mkSampleInput (to_sparse [2; 2] layout None None) []
         (kw (VTuple [0]) None) Unspecified;
       mkSampleInput (to_sparse [2; 2] layout None None) []
         (kw (VTuple [0]) (Some true)) Unspecified;
       mkSampleInput (to_sparse [2; 1; 2] layout None (Some 1)) []
         (kw (VTuple [0]) None) Unspecified;
       mkSampleInput (to_sparse [2; 2] layout None None) []
         (kw (VInt 0) None) Unspecified]
    else [])
   ++ (if bool_decide (layout ∈ [sparse_bsr; sparse_bsc]) then
         [mkSampleInput (to_sparse [2; 2] layout (Some (2, 2)) None) []
            (kw (VInt 0) (Some true)) Unspecified;
          mkSampleInput (to_sparse [2; 1; 2] layout (Some (1, 1)) (Some 1)) []
            (kw (VInt 0) None) Unspecified;
          mkSampleInput (to_sparse [2; 2] layout (Some (1, 1)) None) []
            (kw (VTuple [0]) None) Unspecified;
          mkSampleInput (to_sparse [2; 2] layout (Some (1, 1)) None) []
            (kw (VTuple [0]) (Some true)) Unspecified;
          mkSampleInput (to_sparse [2; 1; 2] layout (Some (1, 1)) (Some 1)) []
            (kw (VTuple [0]) None) Unspecified;
          mkSampleInput (to_sparse [2; 2] layout (Some (1, 1)) None) []
            (kw (VInt 0) None) Unspecified]
       else []))%list.

(** [sample_inputs_sparse_reduction_sum], given what
    [sample_inputs_sparse_reduction] yields. *)
Definition sample_inputs_sparse_reduction_sum (regular : list SampleInput)
    (op_info : OpInfo) (layout : layout) : Generated SampleInput :=
  _sample_inputs_sparse regular
    (_maybe_failing_sample_inputs_sparse_reduction_sum layout)
    _validate_sample_input_sparse_reduction op_info.

Definition error_inputs_sparse_reduction_sum (op_info : OpInfo) (layout : layout)
    : Generated ErrorInput :=
  _error_inputs_sparse (_maybe_failing_sample_inputs_sparse_reduction_sum layout)
    _validate_sample_input_sparse_reduction op_info.

End KnownFailures.

End sparse.
(** The sample a validated sample wraps. *)
Definition underlying (s : sparse.Sample) : sparse.SampleInput :=
  match s with
  | sparse.Valid s => s
  | sparse.Invalid e => sparse.sample_input e
  end.

(** The validated samples of a list, for a validator that returns. *)
Definition classified (validate : sparse.SampleInput -> result sparse.Sample)
    (samples : list sparse.SampleInput) : list sparse.Sample :=
  omap (fun s => match validate s with
                 | Ok v => Some v
                 | Raise _ => None
                 end) samples.

(** [to_sparse] keeps the number of dimensions and gives the layout asked
    for. *)
Definition to_sparse_wf
    (to_sparse : list Z -> sparse.layout -> option (Z * Z) -> option Z -> sparse.Tensor)
    : Prop :=
  forall shape layout blocksize dense_dim,
    sparse.t_layout (to_sparse shape layout blocksize dense_dim) = layout
    /\ sparse.ndim (to_sparse shape layout blocksize dense_dim)
       = Z.of_nat (length shape).

Definition example_to_sparse (shape : list Z) (layout : sparse.layout)
    (blocksize : option (Z * Z)) (dense_dim : option Z) : sparse.Tensor :=
  sparse.mkTensor layout (Z.of_nat (length shape)) (default 0 dense_dim) 2 3 false.

Definition sum_op : sparse.OpInfo :=
  sparse.mkOpInfo "sum" true (fun _ => Some sparse.TNotImplementedError).

Definition csr_sample (kwargs : gmap string sparse.Value) : sparse.SampleInput :=
  sparse.mkSampleInput (sparse.mkTensor sparse.sparse_csr 2 0 2 3 false) [] kwargs
    sparse.Unspecified.

(** What the validator for [sum] decides from the layout, the number of
    dimensions and the keyword arguments: the expected classes and message
    of the error, or [None] for a valid sample. *)
Definition sum_verdict (layout : sparse.layout) (ndim : Z)
    (kwargs : gmap string sparse.Value) (mask : sparse.MaskArg)
    : option (list sparse.ExnType * string) :=
  match sparse._validate_sample_input_sparse_reduction_sum
          (sparse.mkSampleInput (sparse.mkTensor layout ndim 0 0 0 false) []
             kwargs mask) with
  | sparse.Valid _ => None
  | sparse.Invalid e => Some (sparse.error_type e, sparse.error_regex e)
  end.

(** The names of the masked reductions the validator knows. *)
Definition masked_reductions : list string :=
  ["masked.sum"; "masked.amax"; "masked.amin"; "masked.mean"; "masked.prod"].

Definition masked_amax_op : sparse.OpInfo :=
  sparse.mkOpInfo "masked.amax" true (fun _ => None).

(** A batched CSR sample with a batched CSR mask and [keepdim=True]. *)
Definition batched_masked_sample (dim : sparse.Value) : sparse.SampleInput :=
  sparse.mkSampleInput (sparse.mkTensor sparse.sparse_csr 3 0 2 3 false) []
    (<["keepdim" := sparse.VBool true]> {["dim" := dim]})
    (sparse.Mask (sparse.mkTensor sparse.sparse_csr 3 0 2 3 false)).

(** Where [dump_compiler_graph_state] writes: the file is named after the
    number of nodes of the graph. *)
Definition checkpoint_dir (os : OS) : string :=
  path_join (minifier_dir os) "checkpoints".

Definition checkpoint_file (os : OS) (gm : fx.GraphModule) : string :=
  path_join (checkpoint_dir os) (pretty (length (fx.nodes gm)) ++ ".py").

Definition convenience_copy (os : OS) : string := path_join (getcwd os) "repro.py".

(** The process once the checkpoint file is written. *)
Definition checkpoint_written (os : OS) (gm : fx.GraphModule) (args : list Arg)
    (compiler_name : string) (w : World) : World :=
  mkWorld (cfg w)
    (effects w ++ made_dirs os (checkpoint_dir os)
       ++ [Logged (LogRecord WARNING "Writing checkpoint with %s nodes to %s"
                     [pretty (length (fx.nodes gm)); checkpoint_file os gm])]
       ++ session_stored os gm args (Some (checkpoint_dir os))
       ++ [Wrote (checkpoint_file os gm)
             (repro_file os gm args compiler_name (Some (checkpoint_dir os)) "run"
                (cfg w))]).

Definition with_effects (w : World) (ef : list effect) : World :=
  mkWorld (cfg w) (effects w ++ ef).

(** The process once [isolate_fails] has written the script and spawned
    the subprocess. *)
Definition isolate_spawned (os : OS) (fx_g : fx.GraphModule) (args : list Arg)
    (compiler_name : string) (env : option (gmap string string))
    (save_dir : option string) (w : World) : World :=
  with_effects w
    (made_dirs os (isolate_subdir os)
       ++ session_stored os fx_g args save_dir
       ++ [Wrote (isolate_file_name os)
             (repro_file os fx_g args compiler_name save_dir "minifier-query" (cfg w));
           Spawned (isolate_cmd os) (isolate_subdir os) (default ∅ env ∪ environ os)]).

(** What [isolate_fails] makes of the finished subprocess [p]: nothing
    more after exit code 0; otherwise each captured stream is decoded and
    printed in turn, and the first that does not decode ends the call. *)
Definition isolate_outcome (p : Completed) (w : World)
    : result Datatypes.bool * World :=
  if decide (returncode p ≠ 0) then
    match decode_error (stdout p) with
    | Some e => (Raise e, w)
    | None =>
        let w1 := with_effects w [Printed (textwrap_indent (stdout p) ">>  ")] in
        match decode_error (stderr p) with
        | Some e => (Raise e, w1)
        | None =>
            (Ok true,
             with_effects w1 [Printed (textwrap_indent (stderr p) ">>  ")])
        end
    end
  else (Ok false, w).

(** A file system with Buck on which the target file cannot be written. *)
Definition buck_read_only_os : OS :=
  mkOS "/tmp/minifier" "/work" (fun _ => true) (fun _ => None) (fun _ => None)
    (fun _ _ => None) true (fun _ => Some (OSError "Permission denied"))
    (fun _ => []) (fun _ => None) (fun _ => ContentStoreWriter.mk (fun _ => "h") ∅)
    (fun _ => ∅) ∅ "0123456789abcdef"
    (fun _ _ _ => mkCompleted 0 "" "").

(** [FakeTensorMode().from_tensor] gives tensors whose storage is on the
    meta device. *)
Definition makes_fake (backend : Backend) : Prop :=
  forall t,
    torch.type (torch.s_device (torch.untyped_storage (from_tensor backend t))) = "meta".

(** A backend whose fake tensors keep everything but the storage, which
    moves to the meta device. *)
Definition fake_backend (compiled : result PyObj) : Backend :=
  mkBackend "graph_0"
    (fun t =>
       torch.mkTensor
         (torch.Storage (torch.sid (torch.untyped_storage t)) torch.meta
            (torch.s_nbytes (torch.untyped_storage t)) [])
         (torch.shape t) (torch.stride t) (torch.storage_offset t)
         (torch.t_dtype t) (torch.t_device t) (torch.t_metadata t))
    (ret tt)
    (fun _ _ _ => ret false)
    (fun _ _ => ret (ObjSeq []))
    (fun _ _ => ret (example_callable compiled))
    (fun _ _ _ => ret example_graph)
    (fun _ => []) 4.

(* ===================================================================== *)
(** * Proofs                                                              *)
(* ===================================================================== *)

Ltac unfold_monad :=
  unfold bind, ret, raise, get, modify, try_except, assert, emit, log_warning,
    log_error, print, get_config, syscall, run_local in *.

Lemma bind_Ok {S A B} (m : M S A) (k : A -> M S B) s a s' :
  m s = (Ok a, s') -> bind m k s = k a s'.
Proof. intros H. unfold bind. now rewrite H. Qed.

Lemma bind_Raise {S A B} (m : M S A) (k : A -> M S B) s e s' :
  m s = (Raise e, s') -> bind m k s = (Raise e, s').
Proof. intros H. unfold bind. now rewrite H. Qed.

Lemma exit_status_Exception {A} e :
  is_Exception e = true -> exit_status (Raise e : result A) = 1.
Proof. destruct e; cbn; intros H; try reflexivity; discriminate H. Qed.

(** ** InputReader.storage *)

Lemma itemsize_pos d : 0 < torch.itemsize d.
Proof. destruct d; reflexivity. Qed.

Lemma ticked_store self : InputReader.store (ticked self) = InputReader.store self.
Proof. unfold ticked. now destruct (InputReader.pbar self). Qed.

Lemma ticked_args self : InputReader.args (ticked self) = InputReader.args self.
Proof. unfold ticked. now destruct (InputReader.pbar self). Qed.

Lemma ticked_log self : InputReader.log (ticked self) = InputReader.log self.
Proof. unfold ticked. now destruct (InputReader.pbar self). Qed.

Lemma ticked_allocated self :
  InputReader.allocated (ticked self) = InputReader.allocated self.
Proof. unfold ticked. now destruct (InputReader.pbar self). Qed.

(** A storage found in the store is returned as it is. *)
Lemma storage_hit randn self storage_hash nbytes device dtype_hint stored :
  content_available self storage_hash = Some stored ->
  InputReader.storage randn storage_hash nbytes device dtype_hint self =
    (Ok stored,
     let s := ticked self in
     if decide (_device_or_default device ≠ torch.s_device stored)
     then InputReader.mk (InputReader.store s) (InputReader.args s)
            (InputReader.pbar s)
            (InputReader.log s ++
               [LogRecord WARNING "device mismatch: %s != %s"
                  [torch.str_device (_device_or_default device);
                   torch.str_device (torch.s_device stored)]])
            (InputReader.allocated s)
     else s).
Proof.
  unfold content_available, InputReader.storage, ticked. intros H.
  destruct self as [st a pb lg al]; simpl in *.
  destruct st as [st|]; [|discriminate].
  destruct storage_hash as [h|]; [|discriminate].
  unfold_monad. unfold InputReader.pbar_update, ContentStoreReader.read_storage.
  unfold_monad. simpl.
  destruct pb; simpl; rewrite H; simpl;
    destruct (decide (_device_or_default device ≠ torch.s_device stored));
    reflexivity.
Qed.

Lemma storage_miss randn self storage_hash nbytes device dtype_hint :
  content_available self storage_hash = None ->
  InputReader.storage randn storage_hash nbytes device dtype_hint self =
    (Ok (synthesized randn (InputReader.allocated self) nbytes device dtype_hint),
     let s := ticked self in
     InputReader.mk (InputReader.store s) (InputReader.args s) (InputReader.pbar s)
       (InputReader.log s ++
          [LogRecord WARNING "could not load %s, generating random data instead"
             [match storage_hash with Some h => h | None => "None" end]])
       (S (InputReader.allocated s))).
Proof.
  unfold content_available, InputReader.storage, ticked, synthesized. intros H.
  destruct self as [st a pb lg al]; simpl in *.
  assert (Hsz : forall n : Z, (n - 1) * 1 + 0 + 1 = n) by (intros; lia).
  unfold_monad. unfold InputReader.pbar_update, ContentStoreReader.read_storage,
    InputReader.log_warning, InputReader.next_allocation, rand_strided.
  unfold_monad. simpl.
  destruct pb; simpl; destruct st as [st|]; simpl in *;
    try destruct storage_hash as [h|]; simpl in *; try rewrite H; simpl;
    rewrite ?Hsz; reflexivity.
Qed.

(** C10: when the store holds the requested hash but the stored storage is
    on another device than the one the instruction records, [storage]
    returns the stored storage unchanged, on its stored device; the only
    trace of the disagreement is one warning in the log. *)
Theorem storage_device_mismatch_returns_stored
    randn self (st : ContentStoreReader.t) h nbytes device dtype_hint stored :
  InputReader.store self = Some st ->
  st !! h = Some stored ->
  _device_or_default device ≠ torch.s_device stored ->
  exists self',
    InputReader.storage randn (Some h) nbytes device dtype_hint self = (Ok stored, self')
    /\ InputReader.log self' =
         (InputReader.log self ++
            [LogRecord WARNING "device mismatch: %s != %s"
               [torch.str_device (_device_or_default device);
                torch.str_device (torch.s_device stored)]])%list
    /\ InputReader.args self' = InputReader.args self
    /\ InputReader.store self' = InputReader.store self
    /\ InputReader.allocated self' = InputReader.allocated self.
Proof.
  intros Hst Hh Hne.
  assert (Hav : content_available self (Some h) = Some stored).
  { unfold content_available. now rewrite Hst. }
  rewrite (storage_hit randn _ _ nbytes device dtype_hint _ Hav).
  eexists. split; [reflexivity|].
  destruct (decide (_device_or_default device ≠ torch.s_device stored)); [|contradiction].
  simpl. rewrite ticked_log, ticked_args, ticked_store, ticked_allocated. auto.
Qed.

Lemma storage_device_mismatch_returns_stored_witness :
  let stored := torch.Storage 0 (torch.cuda 0) 4 [1; 2; 3; 4] in
  let st : ContentStoreReader.t := {["h" := stored]} in
  exists self',
    InputReader.storage (fun _ => []) (Some "h") 4 None None
      (InputReader.__init__ (Some st) None) = (Ok stored, self')
    /\ InputReader.log self' =
         [LogRecord WARNING "device mismatch: %s != %s" ["cpu"; "cuda:0"]]
    /\ InputReader.args self' = []
    /\ InputReader.store self' = Some st
    /\ InputReader.allocated self' = 0%nat.
Proof.
  intros stored st.
  apply (storage_device_mismatch_returns_stored (fun _ => [])
           (InputReader.__init__ (Some st) None) st "h" 4 None None stored).
  - reflexivity.
  - reflexivity.
  - discriminate.
Defined.

(** C7, the part the code keeps: when the content cannot be fetched (no
    store, no hash, or a hash the store does not hold) [storage] does not
    raise; it logs the substitution and returns data on the recorded (or
    default) device. *)
Lemma storage_missing_content_is_recoverable
    randn self storage_hash nbytes device dtype_hint :
  content_available self storage_hash = None ->
  exists s self',
    InputReader.storage randn storage_hash nbytes device dtype_hint self = (Ok s, self')
    /\ torch.s_device s = _device_or_default device
    /\ torch.s_nbytes s =
         nbytes `div` torch.itemsize (_dtype_or_default dtype_hint)
           * torch.itemsize (_dtype_or_default dtype_hint)
    /\ InputReader.log self' =
         (InputReader.log self ++
            [LogRecord WARNING "could not load %s, generating random data instead"
               [match storage_hash with Some h => h | None => "None" end]])%list.
Proof.
  intros H. rewrite (storage_miss randn _ _ nbytes device dtype_hint H).
  eexists _, _. split; [reflexivity|]. simpl. rewrite ticked_log. auto.
Qed.

(** The byte length is the recorded one exactly when the item size of the
    dtype hint divides it. *)
Lemma synthesized_nbytes randn fresh nbytes device dtype_hint :
  torch.s_nbytes (synthesized randn fresh nbytes device dtype_hint) = nbytes
  <-> (torch.itemsize (_dtype_or_default dtype_hint) | nbytes).
Proof.
  unfold synthesized; simpl.
  pose proof (itemsize_pos (_dtype_or_default dtype_hint)) as Hp.
  split.
  - intros H. exists (nbytes `div` torch.itemsize (_dtype_or_default dtype_hint)).
    lia.
  - intros [k ->]. rewrite Z.div_mul by lia. reflexivity.
Qed.

(** C7, where the code departs from the claim: for an instruction recording
    6 bytes and the default dtype hint (float32, 4 bytes per item) the
    synthesized storage holds 4 bytes, not 6. *)
Theorem storage_synthesized_truncates randn :
  exists s self',
    InputReader.storage randn None 6 None None (InputReader.__init__ None None)
      = (Ok s, self')
    /\ torch.s_nbytes s = 4
    /\ torch.s_nbytes s ≠ 6.
Proof.
  rewrite storage_miss by reflexivity.
  eexists _, _. split; [reflexivity|]. simpl. split; [reflexivity|discriminate].
Qed.

(** ** InputWriter *)

Lemma hash_of_write_storage st s :
  fst (ContentStoreWriter.write_storage st s)
  = ContentStoreWriter.hash_storage st (torch.s_data s).
Proof.
  unfold ContentStoreWriter.write_storage.
  now destruct (ContentStoreWriter.files st !! _).
Qed.

Lemma writer_storage_seen s dtype_hint device_hint self v :
  InputWriter.seen_storages self !! torch.sid s = Some v ->
  InputWriter.storage s dtype_hint device_hint self = (Ok v, self).
Proof.
  intros H. unfold InputWriter.storage, StorageWeakRef. unfold_monad.
  now rewrite H.
Qed.

Lemma writer_storage_fresh s dtype_hint device_hint self :
  InputWriter.seen_storages self !! torch.sid s = None ->
  (torch.type (torch.s_device s) = "meta" -> device_hint ≠ None) ->
  InputWriter.storage s dtype_hint device_hint self =
    (Ok ("buf" ++ pretty (InputWriter.storage_counter self)),
     InputWriter.mk
       (InputWriter._lines self ++ [storage_line self s dtype_hint device_hint])
       (S (InputWriter.storage_counter self))
       (store_after self s)
       (<[torch.sid s := "buf" ++ pretty (InputWriter.storage_counter self)]>
          (InputWriter.seen_storages self))).
Proof.
  intros Hnone Hhint.
  unfold InputWriter.storage, StorageWeakRef, storage_line, recorded_device,
    recorded_hash, store_after.
  unfold_monad. rewrite Hnone.
  unfold InputWriter.next_storage_counter, InputWriter.lines_append,
    InputWriter.seen_storages_set, InputWriter.store_write_storage.
  unfold_monad. destruct self as [ls n st seen]; simpl in *.
  destruct (decide (torch.type (torch.s_device s) = "meta")) as [Hm|Hm].
  - specialize (Hhint Hm). destruct device_hint as [d|]; [|contradiction].
    simpl. destruct st as [st|]; simpl.
    + destruct (decide (torch.type (torch.s_device s) ≠ "meta")); [contradiction|].
      reflexivity.
    + reflexivity.
  - simpl. destruct st as [st|]; simpl.
    + destruct (decide (torch.type (torch.s_device s) ≠ "meta")); [|contradiction].
      simpl. pose proof (hash_of_write_storage st s) as Hh.
      destruct (ContentStoreWriter.write_storage st s) as [h st']. simpl in *.
      subst h. reflexivity.
    + reflexivity.
Qed.

Lemma writer_tensor name t self :
  InputWriter.tensor name t self = (Ok tt, after_tensor name t self).
Proof.
  unfold InputWriter.tensor, after_tensor.
  destruct (InputWriter.seen_storages self !! torch.sid (torch.untyped_storage t))
    as [v|] eqn:Hseen.
  - erewrite bind_Ok by (apply writer_storage_seen; eassumption).
    unfold InputWriter.lines_append, tensor_line. unfold_monad. reflexivity.
  - erewrite bind_Ok by (apply writer_storage_fresh; [eassumption|discriminate]).
    unfold InputWriter.lines_append, tensor_line. unfold_monad. simpl.
    rewrite <- app_assoc. reflexivity.
Qed.

Lemma writer_symint name val self :
  InputWriter.symint name val self = (Ok tt, after_symint name val self).
Proof. reflexivity. Qed.

Lemma write_args_ok targets args self :
  Forall supported args ->
  write_args targets args self = (Ok tt, after_args targets args self).
Proof.
  intros Hs. revert targets self.
  induction Hs as [|arg args Harg Hs IH]; intros targets self.
  - destruct targets; reflexivity.
  - destruct targets as [|p targets]; [reflexivity|]. simpl.
    destruct arg as [i|t|o]; [| |destruct Harg].
    + erewrite bind_Ok by apply writer_symint. apply IH.
    + erewrite bind_Ok by apply writer_tensor. apply IH.
Qed.

(** ** Dumping *)

Lemma save_graph_repro_ok os gm args compiler_name save_dir command w :
  Forall supported args ->
  save_graph_repro os gm args compiler_name save_dir command w =
    (Ok (repro_file os gm args compiler_name save_dir command (cfg w)),
     with_effects w (session_stored os gm args save_dir)).
Proof.
  intros Hs.
  unfold save_graph_repro, generate_compiler_repro_string, repro_file, run_writer,
    session_stored, with_effects.
  unfold_monad. rewrite (write_args_ok _ _ _ Hs). reflexivity.
Qed.

Lemma with_effects_nil w : with_effects w [] = w.
Proof. destruct w. unfold with_effects. cbn. now rewrite app_nil_r. Qed.

Lemma stored_by_same_store save_dir before after :
  InputWriter.store after = InputWriter.store before ->
  stored_by save_dir before after = [].
Proof.
  intros H. unfold stored_by, written_content. rewrite H.
  destruct save_dir; [|reflexivity].
  destruct (InputWriter.store before) as [st|]; [|reflexivity].
  rewrite map_difference_diag. reflexivity.
Qed.

Lemma ensure_subdir_ok os subdir w :
  subdir_available os subdir ->
  ensure_subdir os subdir w
  = (Ok tt, mkWorld (cfg w) (effects w ++ made_dirs os subdir)).
Proof.
  unfold subdir_available, ensure_subdir, made_dirs. unfold_monad.
  destruct w as [c ef]. simpl.
  intros [H|H].
  - rewrite H. simpl. now rewrite app_nil_r.
  - destruct (path_exists os subdir); simpl.
    + now rewrite app_nil_r.
    + now rewrite H.
Qed.

(** ** C9: the exit-code contract of isolation *)



Lemma decode_utf8_spec {S} (b : string) (s : S) :
  decode_utf8 b s
  = match decode_error b with
    | Some e => (Raise e, s)
    | None => (Ok b, s)
    end.
Proof.
  unfold decode_utf8, decode_error.
  destruct (utf8_error 0 b) as [[[start stop] reason]|]; reflexivity.
Qed.

Lemma isolate_fails_spec os fx_g args compiler_name env save_dir accuracy w :
  subdir_available os (isolate_subdir os) ->
  open_write_raises os (isolate_file_name os) = None ->
  Forall supported args ->
  isolate_fails os fx_g args compiler_name env save_dir accuracy w
  = isolate_outcome (isolate_process os env)
      (isolate_spawned os fx_g args compiler_name env save_dir w).
Proof.
  intros Hdir Hopen Hs.
  unfold isolate_fails.
  fold (isolate_subdir os). fold (isolate_file_name os).
  erewrite bind_Ok by (apply ensure_subdir_ok; exact Hdir).
  rewrite Hopen.
  unfold bind at 1. unfold bind at 1. unfold ret at 1.
  erewrite bind_Ok by (apply save_graph_repro_ok; exact Hs).
  fold (isolate_cmd os).
  unfold emit at 1, modify at 1.
  unfold bind at 1. unfold emit at 1, modify at 1.
  fold (isolate_process os env).
  unfold isolate_outcome, isolate_spawned, with_effects. cbn [cfg effects].
  rewrite <- !app_assoc. cbn [app].
  destruct (decide (returncode (isolate_process os env) ≠ 0)); [|reflexivity].
  unfold bind at 1. rewrite decode_utf8_spec.
  destruct (decode_error (stdout (isolate_process os env))); [reflexivity|].
  unfold bind at 1. unfold print at 1, emit at 1, modify at 1.
  unfold bind at 1. rewrite decode_utf8_spec. cbn [cfg effects].
  rewrite <- !app_assoc. cbn [app].
  destruct (decode_error (stderr (isolate_process os env))); [reflexivity|].
  cbv beta iota. unfold bind, print, emit, modify, ret. cbn [cfg effects].
  rewrite <- !app_assoc. reflexivity.
Qed.

Lemma decode_error_decodes b : decodes b -> decode_error b = None.
Proof. unfold decodes, decode_error. now intros ->. Qed.






(** ** Concrete instances used to exercise the statements *)


(** ** The capture wrapper *)

Lemma try_except_Ok {S A} (body : M S A) catches handler s a s' :
  body s = (Ok a, s') -> try_except body catches handler s = (Ok a, s').
Proof. intros H. unfold try_except. now rewrite H. Qed.

Lemma try_except_caught {S A} (body : M S A) catches handler s e s' :
  body s = (Raise e, s') -> catches e = true ->
  try_except body catches handler s = handler e s'.
Proof. intros H Hc. unfold try_except. now rewrite H, Hc. Qed.

Lemma try_except_uncaught {S A} (body : M S A) catches handler s e s' :
  body s = (Raise e, s') -> catches e = false ->
  try_except body catches handler s = (Raise e, s').
Proof. intros H Hc. unfold try_except. now rewrite H, Hc. Qed.

Section WrapperFacts.

Variable os : OS.
Variable backend : Backend.
Variable compiler : CompilerFn.
Variable compiler_name : string.
Variable gm : fx.GraphModule.
Variable example_inputs : list Arg.

(** The compile step raised and capture is off: the exception goes through. *)
Lemma debug_wrapper_compile_raises_capture_off w e w1 :
  repro_after_allowed (cfg w) ->
  compiler gm example_inputs w = (Raise e, w1) ->
  config.repro_after (cfg w1) ≠ Some "aot" ->
  debug_wrapper os backend compiler compiler_name gm example_inputs w = (Raise e, w1).
Proof.
  intros Ha Hc Hoff. unfold debug_wrapper, compiler_fn, repro_after_allowed in *.
  unfold bind at 1. unfold get_config at 1.
  unfold bind at 1. unfold assert. rewrite bool_decide_eq_true_2 by exact Ha.
  unfold ret at 1. unfold bind at 1.
  destruct (is_Exception e) eqn:He.
  - erewrite try_except_caught by eassumption.
    unfold_monad. destruct (decide (config.repro_after (cfg w1) = Some "aot"));
      [contradiction|reflexivity].
  - erewrite try_except_uncaught by eassumption. reflexivity.
Qed.

(** The compile step raised, capture is on and the checkpoint was written:
    the original exception is re-raised after it. *)
Lemma debug_wrapper_compile_raises_dump_ok w e w1 w2 :
  repro_after_allowed (cfg w) ->
  compiler gm example_inputs w = (Raise e, w1) ->
  is_Exception e = true ->
  config.repro_after (cfg w1) = Some "aot" ->
  checkpoint_on_failure os compiler_name (config.repro_level (cfg w1)) gm
    example_inputs w1 = (Ok tt, w2) ->
  debug_wrapper os backend compiler compiler_name gm example_inputs w
  = (Raise e, with_effect w2 (Logged (LogRecord ERROR "CompilerError" []))).
Proof.
  intros Ha Hc He Hon Hd.
  unfold debug_wrapper, compiler_fn, repro_after_allowed, checkpoint_on_failure in *.
  unfold bind at 1. unfold get_config at 1.
  unfold bind at 1. unfold assert. rewrite bool_decide_eq_true_2 by exact Ha.
  unfold ret at 1. unfold bind at 1.
  erewrite try_except_caught by eassumption.
  unfold bind at 1. unfold get_config at 1.
  destruct (decide (config.repro_after (cfg w1) = Some "aot")); [|contradiction].
  unfold bind at 1. unfold bind at 1. rewrite Hd. reflexivity.
Qed.

(** The compile step raised, capture is on and writing the checkpoint raised
    in turn: it is the exception of the dump that leaves the wrapper. *)
Lemma debug_wrapper_compile_raises_dump_raises w e w1 e' w2 :
  repro_after_allowed (cfg w) ->
  compiler gm example_inputs w = (Raise e, w1) ->
  is_Exception e = true ->
  config.repro_after (cfg w1) = Some "aot" ->
  checkpoint_on_failure os compiler_name (config.repro_level (cfg w1)) gm
    example_inputs w1 = (Raise e', w2) ->
  debug_wrapper os backend compiler compiler_name gm example_inputs w = (Raise e', w2).
Proof.
  intros Ha Hc He Hon Hd.
  unfold debug_wrapper, compiler_fn, repro_after_allowed, checkpoint_on_failure in *.
  unfold bind at 1. unfold get_config at 1.
  unfold bind at 1. unfold assert. rewrite bool_decide_eq_true_2 by exact Ha.
  unfold ret at 1. unfold bind at 1.
  erewrite try_except_caught by eassumption.
  unfold bind at 1. unfold get_config at 1.
  destruct (decide (config.repro_after (cfg w1) = Some "aot")); [|contradiction].
  unfold bind at 1. unfold bind at 1. rewrite Hd. reflexivity.
Qed.

End WrapperFacts.

Section InvokerFacts.

Variable os : OS.
Variable backend : Backend.
Variable compiler : CompilerFn.
Variable compiler_name : string.
Variable gm : fx.GraphModule.
Variable example_inputs : list Arg.
Variable inner : Callable.
Variable real_inputs : list Arg.

Local Abbreviation inner_debug :=
  (inner_debug_fn os backend compiler compiler_name gm example_inputs inner real_inputs).
Local Abbreviation deferred :=
  (deferred_for_real_inputs os backend compiler compiler_name gm example_inputs inner
     real_inputs).

Lemma deferred_capture_off w :
  config.repro_after (cfg w) ≠ Some "aot" ->
  deferred w = inner real_inputs w.
Proof.
  intros H. unfold deferred_for_real_inputs. unfold_monad.
  destruct (decide (config.repro_after (cfg w) ≠ Some "aot")); [reflexivity|contradiction].
Qed.

Lemma deferred_capture_on w :
  config.repro_after (cfg w) = Some "aot" ->
  deferred w =
    (fst (inner_debug (patched w)), restored (Some "aot") (snd (inner_debug (patched w)))).
Proof.
  intros H. unfold deferred_for_real_inputs. unfold_monad.
  destruct (decide (config.repro_after (cfg w) ≠ Some "aot")); [contradiction|].
  unfold config_patch_repro_after, patched, restored. rewrite H.
  now destruct (inner_debug_fn _ _ _ _ _ _ _ _ _).
Qed.

Lemma inner_debug_after_checkpoint w wq :
  checkpoint_always os compiler_name (config.repro_level (cfg w)) gm real_inputs w
    = (Ok tt, wq) ->
  config.repro_level (cfg wq) ≠ 4 ->
  inner_debug w =
    try_except
      (let! out := inner real_inputs in
       let! _ :=
         if existsb (fun arg => match arg with
                                | ArgTensor t => is_cuda t
                                | _ => false
                                end) example_inputs
         then cuda_synchronize backend
         else ret tt in
       ret out)
      is_Exception
      (fun e =>
         let! c := get_config in
         let! _ := checkpoint_on_failure os compiler_name (config.repro_level c) gm
                     (copy_tensor_attrs backend real_inputs) in
         raise e) wq.
Proof.
  intros Hpre Hl. unfold inner_debug_fn, checkpoint_always in *.
  unfold bind at 1. unfold get_config at 1.
  unfold bind at 1. rewrite Hpre.
  unfold bind at 1. unfold get_config at 1.
  destruct (decide (config.repro_level (cfg wq) = 4)); [contradiction|].
  reflexivity.
Qed.

(** The compiled function raised when invoked and the checkpoint of the
    handler was written: the original exception is re-raised. *)
Lemma inner_debug_invocation_raises_dump_ok w wq e w1 w2 :
  checkpoint_always os compiler_name (config.repro_level (cfg w)) gm real_inputs w
    = (Ok tt, wq) ->
  config.repro_level (cfg wq) ≠ 4 ->
  inner real_inputs wq = (Raise e, w1) ->
  is_Exception e = true ->
  checkpoint_on_failure os compiler_name (config.repro_level (cfg w1)) gm
    (copy_tensor_attrs backend real_inputs) w1 = (Ok tt, w2) ->
  inner_debug w = (Raise e, w2).
Proof.
  intros Hpre Hl Hi He Hd.
  rewrite (inner_debug_after_checkpoint _ _ Hpre Hl).
  erewrite try_except_caught; [| erewrite bind_Raise by exact Hi; reflexivity | exact He].
  unfold bind at 1. unfold get_config at 1.
  erewrite bind_Ok by exact Hd. reflexivity.
Qed.

(** ... and when writing that checkpoint raised, the exception of the dump
    takes the place of the original one. *)
Lemma inner_debug_invocation_raises_dump_raises w wq e w1 e' w2 :
  checkpoint_always os compiler_name (config.repro_level (cfg w)) gm real_inputs w
    = (Ok tt, wq) ->
  config.repro_level (cfg wq) ≠ 4 ->
  inner real_inputs wq = (Raise e, w1) ->
  is_Exception e = true ->
  checkpoint_on_failure os compiler_name (config.repro_level (cfg w1)) gm
    (copy_tensor_attrs backend real_inputs) w1 = (Raise e', w2) ->
  inner_debug w = (Raise e', w2).
Proof.
  intros Hpre Hl Hi He Hd.
  rewrite (inner_debug_after_checkpoint _ _ Hpre Hl).
  erewrite try_except_caught; [| erewrite bind_Raise by exact Hi; reflexivity | exact He].
  unfold bind at 1. unfold get_config at 1.
  erewrite bind_Raise by exact Hd. reflexivity.
Qed.

Lemma inner_debug_level4_start w :
  config.repro_level (cfg w) = 4 ->
  inner_debug w =
    (if decide (compiler_name ≠ "inductor") then
       raise (NotImplementedError
                "Accuracy minification is supported for inductor only")
     else
       let! fails := backend_aot_accuracy_fails backend gm real_inputs compiler in
       if fails : Datatypes.bool then
         let! _ := log_warning "Accuracy failed for the AOT Autograd graph %s"
                     [get_aot_graph_name backend] in
         let! _ := dump_compiler_graph_state os gm real_inputs
                     (compiler_name ++ "_accuracy") in
         let! _ := dump_to_minify os gm real_inputs (compiler_name ++ "_accuracy") in
         raise (AccuracyError "Bad accuracy detected")
       else inner real_inputs) w.
Proof.
  intros Hl. unfold inner_debug_fn, compiler_fn.
  unfold bind at 1. unfold get_config at 1.
  unfold bind at 1. rewrite Hl.
  destruct (decide (4 = 3)) as [H|_]; [discriminate H|].
  unfold ret at 1. unfold bind at 1. unfold get_config at 1. rewrite Hl.
  destruct (decide (4 = 4)) as [_|H]; [reflexivity|contradiction].
Qed.


(** Level 4, inductor, the accuracy check fails and both checkpoints are
    written: [AccuracyError] is raised after them. *)
Lemma inner_debug_level4_bad_accuracy w w1 w2 w3 :
  config.repro_level (cfg w) = 4 ->
  compiler_name = "inductor" ->
  backend_aot_accuracy_fails backend gm real_inputs compiler w = (Ok true, w1) ->
  dump_compiler_graph_state os gm real_inputs (compiler_name ++ "_accuracy")
    (with_effect w1
       (Logged (LogRecord WARNING "Accuracy failed for the AOT Autograd graph %s"
                  [get_aot_graph_name backend])))
    = (Ok tt, w2) ->
  dump_to_minify os gm real_inputs (compiler_name ++ "_accuracy") w2 = (Ok tt, w3) ->
  inner_debug w = (Raise (AccuracyError "Bad accuracy detected"), w3).
Proof.
  intros Hl Hn Hacc Hd1 Hd2. rewrite (inner_debug_level4_start _ Hl).
  destruct (decide (compiler_name ≠ "inductor")); [contradiction|].
  erewrite bind_Ok by exact Hacc.
  unfold bind at 1. unfold log_warning, emit, modify.
  fold (with_effect w1
          (Logged (LogRecord WARNING "Accuracy failed for the AOT Autograd graph %s"
                     [get_aot_graph_name backend]))).
  erewrite bind_Ok by exact Hd1.
  erewrite bind_Ok by exact Hd2. reflexivity.
Qed.

(** Level 4, inductor, the accuracy check passes: the compiled function is
    invoked and its outcome is the outcome. *)
Lemma inner_debug_level4_accuracy_ok w w1 :
  config.repro_level (cfg w) = 4 ->
  compiler_name = "inductor" ->
  backend_aot_accuracy_fails backend gm real_inputs compiler w = (Ok false, w1) ->
  inner_debug w = inner real_inputs w1.
Proof.
  intros Hl Hn Hacc. rewrite (inner_debug_level4_start _ Hl).
  destruct (decide (compiler_name ≠ "inductor")); [contradiction|].
  erewrite bind_Ok by exact Hacc. reflexivity.
Qed.

End InvokerFacts.




(** C1 as stated fails: with capture on at level 1, the compile step raises
    [RuntimeError] and the checkpoint file cannot be written; the wrapper
    raises the [OSError] of the dump, not the original exception, and
    nothing is logged about the failed dump. *)
Lemma capture_masks_original_when_dump_fails :
  fst (failing_compiler example_graph example_inputs (world0 (Some "aot") 1))
    = Raise (RuntimeError "boom")
  /\ fst (debug_wrapper disk_full_os (example_backend (Ok (ObjSeq [])) false)
            failing_compiler "inductor" example_graph example_inputs
            (world0 (Some "aot") 1))
       = Raise (OSError "No space left on device")
  /\ effects (snd (debug_wrapper disk_full_os (example_backend (Ok (ObjSeq [])) false)
                     failing_compiler "inductor" example_graph example_inputs
                     (world0 (Some "aot") 1)))
       = [Logged (LogRecord WARNING "Writing checkpoint with %s nodes to %s"
                    ["4"; "/tmp/minifier/checkpoints/4.py"])]
  /\ OSError "No space left on device" ≠ RuntimeError "boom".
Proof.
  split; [reflexivity|]. split; [vm_compute; reflexivity|].
  split; [vm_compute; reflexivity|discriminate].
Qed.

(** Where only the convenience copy of the checkpoint fails with an
    [OSError], the dump logs a warning and returns. *)
Lemma dump_compiler_graph_state_copy_failure os gm args compiler_name w e :
  subdir_available os (path_join (minifier_dir os) "checkpoints") ->
  open_write_raises os
    (path_join (path_join (minifier_dir os) "checkpoints")
       (pretty (length (fx.nodes gm)) ++ ".py")) = None ->
  Forall supported args ->
  copyfile_raises os
    (path_join (path_join (minifier_dir os) "checkpoints")
       (pretty (length (fx.nodes gm)) ++ ".py"))
    (path_join (getcwd os) "repro.py") = Some e ->
  is_OSError e = true ->
  exists ef,
    dump_compiler_graph_state os gm args compiler_name w
    = (Ok tt,
       mkWorld (cfg w)
         (effects w ++ ef ++
            [Logged (LogRecord WARNING "No write permissions for %s"
                       [path_join (getcwd os) "repro.py"])])).
Proof.
  intros Hdir Hopen Hs Hcopy He. unfold dump_compiler_graph_state.
  erewrite bind_Ok by (apply ensure_subdir_ok; exact Hdir).
  rewrite Hopen.
  unfold bind at 1. unfold log_warning at 1, emit at 1, modify at 1.
  unfold bind at 1. unfold bind at 1. unfold ret at 1.
  erewrite bind_Ok by (apply save_graph_repro_ok; exact Hs).
  unfold emit at 1, modify at 1.
  rewrite Hcopy. unfold syscall.
  erewrite try_except_caught; [| reflexivity | exact He].
  unfold log_warning, emit, modify. simpl.
  exists (made_dirs os (path_join (minifier_dir os) "checkpoints")
          ++ [Logged (LogRecord WARNING "Writing checkpoint with %s nodes to %s"
                        [pretty (length (fx.nodes gm));
                         path_join (path_join (minifier_dir os) "checkpoints")
                           (pretty (length (fx.nodes gm)) ++ ".py")])]
          ++ session_stored os gm args
               (Some (path_join (minifier_dir os) "checkpoints"))
          ++ [Wrote (path_join (path_join (minifier_dir os) "checkpoints")
                       (pretty (length (fx.nodes gm)) ++ ".py"))
                    (repro_file os gm args compiler_name
                       (Some (path_join (minifier_dir os) "checkpoints")) "run"
                       (cfg w))])%list.
  unfold with_effects. cbn [cfg effects]. rewrite <- !app_assoc. reflexivity.
Qed.

Lemma debug_wrapper_compile_raises_not_Exception
    os backend compiler compiler_name gm example_inputs w e w1 :
  repro_after_allowed (cfg w) ->
  compiler gm example_inputs w = (Raise e, w1) ->
  is_Exception e = false ->
  debug_wrapper os backend compiler compiler_name gm example_inputs w = (Raise e, w1).
Proof.
  intros Ha Hc He. unfold debug_wrapper, compiler_fn, repro_after_allowed in *.
  unfold bind at 1. unfold get_config at 1.
  unfold bind at 1. unfold assert. rewrite bool_decide_eq_true_2 by exact Ha.
  unfold ret at 1. unfold bind at 1.
  erewrite try_except_uncaught by eassumption. reflexivity.
Qed.

Lemma inner_debug_invocation_raises_not_Exception
    os backend compiler compiler_name gm example_inputs inner real_inputs w wq e w1 :
  checkpoint_always os compiler_name (config.repro_level (cfg w)) gm real_inputs w
    = (Ok tt, wq) ->
  config.repro_level (cfg wq) ≠ 4 ->
  inner real_inputs wq = (Raise e, w1) ->
  is_Exception e = false ->
  inner_debug_fn os backend compiler compiler_name gm example_inputs inner real_inputs w
  = (Raise e, w1).
Proof.
  intros Hpre Hl Hi He.
  rewrite (inner_debug_after_checkpoint _ _ _ _ _ _ _ _ _ _ Hpre Hl).
  erewrite try_except_uncaught; [reflexivity | | exact He].
  erewrite bind_Raise by exact Hi. reflexivity.
Qed.

(** C1, amended: when the compile step or the invocation of the compiled
    function raises, the outer call raises that same exception provided
    every checkpoint dump run on the way returns normally (at level 4:
    [AccuracyError] after an accuracy failure, and the exception of the
    compiled function after an accuracy success); an exception that is not
    an [Exception] goes through without any dump.  Of the persistence
    steps only the convenience copy is protected: its [OSError] is logged as
    a warning and the dump returns. *)
Theorem capture_reraises_original_when_dumps_return :
  (forall os backend compiler compiler_name gm example_inputs w e w1,
     repro_after_allowed (cfg w) ->
     compiler gm example_inputs w = (Raise e, w1) ->
     (config.repro_after (cfg w1) ≠ Some "aot" \/ is_Exception e = false ->
      debug_wrapper os backend compiler compiler_name gm example_inputs w
      = (Raise e, w1))
     /\ (is_Exception e = true ->
         config.repro_after (cfg w1) = Some "aot" ->
         forall w2,
           checkpoint_on_failure os compiler_name (config.repro_level (cfg w1)) gm
             example_inputs w1 = (Ok tt, w2) ->
           fst (debug_wrapper os backend compiler compiler_name gm example_inputs w)
           = Raise e))
  /\ (forall os backend compiler compiler_name gm example_inputs inner real_inputs w e,
        (config.repro_after (cfg w) ≠ Some "aot" ->
         forall w1,
           inner real_inputs w = (Raise e, w1) ->
           deferred_for_real_inputs os backend compiler compiler_name gm
             example_inputs inner real_inputs w = (Raise e, w1))
        /\ (config.repro_after (cfg w) = Some "aot" ->
            forall wq w1,
              checkpoint_always os compiler_name (config.repro_level (cfg w)) gm
                real_inputs (patched w) = (Ok tt, wq) ->
              config.repro_level (cfg wq) ≠ 4 ->
              inner real_inputs wq = (Raise e, w1) ->
              (is_Exception e = false ->
               fst (deferred_for_real_inputs os backend compiler compiler_name gm
                      example_inputs inner real_inputs w) = Raise e)
              /\ (is_Exception e = true ->
                  forall w2,
                    checkpoint_on_failure os compiler_name
                      (config.repro_level (cfg w1)) gm
                      (copy_tensor_attrs backend real_inputs) w1 = (Ok tt, w2) ->
                    fst (deferred_for_real_inputs os backend compiler compiler_name gm
                           example_inputs inner real_inputs w) = Raise e))
        /\ (config.repro_after (cfg w) = Some "aot" ->
            config.repro_level (cfg w) = 4 ->
            compiler_name = "inductor" ->
            (forall w1 w2,
               backend_aot_accuracy_fails backend gm real_inputs compiler (patched w)
                 = (Ok false, w1) ->
               inner real_inputs w1 = (Raise e, w2) ->
               fst (deferred_for_real_inputs os backend compiler compiler_name gm
                      example_inputs inner real_inputs w) = Raise e)
            /\ (forall w1 w2 w3,
                  backend_aot_accuracy_fails backend gm real_inputs compiler (patched w)
                    = (Ok true, w1) ->
                  dump_compiler_graph_state os gm real_inputs
                    (compiler_name ++ "_accuracy")
                    (with_effect w1
                       (Logged (LogRecord WARNING
                                  "Accuracy failed for the AOT Autograd graph %s"
                                  [get_aot_graph_name backend])))
                    = (Ok tt, w2) ->
                  dump_to_minify os gm real_inputs (compiler_name ++ "_accuracy") w2
                    = (Ok tt, w3) ->
                  fst (deferred_for_real_inputs os backend compiler compiler_name gm
                         example_inputs inner real_inputs w)
                  = Raise (AccuracyError "Bad accuracy detected"))))
  /\ (forall os gm args compiler_name w e,
        subdir_available os (path_join (minifier_dir os) "checkpoints") ->
        open_write_raises os
          (path_join (path_join (minifier_dir os) "checkpoints")
             (pretty (length (fx.nodes gm)) ++ ".py")) = None ->
        Forall supported args ->
        copyfile_raises os
          (path_join (path_join (minifier_dir os) "checkpoints")
             (pretty (length (fx.nodes gm)) ++ ".py"))
          (path_join (getcwd os) "repro.py") = Some e ->
        is_OSError e = true ->
        exists ef,
          dump_compiler_graph_state os gm args compiler_name w
          = (Ok tt,
             mkWorld (cfg w)
               (effects w ++ ef ++
                  [Logged (LogRecord WARNING "No write permissions for %s"
                             [path_join (getcwd os) "repro.py"])]))).
Proof.
  split; [|split].
  - intros os backend compiler compiler_name gm example_inputs w e w1 Ha Hc. split.
    + intros [Hoff|He].
      * now apply debug_wrapper_compile_raises_capture_off.
      * now apply debug_wrapper_compile_raises_not_Exception.
    + intros He Hon w2 Hd.
      now rewrite (debug_wrapper_compile_raises_dump_ok _ _ _ _ _ _ _ _ _ _
                     Ha Hc He Hon Hd).
  - intros os backend compiler compiler_name gm example_inputs inner real_inputs w e.
    split; [|split].
    + intros Hoff w1 Hi. rewrite deferred_capture_off by exact Hoff. exact Hi.
    + intros Hon wq w1 Hpre Hl Hi.
      rewrite (deferred_capture_on _ _ _ _ _ _ _ _ _ Hon). simpl. split.
      * intros He.
        now rewrite (inner_debug_invocation_raises_not_Exception _ _ _ _ _ _ _ _ _ _ _ _
                       Hpre Hl Hi He).
      * intros He w2 Hd.
        now rewrite (inner_debug_invocation_raises_dump_ok _ _ _ _ _ _ _ _ _ _ _ _ _
                       Hpre Hl Hi He Hd).
    + intros Hon Hl Hn.
      assert (Hlp : config.repro_level (cfg (patched w)) = 4) by exact Hl.
      rewrite (deferred_capture_on _ _ _ _ _ _ _ _ _ Hon). simpl. split.
      * intros w1 w2 Hacc Hi.
        rewrite (inner_debug_level4_accuracy_ok _ _ _ _ _ _ _ _ _ _ Hlp Hn Hacc).
        now rewrite Hi.
      * intros w1 w2 w3 Hacc Hd1 Hd2.
        now rewrite (inner_debug_level4_bad_accuracy _ _ _ _ _ _ _ _ _ _ _ _
                       Hlp Hn Hacc Hd1 Hd2).
  - intros os gm args compiler_name w e.
    apply dump_compiler_graph_state_copy_failure.
Qed.

Lemma capture_reraises_original_when_dumps_return_witness :
  fst (debug_wrapper (example_os 0) (example_backend (Ok (ObjSeq [])) false)
         failing_compiler "inductor" example_graph example_inputs
         (world0 (Some "aot") 1))
    = Raise (RuntimeError "boom")
  /\ fst (deferred_for_real_inputs (example_os 0)
            (example_backend (Ok (ObjSeq [])) false) failing_compiler "inductor"
            example_graph example_inputs
            (example_callable (Raise (RuntimeError "boom"))) example_inputs
            (world0 (Some "aot") 2))
       = Raise (RuntimeError "boom")
  /\ fst (deferred_for_real_inputs (example_os 0)
            (example_backend (Ok (ObjSeq [])) false) failing_compiler "inductor"
            example_graph example_inputs
            (example_callable (Raise (RuntimeError "boom"))) example_inputs
            (world0 (Some "aot") 4))
       = Raise (RuntimeError "boom")
  /\ exists ef,
       dump_compiler_graph_state read_only_cwd_os example_graph example_inputs
         "inductor" (world0 (Some "aot") 1)
       = (Ok tt,
          mkWorld (config.mk (Some "aot") 1 false)
            ([] ++ ef ++
               [Logged (LogRecord WARNING "No write permissions for %s"
                          ["/work/repro.py"])])).
Proof.
  destruct capture_reraises_original_when_dumps_return as (H1 & H2 & H3).
  split; [|split; [|split]].
  - destruct (H1 (example_os 0) (example_backend (Ok (ObjSeq [])) false)
                failing_compiler "inductor" example_graph example_inputs
                (world0 (Some "aot") 1) (RuntimeError "boom")
                (world0 (Some "aot") 1)) as [_ H].
    + unfold repro_after_allowed. simpl. repeat constructor.
    + reflexivity.
    + eapply H; [reflexivity | reflexivity | vm_compute; reflexivity].
  - destruct (H2 (example_os 0) (example_backend (Ok (ObjSeq [])) false)
                failing_compiler "inductor" example_graph example_inputs
                (example_callable (Raise (RuntimeError "boom"))) example_inputs
                (world0 (Some "aot") 2) (RuntimeError "boom")) as (_ & H & _).
    edestruct (H eq_refl) as [_ H'].
    + vm_compute. reflexivity.
    + simpl. discriminate.
    + reflexivity.
    + eapply H'; [reflexivity | vm_compute; reflexivity].
  - destruct (H2 (example_os 0) (example_backend (Ok (ObjSeq [])) false)
                failing_compiler "inductor" example_graph example_inputs
                (example_callable (Raise (RuntimeError "boom"))) example_inputs
                (world0 (Some "aot") 4) (RuntimeError "boom")) as (_ & _ & H).
    destruct (H eq_refl eq_refl eq_refl) as [H' _].
    eapply H'; [vm_compute; reflexivity | reflexivity].
  - apply (H3 read_only_cwd_os example_graph example_inputs "inductor"
             (world0 (Some "aot") 1) (OSError "Permission denied")).
    + left. reflexivity.
    + reflexivity.
    + repeat constructor.
    + reflexivity.
    + reflexivity.
Defined.

(** ** The analyzer *)

Lemma diff_values_zip (tuple1 tuple2 : list MetaField) :
  length tuple1 = length tuple2 ->
  diff_values tuple1 tuple2
  = Ok (filter (fun ab => fst ab ≠ snd ab) (zip tuple1 tuple2)).
Proof.
  revert tuple2. induction tuple1 as [|a rest1 IH]; intros [|b rest2] Hlen;
    try discriminate; [reflexivity|].
  simpl. rewrite IH by (simpl in Hlen; lia).
  rewrite filter_cons. simpl. now destruct (decide (a ≠ b)).
Qed.

Lemma filter_diff_nil (tuple1 tuple2 : list MetaField) :
  length tuple1 = length tuple2 ->
  filter (fun ab => fst ab ≠ snd ab) (zip tuple1 tuple2) = [] <-> tuple1 = tuple2.
Proof.
  revert tuple2. induction tuple1 as [|a rest1 IH]; intros [|b rest2] Hlen;
    try discriminate; [easy|].
  simpl. rewrite filter_cons. simpl.
  destruct (decide (a ≠ b)) as [Hne|Heq].
  - split; [discriminate|]. intros [= -> _]. contradiction.
  - apply dec_stable in Heq. subst b. rewrite IH by (simpl in Hlen; lia).
    split; [now intros ->|now intros [= ->]].
Qed.

Lemma compare_tuples_metadata (a b : torch.Tensor) st :
  compare_tuples (compute_tensor_metadata a) (compute_tensor_metadata b) st
  = (Ok (if decide (compute_tensor_metadata a = compute_tensor_metadata b)
         then None
         else Some (metadata_reason (compute_tensor_metadata a)
                                    (compute_tensor_metadata b))),
     st).
Proof.
  unfold compare_tuples, metadata_reason.
  rewrite diff_values_zip by reflexivity.
  pose proof (filter_diff_nil (compute_tensor_metadata a) (compute_tensor_metadata b)
                eq_refl) as Hnil.
  destruct (filter _ _) as [|d ds] eqn:Hf.
  - destruct (decide _) as [_|Hne]; [reflexivity|]. destruct Hne. now apply Hnil.
  - destruct (decide _) as [Heq|_]; [|reflexivity].
    apply Hnil in Heq. discriminate.
Qed.

Lemma check_hook_spec name val st first :
  Analysis.tensors st !! path_join "inductor" name = Some first ->
  check_hook name val st
  = (Ok tt,
     Analysis.mk (Analysis.known_names st) (Analysis.tensors st)
       (Analysis.written st ++ nondeterminism_lines (Analysis.tensors st) (name, val))
       (Analysis.ticks st + 1)).
Proof.
  intros Hf. unfold check_hook, Analysis.read_tensor_metadata.
  unfold bind at 1. unfold bind at 1. unfold Analysis.read_tensor at 1. rewrite Hf.
  unfold ret at 1. unfold bind at 1. rewrite compare_tuples_metadata.
  unfold nondeterminism_lines. simpl. rewrite Hf.
  destruct (decide _); unfold_monad;
    unfold Analysis.pbar_write, Analysis.pbar_update; unfold_monad; simpl.
  - now rewrite app_nil_r.
  - reflexivity.
Qed.

Lemma check_pass_spec intermediates st :
  (forall nv, nv ∈ intermediates ->
     is_Some (Analysis.tensors st !! path_join "inductor" (fst nv))) ->
  run_hooked check_hook intermediates st
  = (Ok tt,
     Analysis.mk (Analysis.known_names st) (Analysis.tensors st)
       (Analysis.written st
          ++ flat_map (nondeterminism_lines (Analysis.tensors st)) intermediates)
       (Analysis.ticks st + Z.of_nat (length intermediates))).
Proof.
  revert st. induction intermediates as [|[name val] rest IH]; intros st Hall.
  - simpl. unfold ret. destruct st. simpl. rewrite app_nil_r. f_equal. f_equal. lia.
  - destruct (Hall (name, val)) as [first Hf]; [left|]. simpl in Hf.
    cbn [run_hooked]. rewrite (bind_Ok _ _ _ _ _ (check_hook_spec _ val _ _ Hf)).
    rewrite IH.
    + cbn [Analysis.known_names Analysis.tensors Analysis.written Analysis.ticks
           flat_map].
      rewrite <- app_assoc. f_equal. f_equal. rewrite length_cons. lia.
    + intros nv Hin. simpl. apply Hall. now right.
Qed.

Lemma save_pass_spec options intermediates st :
  options.skip_saving_inductor_intermediates options = false ->
  run_hooked (save_hook options) intermediates st
  = (Ok tt,
     Analysis.mk (names_after intermediates (Analysis.known_names st))
       (saved_inductor intermediates (Analysis.tensors st))
       (Analysis.written st)
       (Analysis.ticks st + Z.of_nat (length intermediates))).
Proof.
  intros Hskip. revert st.
  induction intermediates as [|[name val] rest IH]; intros st.
  - simpl. unfold ret. destruct st. simpl. f_equal. f_equal. lia.
  - cbn [run_hooked]. unfold save_hook at 1. rewrite Hskip.
    unfold Analysis.known_names_add, Analysis.write_tensor, Analysis.pbar_update.
    unfold_monad. cbn [negb]. rewrite IH. simpl. f_equal. f_equal. lia.
Qed.

Lemma saved_inductor_keeps intermediates tensors k :
  is_Some (tensors !! k) -> is_Some (saved_inductor intermediates tensors !! k).
Proof.
  revert tensors. induction intermediates as [|nv rest IH]; intros tensors H;
    [exact H|].
  simpl. apply IH. destruct (decide (path_join "inductor" (fst nv) = k)) as [->|Hne].
  - rewrite lookup_insert_eq. eauto.
  - now rewrite lookup_insert_ne.
Qed.

Lemma saved_inductor_has intermediates tensors name :
  name ∈ map fst intermediates ->
  is_Some (saved_inductor intermediates tensors !! path_join "inductor" name).
Proof.
  revert tensors. induction intermediates as [|nv rest IH]; intros tensors Hin.
  - inversion Hin.
  - simpl in *. apply elem_of_cons in Hin as [->|Hin].
    + apply saved_inductor_keeps. rewrite lookup_insert_eq. eauto.
    + now apply IH.
Qed.

(** C4: the determinism check runs the compiled function a second time
    and, for every hooked intermediate, compares the structural metadata
    [compute_tensor_metadata] gives with the metadata stored by the first
    run, writing a line [NONDETERMINISTIC INDUCTOR at <name> (<reason>)]
    exactly for those that differ.  Content is not looked at: metadata
    that agree give no line, whatever the data.  An intermediate whose
    shape differs on the second run is reported at its node.  The line is
    never one of the [DIVERGED at ...] lines of the divergence pass. *)
Theorem determinism_check_compares_metadata :
  (forall options first_run second_run st,
     options.skip_saving_inductor_intermediates options = false ->
     (forall name, name ∈ map fst second_run -> name ∈ map fst first_run) ->
     exists st',
       (let! _ := run_hooked (save_hook options) first_run in
        run_hooked check_hook second_run) st = (Ok tt, st')
       /\ Analysis.written st' =
            (Analysis.written st
               ++ flat_map
                    (nondeterminism_lines
                       (saved_inductor first_run (Analysis.tensors st)))
                    second_run)%list)
  /\ (forall tensors name val first,
        tensors !! path_join "inductor" name = Some first ->
        (compute_tensor_metadata val = compute_tensor_metadata first ->
         nondeterminism_lines tensors (name, val) = [])
        /\ (torch.shape val ≠ torch.shape first ->
            nondeterminism_lines tensors (name, val) =
              ["NONDETERMINISTIC INDUCTOR at " ++ name ++ " ("
                 ++ metadata_reason (compute_tensor_metadata val)
                                    (compute_tensor_metadata first) ++ ")"]))
  /\ (forall name reason name' msg,
        "NONDETERMINISTIC INDUCTOR at " ++ name ++ " (" ++ reason ++ ")"
        ≠ "DIVERGED at " ++ name' ++ ": " ++ msg).
Proof.
  split; [|split].
  - intros options first_run second_run st Hskip Hnames.
    erewrite bind_Ok by (apply save_pass_spec; exact Hskip).
    rewrite check_pass_spec.
    + eexists. split; reflexivity.
    + intros [name val] Hin. simpl. apply saved_inductor_has, Hnames.
      apply (list_elem_of_fmap_2 fst _ (name, val)). exact Hin.
  - intros tensors name val first Hf. unfold nondeterminism_lines. simpl.
    rewrite Hf. split.
    + intros Heq. destruct (decide _); [reflexivity|contradiction].
    + intros Hshape. destruct (decide _) as [Heq|_]; [|reflexivity].
      injection Heq as Hs _. contradiction.
  - intros name reason name' msg. discriminate.
Qed.

Lemma determinism_check_compares_metadata_witness :
  (exists st',
     (let! _ := run_hooked (save_hook (example_options false))
                  [("buf0", tensor_of_shape [2; 3] [1]);
                   ("buf1", tensor_of_shape [2; 3] [1])] in
      run_hooked check_hook
        [("buf0", tensor_of_shape [2; 3] [2]);
         ("buf1", tensor_of_shape [3; 2] [1])]) analysis0 = (Ok tt, st')
     /\ Analysis.written st' =
          ["NONDETERMINISTIC INDUCTOR at buf1 ((3, 2) != (2, 3) and (2, 1) != (3, 1))"])
  /\ nondeterminism_lines {["inductor/buf0" := tensor_of_shape [2; 3] [1]]}
       ("buf0", tensor_of_shape [2; 3] [2]) = []
  /\ nondeterminism_lines {["inductor/buf0" := tensor_of_shape [2; 3] [1]]}
       ("buf0", tensor_of_shape [3; 2] [1])
     = ["NONDETERMINISTIC INDUCTOR at buf0 ((3, 2) != (2, 3) and (2, 1) != (3, 1))"].
Proof.
  destruct determinism_check_compares_metadata as (H1 & H2 & _).
  split; [|split].
  - destruct (H1 (example_options false)
                [("buf0", tensor_of_shape [2; 3] [1]);
                 ("buf1", tensor_of_shape [2; 3] [1])]
                [("buf0", tensor_of_shape [2; 3] [2]);
                 ("buf1", tensor_of_shape [3; 2] [1])]
                analysis0 eq_refl) as (st' & Hr & Hw).
    + intros name Hin. exact Hin.
    + exists st'. split; [exact Hr|]. rewrite Hw. vm_compute. reflexivity.
  - apply (H2 {["inductor/buf0" := tensor_of_shape [2; 3] [1]]} "buf0"
             (tensor_of_shape [2; 3] [2]) (tensor_of_shape [2; 3] [1]));
      [vm_compute; reflexivity | reflexivity].
  - destruct (H2 {["inductor/buf0" := tensor_of_shape [2; 3] [1]]} "buf0"
                (tensor_of_shape [3; 2] [1]) (tensor_of_shape [2; 3] [1]))
      as [_ H]; [vm_compute; reflexivity|].
    rewrite H by discriminate. vm_compute. reflexivity.
Defined.

Lemma write_lines_spec ls st :
  write_lines ls st
  = (Ok tt,
     Analysis.mk (Analysis.known_names st) (Analysis.tensors st)
       (Analysis.written st ++ ls) (Analysis.ticks st)).
Proof.
  revert st. induction ls as [|l rest IH]; intros st.
  - simpl. unfold ret. destruct st; simpl. now rewrite app_nil_r.
  - simpl. unfold bind at 1. unfold Analysis.pbar_write, modify. rewrite IH.
    simpl. now rewrite <- app_assoc.
Qed.

Lemma ReaderInterp_run_node_spec oracle n st :
  traced (Analysis.known_names st) (Analysis.tensors st) n ->
  ReaderInterp_run_node oracle n st
  = (Ok (eager_node oracle n),
     Analysis.mk (Analysis.known_names st) (Analysis.tensors st)
       (Analysis.written st
          ++ divergence_lines oracle (Analysis.known_names st) (Analysis.tensors st) n)
       (Analysis.ticks st
        + if decide (fx.name n ∈ Analysis.known_names st) then 1 else 0)).
Proof.
  intros Ht. unfold ReaderInterp_run_node, divergence_lines.
  unfold bind at 1. unfold get at 1.
  destruct (decide (fx.name n ∈ Analysis.known_names st)) as [Hin|Hout].
  - destruct (Ht Hin) as [[i Hi] [f Hf]]. rewrite Hi, Hf.
    unfold bind at 1. unfold bind at 1. unfold Analysis.read_tensor at 1. rewrite Hi.
    unfold bind at 1. unfold Analysis.read_tensor at 1. rewrite Hf.
    unfold same.
    destruct (allclose oracle (eager_node oracle n) i),
             (allclose oracle (eager_node oracle n) f);
      cbn [andb negb snd app map];
      (unfold bind at 1; rewrite write_lines_spec);
      unfold_monad; unfold Analysis.pbar_update; unfold_monad; reflexivity.
  - unfold_monad. destruct st; simpl. rewrite app_nil_r. f_equal. f_equal. lia.
Qed.

Lemma divergence_pass_spec oracle nodes st :
  (forall n, n ∈ nodes -> traced (Analysis.known_names st) (Analysis.tensors st) n) ->
  exists t,
    boxed_run (ReaderInterp_run_node oracle) nodes st
    = (Ok tt,
       Analysis.mk (Analysis.known_names st) (Analysis.tensors st)
         (Analysis.written st
            ++ flat_map
                 (divergence_lines oracle (Analysis.known_names st) (Analysis.tensors st))
                 (upto_output nodes))
         t).
Proof.
  revert st. induction nodes as [|n rest IH]; intros st Hall.
  - exists (Analysis.ticks st). simpl. unfold ret. destruct st; simpl.
    now rewrite app_nil_r.
  - cbn [boxed_run upto_output].
    erewrite bind_Ok by (apply ReaderInterp_run_node_spec, Hall; left).
    destruct (decide (fx.op n = "output")).
    + eexists. unfold ret. simpl. now rewrite app_nil_r.
    + edestruct IH as [t Ht]; [|rewrite Ht].
      * intros m Hm. simpl. apply Hall. now right.
      * exists t. simpl. now rewrite <- app_assoc.
Qed.

Lemma divergence_lines_agree oracle known tensors n :
  diverges oracle known tensors n = false ->
  divergence_lines oracle known tensors n = [].
Proof.
  unfold diverges, divergence_lines, same.
  destruct (decide (fx.name n ∈ known)) as [Hin|Hout]; [|reflexivity].
  rewrite bool_decide_eq_true_2 by exact Hin. simpl.
  destruct (tensors !! _) as [i|]; [|reflexivity].
  destruct (tensors !! _) as [f|]; [|reflexivity].
  destruct (allclose oracle _ i), (allclose oracle _ f); simpl;
    (reflexivity || discriminate).
Qed.

Lemma divergence_lines_disagree oracle known tensors n :
  diverges oracle known tensors n = true ->
  exists msg rest,
    divergence_lines oracle known tensors n
    = ("DIVERGED at " ++ fx.name n ++ ": " ++ msg) :: rest
    /\ (msg = "original disagrees with inductor beyond tolerance"
        \/ msg = "original disagrees with float64 beyond tolerance").
Proof.
  unfold diverges, divergence_lines, same.
  destruct (decide (fx.name n ∈ known)) as [Hin|Hout].
  - rewrite bool_decide_eq_true_2 by exact Hin. simpl.
    destruct (tensors !! _) as [i|]; [|discriminate].
    destruct (tensors !! _) as [f|]; [|discriminate].
    destruct (allclose oracle _ i), (allclose oracle _ f); simpl;
      try discriminate; intros _; eexists _, _; split; try reflexivity; auto.
  - rewrite bool_decide_eq_false_2 by exact Hout. discriminate.
Qed.

Lemma flat_map_all_nil {A B} (f : A -> list B) (l : list A) :
  (forall x, x ∈ l -> f x = []) -> flat_map f l = [].
Proof.
  induction l as [|x l IH]; intros H; [reflexivity|].
  simpl. rewrite (H x) by left. apply IH. intros y Hy. apply H. now right.
Qed.

(** C3: the divergence pass visits the nodes in emission order; at every
    node that is compared (its name is known and both traces are stored) the
    original value is compared with the stored inductor value and with the
    stored float64 value, and one line [DIVERGED at <name>: <which>] is
    written per failed comparison.  So the first line written names the
    first node, in emission order, whose original value disagrees with
    either of the two. *)
Theorem first_divergence_is_reported oracle nodes st :
  (forall n, n ∈ nodes -> traced (Analysis.known_names st) (Analysis.tensors st) n) ->
  exists st',
    boxed_run (ReaderInterp_run_node oracle) nodes st = (Ok tt, st')
    /\ Analysis.written st' =
         (Analysis.written st
            ++ flat_map
                 (divergence_lines oracle (Analysis.known_names st) (Analysis.tensors st))
                 (upto_output nodes))%list
    /\ (forall pre n post,
          upto_output nodes = (pre ++ n :: post)%list ->
          (forall m, m ∈ pre ->
             diverges oracle (Analysis.known_names st) (Analysis.tensors st) m = false) ->
          diverges oracle (Analysis.known_names st) (Analysis.tensors st) n = true ->
          exists msg rest,
            Analysis.written st' =
              (Analysis.written st
                 ++ ("DIVERGED at " ++ fx.name n ++ ": " ++ msg)%string :: rest)%list
            /\ (msg = "original disagrees with inductor beyond tolerance"
                \/ msg = "original disagrees with float64 beyond tolerance")).
Proof.
  intros Hall. destruct (divergence_pass_spec oracle nodes st Hall) as [t Ht].
  eexists. split; [exact Ht|]. split; [reflexivity|].
  intros pre n post Hsplit Hpre Hn. cbn [Analysis.written].
  rewrite Hsplit, flat_map_app.
  rewrite (flat_map_all_nil _ pre)
    by (intros m Hm; apply divergence_lines_agree, Hpre, Hm).
  destruct (divergence_lines_disagree _ _ _ _ Hn) as (msg & rest & Hl & Hmsg).
  exists msg, (rest ++ flat_map
                 (divergence_lines oracle (Analysis.known_names st) (Analysis.tensors st))
                 post)%list.
  split; [|exact Hmsg]. simpl. now rewrite Hl.
Qed.

Lemma first_divergence_is_reported_witness :
  exists st',
    boxed_run (ReaderInterp_run_node chain_oracle) chain_nodes chain_state = (Ok tt, st')
    /\ Analysis.written st'
       = ["DIVERGED at C: original disagrees with inductor beyond tolerance"]
    /\ exists msg rest,
         Analysis.written st' = ([] ++ ("DIVERGED at C: " ++ msg)%string :: rest)%list.
Proof.
  destruct (first_divergence_is_reported chain_oracle chain_nodes chain_state)
    as (st' & Hr & Hw & Hfirst).
  - intros n Hn Hin.
    repeat (apply elem_of_cons in Hn as [->|Hn]); [| | | |inversion Hn].
    + split; eexists; vm_compute; reflexivity.
    + split; eexists; vm_compute; reflexivity.
    + split; eexists; vm_compute; reflexivity.
    + apply (bool_decide_eq_true_2 _) in Hin. vm_compute in Hin. discriminate Hin.
  - exists st'. split; [exact Hr|]. split.
    + rewrite Hw. vm_compute. reflexivity.
    + destruct (Hfirst [fx.mkNode "A" "call_function"; fx.mkNode "B" "call_function"]
                  (fx.mkNode "C" "call_function") [fx.mkNode "output" "output"])
        as (msg & rest & Hl & _).
      * reflexivity.
      * intros m Hm.
        repeat (apply elem_of_cons in Hm as [->|Hm]); [| |inversion Hm];
          vm_compute; reflexivity.
      * vm_compute. reflexivity.
      * exists msg, rest. exact Hl.
Defined.

(** The same chain through all the passes of the analyzer: the only line
    written is the divergence at C. *)
Example analyze_chain_reports_C :
  Analysis.written (snd (analyze_passes chain_oracle (example_options false)
                           (fx.mkGraphModule [] chain_nodes "") analysis0))
  = ["DIVERGED at C: original disagrees with inductor beyond tolerance"].
Proof. vm_compute. reflexivity. Qed.

(** ** Writing a session and replaying it *)

Lemma load_args_from_app randn l1 l2 env r :
  InputReader.load_args_from randn env (l1 ++ l2) r
  = match InputReader.load_args_from randn env l1 r with
    | (Ok env', r') => InputReader.load_args_from randn env' l2 r'
    | (Raise e, r') => (Raise e, r')
    end.
Proof.
  revert env r. induction l1 as [|i l1 IH]; intros env r; [reflexivity|].
  simpl. unfold bind.
  destruct (InputReader.exec randn env i r) as [[env'|e] r']; [apply IH|reflexivity].
Qed.

Lemma stride_default_roundtrip (sh st : list Z) :
  _stride_or_default
    (if decide (make_contiguous_strides_for sh ≠ st) then Some st else None) sh = st.
Proof.
  destruct (decide _) as [_|H]; [reflexivity|]. simpl. now apply dec_stable in H.
Qed.

Lemma offset_default_roundtrip (o : Z) :
  _storage_offset_or_default (if decide (0 ≠ o) then Some o else None) = o.
Proof.
  destruct (decide _) as [_|H]; [reflexivity|]. simpl. now apply dec_stable in H.
Qed.

Lemma dtype_default_roundtrip (d : torch.dtype) :
  _dtype_or_default (if decide (torch.float32 ≠ d) then Some d else None) = d.
Proof.
  destruct (decide _) as [_|H]; [reflexivity|]. simpl. now apply dec_stable in H.
Qed.

Lemma dtype_hint_default_roundtrip (d : torch.dtype) :
  _dtype_or_default
    (if decide (torch.float32 ≠ _dtype_or_default (Some d)) then Some d else None) = d.
Proof. apply dtype_default_roundtrip. Qed.

Lemma device_default_roundtrip (d : torch.device) :
  _device_or_default (if decide (torch.cpu ≠ d) then Some d else None) = d.
Proof.
  destruct (decide _) as [_|H]; [reflexivity|]. simpl. now apply dec_stable in H.
Qed.

Lemma reader_tensor_line randn env r v name t s :
  env !! v = Some s ->
  InputReader.exec randn env (tensor_line v name t) r
  = (Ok env,
     InputReader.mk (InputReader.store r)
       (InputReader.args r ++ [ArgTensor (rebuilt t s)])
       (InputReader.pbar r) (InputReader.log r) (InputReader.allocated r)).
Proof.
  intros He. unfold tensor_line. simpl. rewrite He.
  unfold InputReader.tensor, InputReader.args_append. unfold_monad. simpl.
  rewrite stride_default_roundtrip, offset_default_roundtrip, dtype_default_roundtrip.
  reflexivity.
Qed.

Lemma reader_symint_line randn env r val name :
  InputReader.exec randn env (ISymint val name) r
  = (Ok env,
     InputReader.mk (InputReader.store r)
       (InputReader.args r ++ [ArgInt (Int val)])
       (InputReader.pbar r) (InputReader.log r) (InputReader.allocated r)).
Proof. reflexivity. Qed.

Lemma recorded_hash_line_hash w s : recorded_hash w s = line_hash (hash_fn w) s.
Proof.
  unfold recorded_hash, line_hash, hash_fn.
  destruct (InputWriter.store w); simpl; now destruct (decide _).
Qed.

Lemma reader_storage_line randn env r w t0 :
  exists s r',
    InputReader.exec randn env
      (storage_line w (torch.untyped_storage t0) (Some (torch.t_dtype t0))
         (Some (torch.t_device t0))) r
    = (Ok (<["buf" ++ pretty (InputWriter.storage_counter w) := s]> env), r')
    /\ InputReader.store r' = InputReader.store r
    /\ InputReader.args r' = InputReader.args r
    /\ reconstructed (InputReader.store r) (hash_fn w) t0 s.
Proof.
  unfold storage_line. cbn [InputReader.exec].
  rewrite recorded_hash_line_hash. unfold reconstructed.
  destruct (stored_content (InputReader.store r)
              (line_hash (hash_fn w) (torch.untyped_storage t0))) as [stored|] eqn:Hc.
  - erewrite bind_Ok by (apply storage_hit; exact Hc).
    eexists _, _. split; [reflexivity|].
    destruct (decide _); simpl; rewrite ?ticked_store, ?ticked_args; auto.
  - erewrite bind_Ok by (apply storage_miss; exact Hc).
    eexists _, _. split; [reflexivity|]. simpl.
    rewrite ticked_store, ticked_args. split; [reflexivity|]. split; [reflexivity|].
    rewrite device_default_roundtrip, dtype_default_roundtrip. auto.
Qed.

Lemma bufname_inj k1 k2 : bufname k1 = bufname k2 -> k1 = k2.
Proof.
  unfold bufname. simpl. intros H. injection H as H. exact (pretty_nat_inj _ _ H).
Qed.

Lemma arg_lines_app l1 l2 : arg_lines (l1 ++ l2) = (arg_lines l1 ++ arg_lines l2)%list.
Proof. apply omap_app. Qed.

Lemma storage_names_app l1 l2 :
  storage_names (l1 ++ l2) = (storage_names l1 ++ storage_names l2)%list.
Proof. apply omap_app. Qed.

Lemma hash_fn_store_after w s :
  option_map ContentStoreWriter.hash_storage (store_after w s) = hash_fn w.
Proof.
  unfold store_after, hash_fn. destruct (InputWriter.store w) as [st|]; [|reflexivity].
  destruct (decide _); [|reflexivity]. simpl.
  unfold ContentStoreWriter.write_storage.
  now destruct (ContentStoreWriter.files st !! _).
Qed.

Lemma session_step randn rstore hf r0 done w env r placeholder arg :
  session_inv rstore hf done w env r ->
  InputReader.load_args_from randn ∅ (InputWriter._lines w) r0 = (Ok env, r) ->
  supported arg ->
  exists env' r',
    InputReader.load_args_from randn ∅
      (InputWriter._lines (after_arg placeholder arg w)) r0 = (Ok env', r')
    /\ session_inv rstore hf (done ++ [arg]) (after_arg placeholder arg w) env' r'.
Proof.
  intros [Hh Hs Hn Hi He Hl Ha Hal] Hload Hsup.
  destruct arg as [i|t|o]; [| |destruct Hsup]; cbn [after_arg].
  - (* an int *)
    unfold after_symint. cbn [InputWriter._lines].
    rewrite load_args_from_app, Hload. cbn [InputReader.load_args_from].
    unfold bind. rewrite reader_symint_line. unfold ret.
    eexists _, _. split; [reflexivity|].
    constructor; cbn.
    + exact Hh.
    + exact Hs.
    + exact Hn.
    + exact Hi.
    + intros sid v Hv. destruct (He sid v Hv) as (s & t0 & H1 & H2 & H3 & H4).
      exists s, t0. repeat split; try assumption. apply elem_of_app. now left.
    + rewrite storage_names_app, Hl. cbn. now rewrite app_nil_r.
    + apply Forall2_app; [exact Ha|]. constructor; [|constructor]. reflexivity.
    + rewrite arg_lines_app. apply Forall2_app; [exact Hal|].
      constructor; [|constructor]. cbn. eexists. destruct i; reflexivity.
  - (* a tensor *)
    unfold after_tensor.
    destruct (InputWriter.seen_storages w !! torch.sid (torch.untyped_storage t))
      as [v|] eqn:Hseen.
    + (* its storage has a name already *)
      cbn [InputWriter._lines].
      destruct (He _ _ Hseen) as (s & t0 & Hes & Ht0 & Hsid & Hrec).
      rewrite load_args_from_app, Hload. cbn [InputReader.load_args_from].
      unfold bind. rewrite (reader_tensor_line _ _ _ _ _ _ _ Hes). unfold ret.
      eexists _, _. split; [reflexivity|].
      constructor; cbn.
      * exact Hh.
      * exact Hs.
      * exact Hn.
      * exact Hi.
      * intros sid' v' Hv'. destruct (He sid' v' Hv') as (s' & t' & H1 & H2 & H3 & H4).
        exists s', t'. repeat split; try assumption. apply elem_of_app. now left.
      * rewrite storage_names_app, Hl. cbn. now rewrite app_nil_r.
      * apply Forall2_app; [exact Ha|]. constructor; [|constructor].
        cbn. exists v, s. auto.
      * rewrite arg_lines_app. apply Forall2_app; [exact Hal|].
        constructor; [|constructor]. cbn. exists v, placeholder. auto.
    + (* a storage seen for the first time *)
      cbn [InputWriter._lines].
      set (n := InputWriter.storage_counter w).
      assert (Hfresh : forall sid' v',
                 InputWriter.seen_storages w !! sid' = Some v' -> v' ≠ bufname n).
      { intros sid' v' Hv' Heq. destruct (Hn _ _ Hv') as (k & Hk & ->).
        apply bufname_inj in Heq. unfold n in Heq. lia. }
      rewrite load_args_from_app, Hload.
      cbn [InputReader.load_args_from]. unfold bind at 1.
      destruct (reader_storage_line randn env r w t) as (s & r1 & Hex & Hst & Hargs & Hrec).
      rewrite Hex. fold (bufname n).
      unfold bind at 1.
      rewrite (reader_tensor_line randn _ r1 (bufname n) placeholder t s)
        by apply lookup_insert_eq.
      unfold ret.
      eexists _, _. split; [reflexivity|].
      constructor;
        cbn [InputWriter._lines InputWriter.storage_counter InputWriter.store
             InputWriter.seen_storages InputReader.store InputReader.args].
      * unfold hash_fn at 1. cbn [InputWriter.store].
        rewrite hash_fn_store_after. exact Hh.
      * now rewrite Hst.
      * intros sid' v' Hv'.
        destruct (decide (torch.sid (torch.untyped_storage t) = sid')) as [<-|Hne].
        -- rewrite lookup_insert_eq in Hv'. injection Hv' as <-.
           exists n. split; [lia|reflexivity].
        -- rewrite lookup_insert_ne in Hv' by exact Hne.
           destruct (Hn _ _ Hv') as (k & Hk & ->). exists k. split; [lia|reflexivity].
      * intros s1 s2 v' H1 H2.
        destruct (decide (torch.sid (torch.untyped_storage t) = s1)) as [<-|Hne1];
          destruct (decide (torch.sid (torch.untyped_storage t) = s2)) as [<-|Hne2];
          try reflexivity.
        -- rewrite lookup_insert_eq in H1. injection H1 as <-.
           rewrite lookup_insert_ne in H2 by exact Hne2.
           now destruct (Hfresh _ _ H2).
        -- rewrite lookup_insert_eq in H2. injection H2 as <-.
           rewrite lookup_insert_ne in H1 by exact Hne1.
           now destruct (Hfresh _ _ H1).
        -- rewrite lookup_insert_ne in H1 by exact Hne1.
           rewrite lookup_insert_ne in H2 by exact Hne2. eauto.
      * intros sid' v' Hv'.
        destruct (decide (torch.sid (torch.untyped_storage t) = sid')) as [<-|Hne].
        -- rewrite lookup_insert_eq in Hv'. injection Hv' as <-.
           exists s, t. rewrite lookup_insert_eq. repeat split.
           ++ apply elem_of_app. right. left.
           ++ rewrite <- Hs, <- Hh. exact Hrec.
        -- rewrite lookup_insert_ne in Hv' by exact Hne.
           destruct (He _ _ Hv') as (s' & t' & H1 & H2 & H3 & H4).
           exists s', t'. rewrite lookup_insert_ne by (apply not_eq_sym; eauto).
           repeat split; try assumption. apply elem_of_app. now left.
      * rewrite storage_names_app, Hl. fold n. rewrite seq_S, fmap_app. reflexivity.
      * rewrite Hargs. apply Forall2_app.
        -- eapply Forall2_impl; [exact Ha|].
           intros a ra Hrel. destruct a as [i|t'|o]; cbn in *; [exact Hrel| |exact Hrel].
           destruct Hrel as (v' & s' & H1 & H2 & H3).
           exists v', s'. repeat split; try assumption.
           ++ rewrite lookup_insert_ne; [exact H1|]. intros Heq.
              rewrite Heq in Hseen. rewrite H1 in Hseen. discriminate.
           ++ rewrite lookup_insert_ne; [exact H2|]. apply not_eq_sym. eauto.
        -- constructor; [|constructor]. cbn. exists (bufname n), s.
           rewrite !lookup_insert_eq. auto.
      * rewrite arg_lines_app. apply Forall2_app.
        -- eapply Forall2_impl; [exact Hal|].
           intros a l Hrel. destruct a as [i|t'|o]; cbn in *; [exact Hrel| |exact Hrel].
           destruct Hrel as (v' & name & H1 & H2).
           exists v', name. split; [|exact H2].
           rewrite lookup_insert_ne; [exact H1|]. intros Heq.
           rewrite Heq in Hseen. rewrite H1 in Hseen. discriminate.
        -- constructor; [|constructor]. cbn. exists (bufname n), placeholder.
           rewrite lookup_insert_eq. auto.
Qed.

Lemma after_args_cons p targets a args w :
  after_args (p :: targets) (a :: args) w = after_args targets args (after_arg p a w).
Proof. reflexivity. Qed.

Lemma session_run randn rstore hf r0 targets :
  forall args done w env r,
    length targets = length args ->
    Forall supported args ->
    session_inv rstore hf done w env r ->
    InputReader.load_args_from randn ∅ (InputWriter._lines w) r0 = (Ok env, r) ->
    exists env' r',
      InputReader.load_args_from randn ∅
        (InputWriter._lines (after_args targets args w)) r0 = (Ok env', r')
      /\ session_inv rstore hf (done ++ args) (after_args targets args w) env' r'.
Proof.
  induction targets as [|p targets IH]; intros args done w env r Hlen Hsup Hinv Hload.
  - destruct args; [|discriminate]. exists env, r. rewrite app_nil_r. auto.
  - destruct args as [|a args]; [discriminate|].
    inversion Hsup as [|? ? Ha Hrest]; subst.
    destruct (session_step randn rstore hf r0 done w env r p a Hinv Hload Ha)
      as (env1 & r1 & Hload1 & Hinv1).
    rewrite after_args_cons.
    destruct (IH args (done ++ [a])%list (after_arg p a w) env1 r1)
      as (env2 & r2 & Hload2 & Hinv2);
      try assumption.
    + simpl in Hlen. lia.
    + exists env2, r2. split; [exact Hload2|].
      now rewrite <- app_assoc in Hinv2.
Qed.

(** Replaying the script of a whole session never fails, and the invariant
    holds between the final writer and the final reader. *)
Lemma session_replay randn store rstore pbar targets args :
  length targets = length args ->
  Forall supported args ->
  exists env r,
    InputReader.load_args randn
      (InputWriter._lines (after_args targets args (InputWriter.__init__ store)))
      (InputReader.__init__ rstore pbar) = (Ok env, r)
    /\ session_inv rstore (option_map ContentStoreWriter.hash_storage store) args
         (after_args targets args (InputWriter.__init__ store)) env r.
Proof.
  intros Hlen Hsup. unfold InputReader.load_args.
  destruct (session_run randn rstore (option_map ContentStoreWriter.hash_storage store)
              (InputReader.__init__ rstore pbar) targets args []
              (InputWriter.__init__ store) ∅ (InputReader.__init__ rstore pbar))
    as (env & r & Hload & Hinv); try assumption.
  - constructor; cbn; try reflexivity; try constructor.
    + intros sid v H. rewrite lookup_empty in H. discriminate.
    + intros s1 s2 v H. rewrite lookup_empty in H. discriminate.
    + intros sid v H. rewrite lookup_empty in H. discriminate.
  - reflexivity.
  - exists env, r. auto.
Qed.






(** The session of the witness, run: one storage line, two tensor lines on
    [buf0]. *)
Example shared_storage_script :
  InputWriter.lines
    (snd (write_args ["a"; "n"; "b"]
            [ArgTensor view_a; ArgInt (Int 3); ArgTensor view_b]
            (InputWriter.__init__ None)))
  = ["def load_args(reader):";
     "    buf0 = reader.storage(None, 24)";
     "    reader.tensor(buf0, (2, 3))  # a";
     "    reader.symint(3)  # n";
     "    reader.tensor(buf0, (3,), storage_offset=3)  # b";
     "load_args._version = 0"].
Proof. vm_compute. reflexivity. Qed.

(** ** Defaults: what the writer leaves out and the reader puts back *)





(** ** C2: the round trip *)







(* ===================================================================== *)
(** * Further properties of the code                                      *)
(* ===================================================================== *)

(** ** Counting storages: NopInputReader and the progress bar *)

Lemma nop_load_args_from_counts script :
  forall defined st,
    well_scoped defined script = true ->
    NopInputReader.load_args_from defined script st
    = (Ok (defined ∪ list_to_set (storage_names script)),
       NopInputReader.mk
         (NopInputReader.total st + Z.of_nat (length (storage_names script)))).
Proof.
  induction script as [|i rest IH]; intros defined st Hw.
  - cbn. unfold ret. destruct st; cbn. f_equal; [f_equal; set_solver|].
    f_equal. lia.
  - cbn [NopInputReader.load_args_from]. unfold bind.
    destruct i as [v h n d dh|b sh st' off dt md nm|val nm];
      cbn [NopInputReader.exec well_scoped] in *.
    + unfold NopInputReader.storage, modify, bind, ret.
      rewrite (IH _ _ Hw). unfold storage_names. cbn.
      f_equal; [f_equal; set_solver|]. f_equal. lia.
    + apply andb_prop in Hw as [Hb Hw]. apply bool_decide_eq_true in Hb.
      rewrite decide_True by exact Hb.
      unfold NopInputReader.tensor, bind, ret. rewrite (IH _ _ Hw). reflexivity.
    + unfold NopInputReader.symint, bind, ret. rewrite (IH _ _ Hw). reflexivity.
Qed.

Lemma nop_load_args_counts script st :
  well_scoped ∅ script = true ->
  NopInputReader.load_args script st
  = (Ok tt,
     NopInputReader.mk
       (NopInputReader.total st + Z.of_nat (length (storage_names script)))).
Proof.
  intros Hw. unfold NopInputReader.load_args.
  erewrite bind_Ok by (apply nop_load_args_from_counts; exact Hw). reflexivity.
Qed.

(** What a line that the reader has run did to the variables. *)
Lemma exec_env randn env i r env' r' :
  InputReader.exec randn env i r = (Ok env', r') ->
  match i with
  | IStorage v _ _ _ _ => exists s, env' = <[v := s]> env
  | ITensor b _ _ _ _ _ _ => env' = env /\ is_Some (env !! b)
  | ISymint _ _ => env' = env
  end.
Proof.
  intros H. destruct i as [v h n d dh|b sh st off dt md nm|val nm];
    cbn [InputReader.exec] in H.
  - unfold bind in H.
    destruct (InputReader.storage randn h n d dh r) as [[s|e] r1]; [|discriminate H].
    unfold ret in H. injection H as <- _. eauto.
  - destruct (env !! b) as [s|]; [|discriminate H].
    unfold bind in H.
    destruct (InputReader.tensor s sh st off dt md r) as [[t|e] r1]; [|discriminate H].
    unfold ret in H. injection H as <- _. eauto.
  - unfold bind in H.
    destruct (InputReader.symint val r) as [[t|e] r1]; [|discriminate H].
    unfold ret in H. now injection H as <- _.
Qed.

Lemma load_args_from_well_scoped randn script :
  forall env r env' r',
    InputReader.load_args_from randn env script r = (Ok env', r') ->
    well_scoped (dom env) script = true
    /\ dom env' = dom env ∪ list_to_set (storage_names script).
Proof.
  induction script as [|i rest IH]; intros env r env' r' Hload.
  - cbn in Hload. unfold ret in Hload. injection Hload as <- _.
    split; [reflexivity|]. cbn. set_solver.
  - cbn [InputReader.load_args_from] in Hload. unfold bind in Hload.
    destruct (InputReader.exec randn env i r) as [[env1|e] r1] eqn:Hex;
      [|discriminate Hload].
    apply exec_env in Hex. destruct (IH _ _ _ _ Hload) as [Hw Hdom].
    destruct i as [v h n d dh|b sh st off dt md nm|val nm]; cbn [well_scoped].
    + destruct Hex as [s ->]. rewrite dom_insert_L in Hw, Hdom.
      split; [exact Hw|]. rewrite Hdom. unfold storage_names. cbn. set_solver.
    + destruct Hex as [-> Hb]. split.
      * rewrite bool_decide_eq_true_2 by (now apply elem_of_dom). exact Hw.
      * rewrite Hdom. reflexivity.
    + subst env1. split; [exact Hw|]. rewrite Hdom. reflexivity.
Qed.

Lemma exec_pbar randn env i r env' r' p :
  InputReader.exec randn env i r = (Ok env', r') ->
  InputReader.pbar r = Some p ->
  InputReader.pbar r' = Some (p + if is_storage_instr i then 1 else 0).
Proof.
  intros Hex Hp. destruct i as [v h n d dh|b sh st off dt md nm|val nm];
    cbn [InputReader.exec is_storage_instr] in *.
  - assert (Ht : InputReader.pbar (ticked r) = Some (p + 1)).
    { unfold ticked. rewrite Hp. simpl. f_equal. lia. }
    destruct (content_available r h) as [stored|] eqn:Hc.
    + erewrite bind_Ok in Hex by (apply storage_hit; exact Hc).
      unfold ret in Hex. injection Hex as _ <-.
      destruct (decide _); simpl; exact Ht.
    + erewrite bind_Ok in Hex by (apply storage_miss; exact Hc).
      unfold ret in Hex. injection Hex as _ <-. simpl. exact Ht.
  - destruct (env !! b) as [s|]; [|discriminate Hex].
    unfold InputReader.tensor, InputReader.args_append in Hex. unfold_monad.
    injection Hex as _ <-. simpl. rewrite Hp. f_equal. lia.
  - unfold InputReader.symint, InputReader.args_append in Hex. unfold_monad.
    injection Hex as _ <-. simpl. rewrite Hp. f_equal. lia.
Qed.

Lemma load_args_from_pbar randn script :
  forall env r env' r' p,
    InputReader.load_args_from randn env script r = (Ok env', r') ->
    InputReader.pbar r = Some p ->
    InputReader.pbar r' = Some (p + Z.of_nat (length (storage_names script))).
Proof.
  induction script as [|i rest IH]; intros env r env' r' p Hload Hp.
  - simpl in Hload. unfold ret in Hload. injection Hload as _ <-.
    rewrite Hp. simpl. f_equal. lia.
  - cbn [InputReader.load_args_from] in Hload. unfold bind in Hload.
    destruct (InputReader.exec randn env i r) as [[env1|e] r1] eqn:Hex;
      [|discriminate Hload].
    pose proof (exec_pbar _ _ _ _ _ _ _ Hex Hp) as Hp1.
    rewrite (IH _ _ _ _ _ Hload Hp1). f_equal.
    change (i :: rest) with ([i] ++ rest)%list.
    rewrite storage_names_app, length_app, Nat2Z.inj_add.
    destruct i; cbn; lia.
Qed.

(** The count the no-op reader takes of a script is the number of its
    storage lines, and a real reader that loads the script without raising
    has ticked its progress bar exactly that many times: the bar sized by
    [repro_common] is filled, no more and no less. *)
Theorem progress_bar_is_filled_exactly randn script rstore env r :
  InputReader.load_args randn script (InputReader.__init__ rstore (Some 0)) = (Ok env, r) ->
  NopInputReader.total (snd (NopInputReader.load_args script NopInputReader.__init__))
    = Z.of_nat (length (storage_names script))
  /\ InputReader.pbar r
     = Some (NopInputReader.total
               (snd (NopInputReader.load_args script NopInputReader.__init__))).
Proof.
  intros Hload. unfold InputReader.load_args in Hload.
  destruct (load_args_from_well_scoped _ _ _ _ _ _ Hload) as [Hw _].
  rewrite dom_empty_L in Hw.
  rewrite (nop_load_args_counts _ _ Hw). simpl. split; [reflexivity|].
  now rewrite (load_args_from_pbar _ _ _ _ _ _ 0 Hload eq_refl).
Qed.

Lemma progress_bar_is_filled_exactly_witness :
  match InputReader.load_args (fun _ => []) (body example_load_args)
          (InputReader.__init__ None (Some 0)) with
  | (Ok _, r) =>
      NopInputReader.total
        (snd (NopInputReader.load_args (body example_load_args)
                NopInputReader.__init__)) = 1
      /\ InputReader.pbar r = Some 1
  | (Raise _, _) => False
  end.
Proof.
  destruct (InputReader.load_args (fun _ => []) (body example_load_args)
              (InputReader.__init__ None (Some 0))) as [[env|e] r] eqn:Hl.
  - destruct (progress_bar_is_filled_exactly _ _ _ _ _ Hl) as [H1 H2].
    split; [exact H1|]. rewrite H2, H1. reflexivity.
  - vm_compute in Hl. discriminate Hl.
Defined.

(** ** One storage line per distinct storage *)

Lemma sids_of_app a1 a2 : sids_of (a1 ++ a2) = sids_of a1 ∪ sids_of a2.
Proof. unfold sids_of. rewrite omap_app. apply list_to_set_app_L. Qed.

Lemma after_arg_seen p a w :
  supported a ->
  size (InputWriter.seen_storages w) = InputWriter.storage_counter w ->
  size (InputWriter.seen_storages (after_arg p a w))
    = InputWriter.storage_counter (after_arg p a w)
  /\ dom (InputWriter.seen_storages (after_arg p a w))
     = dom (InputWriter.seen_storages w) ∪ sids_of [a].
Proof.
  intros Hs Hsize. destruct a as [i|t|o]; [| |destruct Hs]; cbn [after_arg].
  - unfold after_symint, sids_of. cbn. split; [exact Hsize|set_solver].
  - unfold after_tensor, sids_of. cbn.
    destruct (InputWriter.seen_storages w !! torch.sid (torch.untyped_storage t))
      as [v|] eqn:Hseen; cbn.
    + split; [exact Hsize|].
      assert (torch.sid (torch.untyped_storage t) ∈ dom (InputWriter.seen_storages w))
        by (apply elem_of_dom; eauto).
      set_solver.
    + split.
      * rewrite map_size_insert_None by exact Hseen. now rewrite Hsize.
      * rewrite dom_insert_L. set_solver.
Qed.

Lemma after_args_seen targets :
  forall args w,
    length targets = length args ->
    Forall supported args ->
    size (InputWriter.seen_storages w) = InputWriter.storage_counter w ->
    size (InputWriter.seen_storages (after_args targets args w))
      = InputWriter.storage_counter (after_args targets args w)
    /\ dom (InputWriter.seen_storages (after_args targets args w))
       = dom (InputWriter.seen_storages w) ∪ sids_of args.
Proof.
  induction targets as [|p targets IH]; intros args w Hlen Hsup Hsize.
  - destruct args; [|discriminate]. cbn. split; [exact Hsize|].
    unfold sids_of. cbn. set_solver.
  - destruct args as [|a args]; [discriminate|].
    inversion Hsup as [|? ? Ha Hrest]; subst.
    rewrite after_args_cons.
    destruct (after_arg_seen p a w Ha Hsize) as [Hsize1 Hdom1].
    destruct (IH args (after_arg p a w)) as [Hsize2 Hdom2]; try assumption.
    + simpl in Hlen. lia.
    + split; [exact Hsize2|]. rewrite Hdom2, Hdom1.
      change (a :: args) with ([a] ++ args)%list. rewrite sids_of_app. set_solver.
Qed.

(** For a session over supported arguments, the script holds one storage
    line per distinct storage identity among the tensors, and those lines
    assign the names buf0, buf1, ... in that order. *)
Theorem one_storage_line_per_storage store targets args :
  length targets = length args ->
  Forall supported args ->
  storage_names
    (InputWriter._lines (snd (write_args targets args (InputWriter.__init__ store))))
  = bufname <$> seq 0 (size (sids_of args)).
Proof.
  intros Hlen Hsup. rewrite (write_args_ok _ _ _ Hsup). cbn [snd].
  destruct (session_replay (fun _ => []) store None None targets args Hlen Hsup)
    as (env & r & _ & [_ _ _ _ _ Hl _ _]).
  rewrite Hl. f_equal. f_equal.
  destruct (after_args_seen targets args (InputWriter.__init__ store) Hlen Hsup)
    as [Hsize Hdom]; [reflexivity|].
  rewrite <- Hsize, <- size_dom, Hdom. cbn. rewrite dom_empty_L.
  f_equal. set_solver.
Qed.

Lemma one_storage_line_per_storage_witness :
  storage_names
    (InputWriter._lines
       (snd (write_args ["a"; "n"; "b"; "c"]
               [ArgTensor view_a; ArgInt (Int 3); ArgTensor view_b; ArgTensor on_cpu]
               (InputWriter.__init__ None))))
  = bufname <$> seq 0 (size (sids_of
      [ArgTensor view_a; ArgInt (Int 3); ArgTensor view_b; ArgTensor on_cpu])).
Proof.
  apply (one_storage_line_per_storage None ["a"; "n"; "b"; "c"]
           [ArgTensor view_a; ArgInt (Int 3); ArgTensor view_b; ArgTensor on_cpu]).
  - reflexivity.
  - repeat constructor.
Defined.

Example one_storage_line_per_storage_names :
  bufname <$> seq 0 (size (sids_of
    [ArgTensor view_a; ArgInt (Int 3); ArgTensor view_b; ArgTensor on_cpu]))
  = ["buf0"; "buf1"].
Proof. vm_compute. reflexivity. Qed.

(** ** Arguments the writer does not take *)

Lemma write_args_take targets :
  forall args w,
    write_args targets args w = write_args targets (take (length targets) args) w.
Proof.
  induction targets as [|p targets IH]; intros args w.
  - now destruct args.
  - destruct args as [|a args]; [reflexivity|].
    cbn [write_args length take]. unfold bind.
    destruct (match a with
              | ArgInt i => InputWriter.symint p i
              | ArgTensor t => InputWriter.tensor p t
              | ArgOther text => _
              end w) as [[u|e] w1]; [apply IH|reflexivity].
Qed.

Lemma write_args_unsupported targets :
  forall pre text post w,
    Forall supported pre ->
    (length pre < length targets)%nat ->
    write_args targets (pre ++ ArgOther text :: post) w
    = (Raise (TypeError ("arg is neither SymInt/int nor torch.Tensor, " ++ text)),
       after_args (take (length pre) targets) pre w).
Proof.
  induction targets as [|p targets IH]; intros pre text post w Hs Hlen.
  - simpl in Hlen. lia.
  - destruct pre as [|a pre].
    + reflexivity.
    + inversion Hs as [|? ? Ha Hrest]; subst.
      cbn [app write_args length take].
      destruct a as [i|t|o]; [| |destruct Ha].
      * erewrite bind_Ok by apply writer_symint.
        rewrite IH by (try assumption; simpl in Hlen; lia). reflexivity.
      * erewrite bind_Ok by apply writer_tensor.
        rewrite IH by (try assumption; simpl in Hlen; lia). reflexivity.
Qed.

(** The loop of [generate_compiler_repro_string] pairs placeholders with
    arguments: arguments beyond the last placeholder are never looked at, and
    the first paired argument that is neither an int, a SymInt nor a tensor
    stops the writer with [TypeError], after the lines of the arguments
    before it; [generate_compiler_repro_string] then raises that error and
    returns no script, and what the writer has stored for the arguments
    before it stays in the content store. *)
Theorem writer_rejects_other_arguments :
  (forall targets args w,
     write_args targets args w = write_args targets (take (length targets) args) w)
  /\ (forall os gm pre text post save_dir w,
        Forall supported pre ->
        (length pre < length (fx.fx_placeholder_targets gm))%nat ->
        write_args (fx.fx_placeholder_targets gm) (pre ++ ArgOther text :: post)
          (InputWriter.__init__ (option_map (content_store os) save_dir))
        = (Raise (TypeError ("arg is neither SymInt/int nor torch.Tensor, " ++ text)),
           after_args (take (length pre) (fx.fx_placeholder_targets gm)) pre
             (InputWriter.__init__ (option_map (content_store os) save_dir)))
        /\ generate_compiler_repro_string os gm (pre ++ ArgOther text :: post) save_dir w
           = (Raise (TypeError ("arg is neither SymInt/int nor torch.Tensor, " ++ text)),
              with_effects w
                (stored_by save_dir
                   (InputWriter.__init__ (option_map (content_store os) save_dir))
                   (after_args (take (length pre) (fx.fx_placeholder_targets gm)) pre
                      (InputWriter.__init__ (option_map (content_store os) save_dir)))))).
Proof.
  split.
  - intros. apply write_args_take.
  - intros os gm pre text post save_dir w Hs Hlen.
    pose proof (write_args_unsupported (fx.fx_placeholder_targets gm) pre text post
                  (InputWriter.__init__ (option_map (content_store os) save_dir))
                  Hs Hlen) as Hw.
    split; [exact Hw|].
    unfold generate_compiler_repro_string, run_writer. unfold bind. now rewrite Hw.
Qed.

Lemma writer_rejects_other_arguments_witness :
  write_args ["x"; "n"] [ArgTensor example_tensor; ArgOther "None"; ArgInt (Int 1)]
    (InputWriter.__init__ (option_map (content_store (example_os 0)) None))
  = (Raise (TypeError "arg is neither SymInt/int nor torch.Tensor, None"),
     after_args (take 1 ["x"; "n"]) [ArgTensor example_tensor]
       (InputWriter.__init__ (option_map (content_store (example_os 0)) None)))
  /\ generate_compiler_repro_string (example_os 0) example_graph
       [ArgTensor example_tensor; ArgOther "None"; ArgInt (Int 1)] None
       (world0 None 1)
     = (Raise (TypeError "arg is neither SymInt/int nor torch.Tensor, None"),
        world0 None 1).
Proof.
  destruct writer_rejects_other_arguments as [_ H].
  apply (H (example_os 0) example_graph [ArgTensor example_tensor] "None"
           [ArgInt (Int 1)] None (world0 None 1)).
  - repeat constructor.
  - simpl. lia.
Defined.

(** ** The failure predicate [inductor_fails] *)

Lemma any_is_cuda_tensors args w :
  Forall is_tensor_arg args ->
  any_is_cuda args w = (Ok (existsb is_cuda_arg args), w).
Proof.
  induction 1 as [|a args Ha Hs IH]; [reflexivity|].
  destruct a as [i|t|o]; try destruct Ha. cbn.
  destruct (is_cuda t); [reflexivity|exact IH].
Qed.

Lemma handler_reported check_str e w :
  (if match check_str with
      | Some c => negb (contains c (repr_exn e))
      | None => false
      end
   then ret false
   else let! _ := print (repr_exn e) in ret true) w
  = reported check_str e w.
Proof.
  unfold reported, matches_check_str.
  destruct check_str as [c|]; [destruct (contains c (repr_exn e))|]; reflexivity.
Qed.

Lemma inductor_fails_not_eager backend fx_g args check_str w :
  Forall is_tensor_arg args ->
  (forall e w1,
     run_graph backend fx_g args w = (Raise e, w1) ->
     is_Exception e = true ->
     inductor_fails backend fx_g args check_str w = (Ok false, w1))
  /\ (forall result w1,
        run_graph backend fx_g args w = (Ok result, w1) ->
        flat_result result = false ->
        inductor_fails backend fx_g args check_str w = (Ok false, w1)).
Proof.
  intros Ht. split.
  - intros e w1 Hr He. unfold inductor_fails.
    erewrite bind_Ok by (apply any_is_cuda_tensors; exact Ht).
    unfold bind at 1. unfold try_except at 1. unfold bind at 1.
    rewrite Hr, He. reflexivity.
  - intros result w1 Hr Hf. unfold inductor_fails.
    erewrite bind_Ok by (apply any_is_cuda_tensors; exact Ht).
    unfold bind at 1. unfold try_except at 1. unfold bind at 1.
    rewrite Hr. destruct result as [i|l]; cbn in *; [reflexivity|].
    destruct (existsb is_seq_item l); [reflexivity|discriminate].
Qed.

Lemma inductor_fails_after_eager backend fx_g args check_str w result w1 w2 :
  Forall is_tensor_arg args ->
  run_graph backend fx_g args w = (Ok result, w1) ->
  flat_result result = true ->
  inductor_sync backend args w1 = (Ok tt, w2) ->
  inductor_fails backend fx_g args check_str w
  = try_except
      (let! compile_mod := compile_fx_inner backend fx_g args in
       let! _ := compile_mod args in
       let! _ := inductor_sync backend args in
       ret false)
      is_Exception
      (fun e =>
         if match check_str with
            | Some c => negb (contains c (repr_exn e))
            | None => false
            end
         then ret false
         else let! _ := print (repr_exn e) in ret true) w2.
Proof.
  intros Ht Hr Hf Hs. unfold inductor_fails.
  erewrite bind_Ok by (apply any_is_cuda_tensors; exact Ht).
  fold (inductor_sync backend args).
  unfold bind at 1. unfold try_except at 1. unfold bind at 1.
  rewrite Hr. destruct result as [i|l]; cbn in Hf; [discriminate|].
  cbn. destruct (existsb is_seq_item l); [discriminate|]. cbn.
  unfold bind at 1. rewrite Hs. reflexivity.
Qed.

(** [inductor_fails] on tensor arguments: a graph that does not run eagerly
    (it raises an [Exception], or returns something other than a flat tuple
    or list) is never reported as failing; otherwise the verdict is whether
    compiling, running the compiled module or the synchronization after it
    raises an [Exception] (one whose [repr] contains [check_str], when that
    is given), and the exception reported is printed. *)
Theorem inductor_fails_verdict backend fx_g args check_str w :
  Forall is_tensor_arg args ->
  (forall e w1,
     run_graph backend fx_g args w = (Raise e, w1) ->
     is_Exception e = true ->
     inductor_fails backend fx_g args check_str w = (Ok false, w1))
  /\ (forall result w1,
        run_graph backend fx_g args w = (Ok result, w1) ->
        flat_result result = false ->
        inductor_fails backend fx_g args check_str w = (Ok false, w1))
  /\ (forall result w1 w2,
        run_graph backend fx_g args w = (Ok result, w1) ->
        flat_result result = true ->
        inductor_sync backend args w1 = (Ok tt, w2) ->
        (forall e w3,
           compile_fx_inner backend fx_g args w2 = (Raise e, w3) ->
           is_Exception e = true ->
           inductor_fails backend fx_g args check_str w = reported check_str e w3)
        /\ (forall compiled w3,
              compile_fx_inner backend fx_g args w2 = (Ok compiled, w3) ->
              (forall e w4,
                 compiled args w3 = (Raise e, w4) ->
                 is_Exception e = true ->
                 inductor_fails backend fx_g args check_str w = reported check_str e w4)
              /\ (forall out w4 e w5,
                    compiled args w3 = (Ok out, w4) ->
                    inductor_sync backend args w4 = (Raise e, w5) ->
                    is_Exception e = true ->
                    inductor_fails backend fx_g args check_str w
                    = reported check_str e w5)
              /\ (forall out w4 w5,
                    compiled args w3 = (Ok out, w4) ->
                    inductor_sync backend args w4 = (Ok tt, w5) ->
                    inductor_fails backend fx_g args check_str w = (Ok false, w5)))).
Proof.
  intros Ht. destruct (inductor_fails_not_eager backend fx_g args check_str w Ht)
    as [H1 H2].
  split; [exact H1|]. split; [exact H2|].
  intros result w1 w2 Hr Hf Hs.
  rewrite (inductor_fails_after_eager _ _ _ _ _ _ _ _ Ht Hr Hf Hs).
  split.
  - intros e w3 Hc He.
    erewrite try_except_caught; [apply handler_reported| |exact He].
    erewrite bind_Raise by exact Hc. reflexivity.
  - intros compiled w3 Hc. split; [|split].
    + intros e w4 Hrun He.
      erewrite try_except_caught; [apply handler_reported| |exact He].
      erewrite bind_Ok by exact Hc. erewrite bind_Raise by exact Hrun. reflexivity.
    + intros out w4 e w5 Hrun Hsync He.
      erewrite try_except_caught; [apply handler_reported| |exact He].
      erewrite bind_Ok by exact Hc. erewrite bind_Ok by exact Hrun.
      erewrite bind_Raise by exact Hsync. reflexivity.
    + intros out w4 w5 Hrun Hsync.
      erewrite try_except_Ok; [reflexivity|].
      erewrite bind_Ok by exact Hc. erewrite bind_Ok by exact Hrun.
      erewrite bind_Ok by exact Hsync. reflexivity.
Qed.

Lemma inductor_fails_verdict_witness :
  inductor_fails (example_backend (Raise (RuntimeError "boom")) false) example_graph
    [ArgTensor example_tensor] (Some "boom") (world0 None 1)
  = (Ok true, mkWorld (config.mk None 1 false) [Printed "RuntimeError('boom')"])
  /\ inductor_fails (example_backend (Raise (RuntimeError "boom")) false) example_graph
       [ArgTensor example_tensor] (Some "illegal memory access") (world0 None 1)
     = (Ok false, world0 None 1)
  /\ inductor_fails (example_backend (Ok (ObjSeq [])) false) example_graph
       [ArgTensor example_tensor] None (world0 None 1)
     = (Ok false, world0 None 1)
  /\ inductor_fails (example_backend (Raise (RuntimeError "can't")) false)
       example_graph [ArgTensor example_tensor] (Some "RuntimeError('") (world0 None 1)
     = (Ok false, world0 None 1)
  /\ inductor_fails (example_backend (Raise (RuntimeError "can't")) false)
       example_graph [ArgTensor example_tensor] (Some "can't") (world0 None 1)
     = (Ok true,
        mkWorld (config.mk None 1 false)
          [Printed ("RuntimeError(" ++ double_quote ++ "can't" ++ double_quote ++ ")")]).
Proof.
  split; [|split; [|split; [|split]]].
  - destruct (inductor_fails_verdict (example_backend (Raise (RuntimeError "boom")) false)
                example_graph [ArgTensor example_tensor] (Some "boom") (world0 None 1))
      as (_ & _ & H); [repeat constructor|].
    destruct (H (ObjSeq []) (world0 None 1) (world0 None 1) eq_refl eq_refl eq_refl)
      as [_ H'].
    destruct (H' (example_callable (Raise (RuntimeError "boom"))) (world0 None 1) eq_refl)
      as (H'' & _ & _).
    rewrite (H'' (RuntimeError "boom") (world0 None 1) eq_refl eq_refl).
    vm_compute. reflexivity.
  - destruct (inductor_fails_verdict (example_backend (Raise (RuntimeError "boom")) false)
                example_graph [ArgTensor example_tensor] (Some "illegal memory access")
                (world0 None 1))
      as (_ & _ & H); [repeat constructor|].
    destruct (H (ObjSeq []) (world0 None 1) (world0 None 1) eq_refl eq_refl eq_refl)
      as [_ H'].
    destruct (H' (example_callable (Raise (RuntimeError "boom"))) (world0 None 1) eq_refl)
      as (H'' & _ & _).
    rewrite (H'' (RuntimeError "boom") (world0 None 1) eq_refl eq_refl).
    vm_compute. reflexivity.
  - destruct (inductor_fails_verdict (example_backend (Ok (ObjSeq [])) false)
                example_graph [ArgTensor example_tensor] None (world0 None 1))
      as (_ & _ & H); [repeat constructor|].
    destruct (H (ObjSeq []) (world0 None 1) (world0 None 1) eq_refl eq_refl eq_refl)
      as [_ H'].
    destruct (H' (example_callable (Ok (ObjSeq []))) (world0 None 1) eq_refl)
      as (_ & _ & H'').
    apply (H'' (ObjSeq []) (world0 None 1) (world0 None 1) eq_refl eq_refl).
  - destruct (inductor_fails_verdict (example_backend (Raise (RuntimeError "can't")) false)
                example_graph [ArgTensor example_tensor] (Some "RuntimeError('")
                (world0 None 1))
      as (_ & _ & H); [repeat constructor|].
    destruct (H (ObjSeq []) (world0 None 1) (world0 None 1) eq_refl eq_refl eq_refl)
      as [_ H'].
    destruct (H' (example_callable (Raise (RuntimeError "can't"))) (world0 None 1) eq_refl)
      as (H'' & _ & _).
    rewrite (H'' (RuntimeError "can't") (world0 None 1) eq_refl eq_refl).
    vm_compute. reflexivity.
  - destruct (inductor_fails_verdict (example_backend (Raise (RuntimeError "can't")) false)
                example_graph [ArgTensor example_tensor] (Some "can't") (world0 None 1))
      as (_ & _ & H); [repeat constructor|].
    destruct (H (ObjSeq []) (world0 None 1) (world0 None 1) eq_refl eq_refl eq_refl)
      as [_ H'].
    destruct (H' (example_callable (Raise (RuntimeError "can't"))) (world0 None 1) eq_refl)
      as (H'' & _ & _).
    rewrite (H'' (RuntimeError "can't") (world0 None 1) eq_refl eq_refl).
    vm_compute. reflexivity.
Defined.

(** ** What the dumps do to the process *)

Lemma extends_refl w : extends w w.
Proof. split; reflexivity. Qed.

Lemma extends_trans w1 w2 w3 : extends w1 w2 -> extends w2 w3 -> extends w1 w3.
Proof.
  intros [Hc1 Hp1] [Hc2 Hp2]. split; [congruence|]. etrans; eassumption.
Qed.

Lemma only_appends_ret {A} (a : A) : only_appends (ret a).
Proof. intros w. apply extends_refl. Qed.

Lemma only_appends_raise {A} e : only_appends (raise e : M World A).
Proof. intros w. apply extends_refl. Qed.

Lemma only_appends_get_config : only_appends get_config.
Proof. intros w. apply extends_refl. Qed.

Lemma only_appends_emit e : only_appends (emit e).
Proof. intros w. split; [reflexivity|]. now apply prefix_app_r. Qed.

Lemma only_appends_syscall outcome done : only_appends (syscall outcome done).
Proof.
  destruct outcome; [apply only_appends_raise|apply only_appends_emit].
Qed.

Lemma only_appends_bind {A B} (m : M World A) (k : A -> M World B) :
  only_appends m -> (forall a, only_appends (k a)) -> only_appends (bind m k).
Proof.
  intros Hm Hk w. unfold bind. specialize (Hm w).
  destruct (m w) as [[a|e] w1]; [|exact Hm].
  eapply extends_trans; [exact Hm|apply Hk].
Qed.

Lemma only_appends_save_graph_repro os gm args compiler_name save_dir command :
  only_appends (save_graph_repro os gm args compiler_name save_dir command).
Proof.
  intros w.
  unfold save_graph_repro, generate_compiler_repro_string, run_writer, bind.
  destruct (write_args _ _ _) as [[u|e] writer]; cbn;
    (split; [reflexivity|now apply prefix_app_r]).
Qed.

Lemma only_appends_ensure_subdir os subdir : only_appends (ensure_subdir os subdir).
Proof.
  unfold ensure_subdir. destruct (negb _);
    [apply only_appends_syscall|apply only_appends_ret].
Qed.

Lemma only_appends_dump_to_minify os gm args compiler_name :
  only_appends (dump_to_minify os gm args compiler_name).
Proof.
  unfold dump_to_minify.
  apply only_appends_bind; [apply only_appends_ensure_subdir|intros _].
  apply only_appends_bind; [apply only_appends_save_graph_repro|intros out].
  apply only_appends_syscall.
Qed.

(** ** The wrapper when capture is off *)

(** With [config.repro_after] set to ["dynamo"] or [None] the wrapper is
    the compiler: whatever the compile step returns or raises leaves the
    wrapper as it is, with nothing dumped or logged, as long as the compile
    step does not itself turn capture on.  A value of [config.repro_after]
    outside ["dynamo"], ["aot"] and [None] is refused with [AssertionError]
    before the compiler is called. *)
Theorem wrapper_is_transparent_when_capture_is_off
    os backend compiler compiler_name gm example_inputs w :
  (forall r w1,
     config.repro_after (cfg w) ∈ [Some "dynamo"; None] ->
     compiler gm example_inputs w = (r, w1) ->
     config.repro_after (cfg w1) ≠ Some "aot" ->
     debug_wrapper os backend compiler compiler_name gm example_inputs w = (r, w1))
  /\ (config.repro_after (cfg w) ∉ [Some "dynamo"; Some "aot"; None] ->
      debug_wrapper os backend compiler compiler_name gm example_inputs w
      = (Raise AssertionError, w)).
Proof.
  split.
  - intros r w1 Hoff Hc Hoff1.
    assert (Ha : repro_after_allowed (cfg w)).
    { unfold repro_after_allowed. set_solver. }
    destruct r as [inner|e].
    + unfold debug_wrapper, compiler_fn, repro_after_allowed in *.
      unfold bind at 1. unfold get_config at 1.
      unfold bind at 1. unfold assert. rewrite bool_decide_eq_true_2 by exact Ha.
      unfold ret at 1. unfold bind at 1.
      erewrite try_except_Ok by exact Hc.
      unfold bind at 1. unfold get_config at 1.
      destruct (decide (config.repro_after (cfg w1) = Some "aot"));
        [contradiction|reflexivity].
    + now apply debug_wrapper_compile_raises_capture_off.
  - intros Hbad. unfold debug_wrapper.
    unfold bind at 1. unfold get_config at 1.
    unfold bind at 1. unfold assert. rewrite bool_decide_eq_false_2 by exact Hbad.
    reflexivity.
Qed.

Lemma wrapper_is_transparent_when_capture_is_off_witness :
  debug_wrapper (example_os 0) (example_backend (Ok (ObjSeq [])) false)
    failing_compiler "inductor" example_graph example_inputs (world0 (Some "dynamo") 1)
  = (Raise (RuntimeError "boom"), world0 (Some "dynamo") 1)
  /\ debug_wrapper (example_os 0) (example_backend (Ok (ObjSeq [])) false)
       failing_compiler "inductor" example_graph example_inputs (world0 (Some "eager") 1)
     = (Raise AssertionError, world0 (Some "eager") 1).
Proof.
  split.
  - apply (wrapper_is_transparent_when_capture_is_off (example_os 0)
             (example_backend (Ok (ObjSeq [])) false) failing_compiler "inductor"
             example_graph example_inputs (world0 (Some "dynamo") 1)).
    + cbn. left.
    + reflexivity.
    + cbn. discriminate.
  - apply (wrapper_is_transparent_when_capture_is_off (example_os 0)
             (example_backend (Ok (ObjSeq [])) false) failing_compiler "inductor"
             example_graph example_inputs (world0 (Some "eager") 1)).
    cbn. intros H. repeat (apply elem_of_cons in H as [H|H]; [discriminate H|]).
    inversion H.
Defined.

(** ** The deferred invocation *)

(** An invocation made while capture is on runs with capture suspended and
    resumes it on the way out, whatever the invocation did: returned,
    raised, or failed in a dump.  Result and effects are those of
    [inner_debug_fn] under the suspended configuration. *)
Theorem capture_is_resumed_after_invocation
    os backend compiler compiler_name gm example_inputs inner real_inputs w :
  config.repro_after (cfg w) = Some "aot" ->
  let inside :=
    inner_debug_fn os backend compiler compiler_name gm example_inputs inner
      real_inputs (patched w) in
  let outcome :=
    deferred_for_real_inputs os backend compiler compiler_name gm example_inputs
      inner real_inputs w in
  config.repro_after (cfg (patched w)) = None
  /\ fst outcome = fst inside
  /\ effects (snd outcome) = effects (snd inside)
  /\ config.repro_after (cfg (snd outcome)) = Some "aot".
Proof.
  intros Hon inside outcome. subst inside outcome.
  rewrite (deferred_capture_on _ _ _ _ _ _ _ _ _ Hon).
  repeat split.
Qed.

Lemma capture_is_resumed_after_invocation_witness :
  config.repro_after
    (cfg (snd (deferred_for_real_inputs (example_os 0)
                 (example_backend (Ok (ObjSeq [])) false)
                 (example_compiler (Ok (ObjSeq []))) "inductor" example_graph
                 example_inputs
                 (example_callable (Raise (RuntimeError "boom")))
                 example_inputs (world0 (Some "aot") 1))))
  = Some "aot".
Proof.
  apply (capture_is_resumed_after_invocation (example_os 0)
           (example_backend (Ok (ObjSeq [])) false)
           (example_compiler (Ok (ObjSeq []))) "inductor" example_graph
           example_inputs (example_callable (Raise (RuntimeError "boom")))
           example_inputs (world0 (Some "aot") 1)).
  reflexivity.
Defined.

Section InvocationFacts.

Variable os : OS.
Variable backend : Backend.
Variable compiler : CompilerFn.
Variable compiler_name : string.
Variable gm : fx.GraphModule.
Variable example_inputs : list Arg.
Variable inner : Callable.
Variable real_inputs : list Arg.

Local Abbreviation inner_debug' :=
  (inner_debug_fn os backend compiler compiler_name gm example_inputs inner real_inputs).

Lemma inner_debug_level3_dump_raises w e w1 :
  config.repro_level (cfg w) = 3 ->
  dump_to_minify os gm real_inputs compiler_name w = (Raise e, w1) ->
  inner_debug' w = (Raise e, w1).
Proof.
  intros Hl Hd. unfold inner_debug_fn.
  unfold bind at 1. unfold get_config at 1.
  unfold bind at 1. rewrite Hl.
  destruct (decide (3 = 3)) as [_|H]; [|contradiction].
  rewrite Hd. reflexivity.
Qed.

Lemma inner_debug_try w wq :
  checkpoint_always os compiler_name (config.repro_level (cfg w)) gm real_inputs w
    = (Ok tt, wq) ->
  config.repro_level (cfg wq) ≠ 4 ->
  inner_debug' w =
    try_except
      (invoke_and_sync backend example_inputs inner real_inputs)
      is_Exception
      (fun e =>
         let! c := get_config in
         let! _ := checkpoint_on_failure os compiler_name (config.repro_level c) gm
                     (copy_tensor_attrs backend real_inputs) in
         raise e) wq.
Proof. apply inner_debug_after_checkpoint. Qed.

Lemma inner_debug_handler e w :
  (let! c := get_config in
   let! _ := checkpoint_on_failure os compiler_name (config.repro_level c) gm
               (copy_tensor_attrs backend real_inputs) in
   raise e) w
  = reraised_after (A := PyObj) e
      (checkpoint_on_failure os compiler_name (config.repro_level (cfg w)) gm
         (copy_tensor_attrs backend real_inputs) w).
Proof.
  unfold bind at 1. unfold get_config at 1. unfold bind, reraised_after.
  destruct (checkpoint_on_failure _ _ _ _ _ w) as [[[]|e'] w']; reflexivity.
Qed.

End InvocationFacts.

(** At capture level 3 the minifier launcher is written from the original
    graph and the real inputs before the compiled function is invoked: when
    writing it raises, that exception leaves the invoker and the compiled
    function is never called; when it is written, the outcome of the
    invocation (with its synchronization) is the outcome, and a failure is
    re-raised with no further dump. *)
Theorem level3_launcher_precedes_invocation
    os backend compiler compiler_name gm example_inputs inner real_inputs w :
  config.repro_level (cfg w) = 3 ->
  (forall e w1,
     dump_to_minify os gm real_inputs compiler_name w = (Raise e, w1) ->
     inner_debug_fn os backend compiler compiler_name gm example_inputs inner
       real_inputs w = (Raise e, w1))
  /\ (forall w1 r w2,
        dump_to_minify os gm real_inputs compiler_name w = (Ok tt, w1) ->
        invoke_and_sync backend example_inputs inner real_inputs w1 = (r, w2) ->
        config.repro_level (cfg w2) = 3 ->
        inner_debug_fn os backend compiler compiler_name gm example_inputs inner
          real_inputs w = (r, w2)).
Proof.
  intros Hl. split.
  - intros e w1 Hd. now apply inner_debug_level3_dump_raises.
  - intros w1 r w2 Hd Hi Hl2.
    assert (Hc : cfg w1 = cfg w).
    { pose proof (only_appends_dump_to_minify os gm real_inputs compiler_name w) as [H _].
      rewrite Hd in H. exact H. }
    rewrite (inner_debug_try _ _ _ _ _ _ _ _ w w1).
    + destruct r as [out|e].
      * now apply try_except_Ok.
      * destruct (is_Exception e) eqn:He.
        -- erewrite try_except_caught by eassumption.
           rewrite inner_debug_handler. unfold checkpoint_on_failure. rewrite Hl2.
           reflexivity.
        -- now apply try_except_uncaught.
    + unfold checkpoint_always. rewrite Hl.
      destruct (decide (3 = 3)) as [_|H]; [exact Hd|contradiction].
    + rewrite Hc, Hl. discriminate.
Qed.

Lemma level3_launcher_precedes_invocation_witness :
  inner_debug_fn (example_os 0) (example_backend (Ok (ObjSeq [])) false)
    (example_compiler (Ok (ObjSeq []))) "inductor" example_graph example_inputs
    (example_callable (Raise (RuntimeError "boom"))) example_inputs (world0 None 3)
  = (Raise (RuntimeError "boom"),
     mkWorld (config.mk None 3 false)
       (session_stored (example_os 0) example_graph example_inputs
          (Some "/tmp/minifier/checkpoints") ++
        [MinifierLauncher
           (repro_file (example_os 0) example_graph example_inputs "inductor"
              (Some "/tmp/minifier/checkpoints") "minify" (config.mk None 3 false))])).
Proof.
  destruct (level3_launcher_precedes_invocation (example_os 0)
              (example_backend (Ok (ObjSeq [])) false)
              (example_compiler (Ok (ObjSeq []))) "inductor" example_graph
              example_inputs (example_callable (Raise (RuntimeError "boom")))
              example_inputs (world0 None 3) eq_refl) as [_ H].
  apply (H (mkWorld (config.mk None 3 false)
              (session_stored (example_os 0) example_graph example_inputs
                 (Some "/tmp/minifier/checkpoints") ++
               [MinifierLauncher
                  (repro_file (example_os 0) example_graph example_inputs "inductor"
                     (Some "/tmp/minifier/checkpoints") "minify"
                     (config.mk None 3 false))]))).
  - vm_compute. reflexivity.
  - vm_compute. reflexivity.
  - reflexivity.
Defined.

(** Whether the invoker synchronizes is decided by the example inputs, not
    by the real ones.  With no example input on a CUDA device a returning
    invocation returns as it is; with one, an [Exception] surfaced by the
    synchronization after a returning invocation is handled like a failure
    of the invocation: the checkpoint of the level is written from the fake
    copies of the real inputs and the exception is raised again. *)
Theorem synchronize_fault_is_captured
    os backend compiler compiler_name gm example_inputs inner real_inputs w out w1 :
  config.repro_level (cfg w) ≠ 3 ->
  config.repro_level (cfg w) ≠ 4 ->
  inner real_inputs w = (Ok out, w1) ->
  (existsb is_cuda_arg example_inputs = false ->
   inner_debug_fn os backend compiler compiler_name gm example_inputs inner
     real_inputs w = (Ok out, w1))
  /\ (forall e w2,
        existsb is_cuda_arg example_inputs = true ->
        cuda_synchronize backend w1 = (Raise e, w2) ->
        is_Exception e = true ->
        inner_debug_fn os backend compiler compiler_name gm example_inputs inner
          real_inputs w
        = reraised_after e
            (checkpoint_on_failure os compiler_name (config.repro_level (cfg w2)) gm
               (copy_tensor_attrs backend real_inputs) w2)).
Proof.
  intros H3 H4 Hi.
  assert (Hpre : checkpoint_always os compiler_name (config.repro_level (cfg w)) gm
                   real_inputs w = (Ok tt, w)).
  { unfold checkpoint_always.
    destruct (decide (config.repro_level (cfg w) = 3)); [contradiction|reflexivity]. }
  rewrite (inner_debug_try _ _ _ _ _ _ _ _ w w Hpre H4).
  split.
  - intros Hno. apply try_except_Ok. unfold invoke_and_sync.
    erewrite bind_Ok by exact Hi. rewrite Hno. reflexivity.
  - intros e w2 Hyes Hs He.
    erewrite try_except_caught; [apply inner_debug_handler| |exact He].
    unfold invoke_and_sync. erewrite bind_Ok by exact Hi. rewrite Hyes.
    erewrite bind_Raise by exact Hs. reflexivity.
Qed.

Lemma synchronize_fault_is_captured_witness :
  inner_debug_fn (example_os 0) faulting_backend (example_compiler (Ok (ObjSeq [])))
    "inductor" example_graph [ArgTensor cuda_tensor]
    (example_callable (Ok (ObjSeq []))) [ArgTensor cuda_tensor] (world0 None 2)
  = (Raise (RuntimeError "illegal memory access"),
     mkWorld (config.mk None 2 false)
       (session_stored (example_os 0) example_graph [ArgTensor cuda_tensor]
          (Some "/tmp/minifier/checkpoints") ++
        [MinifierLauncher
           (repro_file (example_os 0) example_graph [ArgTensor cuda_tensor] "inductor"
              (Some "/tmp/minifier/checkpoints") "minify" (config.mk None 2 false))])).
Proof.
  destruct (synchronize_fault_is_captured (example_os 0) faulting_backend
              (example_compiler (Ok (ObjSeq []))) "inductor" example_graph
              [ArgTensor cuda_tensor] (example_callable (Ok (ObjSeq [])))
              [ArgTensor cuda_tensor] (world0 None 2) (ObjSeq []) (world0 None 2))
    as [_ H]; [discriminate|discriminate|reflexivity|].
  rewrite (H (RuntimeError "illegal memory access") (world0 None 2)
             eq_refl eq_refl eq_refl).
  vm_compute. reflexivity.
Defined.

(** ** Storages on the meta device *)

Lemma after_tensor_without_content name t self :
  torch.type (torch.s_device (torch.untyped_storage t)) = "meta" ->
  Forall names_no_content (InputWriter._lines self) ->
  Forall names_no_content (InputWriter._lines (after_tensor name t self))
  /\ InputWriter.store (after_tensor name t self) = InputWriter.store self.
Proof.
  intros Hm Hl. unfold after_tensor.
  destruct (InputWriter.seen_storages self !! _) as [v|]; cbn.
  - split; [|reflexivity]. apply Forall_app. split; [exact Hl|].
    repeat constructor.
  - split.
    + apply Forall_app. split; [exact Hl|]. repeat constructor.
      unfold storage_line, recorded_hash. cbn.
      destruct (InputWriter.store self); [|reflexivity].
      destruct (decide _) as [Hne|_]; [contradiction|reflexivity].
    + unfold store_after. destruct (InputWriter.store self); [|reflexivity].
      destruct (decide _) as [Hne|_]; [contradiction|reflexivity].
Qed.

Lemma after_args_without_content targets :
  forall args self,
    Forall without_content args ->
    Forall names_no_content (InputWriter._lines self) ->
    Forall names_no_content (InputWriter._lines (after_args targets args self))
    /\ InputWriter.store (after_args targets args self) = InputWriter.store self.
Proof.
  induction targets as [|p targets IH]; intros args self Hargs Hl.
  - destruct args; cbn; auto.
  - destruct args as [|a args]; [cbn; auto|].
    inversion Hargs as [|? ? Ha Hrest]; subst. cbn [after_args].
    destruct a as [i|t|o]; [| |destruct Ha].
    + destruct (IH args (after_symint p i self) Hrest) as [H1 H2]; [|auto].
      cbn. apply Forall_app. split; [exact Hl|repeat constructor].
    + destruct (after_tensor_without_content p t self Ha Hl) as [Hl1 Hs1].
      destruct (IH args (after_tensor p t self) Hrest Hl1) as [H1 H2].
      split; [exact H1|congruence].
Qed.

Lemma without_content_supported args :
  Forall without_content args -> Forall supported args.
Proof.
  intros H. eapply Forall_impl; [exact H|]. intros [i|t|o]; cbn; auto.
Qed.

(** Tensors whose storage is on the meta device (fake tensors) are
    described, never stored: the writer returns, the content store is left
    as it was and no storage line of the script names a hash.  The device
    of such a storage can only come from the hint: without one,
    [InputWriter.storage] fails its assertion, after it has drawn the next
    buffer number. *)
Theorem meta_storages_are_described_not_stored :
  (forall store targets args,
     Forall without_content args ->
     exists writer,
       write_args targets args (InputWriter.__init__ store) = (Ok tt, writer)
       /\ InputWriter.store writer = store
       /\ Forall names_no_content (InputWriter._lines writer))
  /\ (forall s dtype_hint self,
        torch.type (torch.s_device s) = "meta" ->
        InputWriter.seen_storages self !! StorageWeakRef s = None ->
        InputWriter.storage s dtype_hint None self
        = (Raise AssertionError,
           InputWriter.mk (InputWriter._lines self)
             (S (InputWriter.storage_counter self)) (InputWriter.store self)
             (InputWriter.seen_storages self))).
Proof.
  split.
  - intros store targets args Hargs. eexists. split.
    + apply write_args_ok. now apply without_content_supported.
    + destruct (after_args_without_content targets args (InputWriter.__init__ store)
                  Hargs) as [H1 H2]; [constructor|]. auto.
  - intros s dtype_hint self Hm Hseen. unfold InputWriter.storage.
    unfold bind at 1. unfold get at 1. rewrite Hseen.
    unfold bind at 1. unfold InputWriter.next_storage_counter at 1.
    destruct (decide (torch.type (torch.s_device s) = "meta")); [|contradiction].
    reflexivity.
Qed.

Lemma meta_storages_are_described_not_stored_witness :
  (exists writer,
     write_args ["x"; "n"] [ArgTensor fake_tensor; ArgInt (Int 3)]
       (InputWriter.__init__ (Some (ContentStoreWriter.mk (fun _ => "h") ∅)))
     = (Ok tt, writer)
     /\ InputWriter.store writer = Some (ContentStoreWriter.mk (fun _ => "h") ∅)
     /\ Forall names_no_content (InputWriter._lines writer))
  /\ InputWriter.storage (torch.untyped_storage fake_tensor) None None
       (InputWriter.__init__ None)
     = (Raise AssertionError, InputWriter.mk [] 1 None ∅).
Proof.
  destruct meta_storages_are_described_not_stored as [H1 H2]. split.
  - apply H1. repeat constructor.
  - apply (H2 (torch.untyped_storage fake_tensor) None (InputWriter.__init__ None));
      reflexivity.
Defined.

(** ** Arguments [inductor_fails] cannot look at *)

Lemma any_is_cuda_host pre rest w :
  Forall is_host_tensor_arg pre ->
  any_is_cuda (pre ++ rest) w = any_is_cuda rest w.
Proof.
  induction 1 as [|a pre Ha Hs IH]; [reflexivity|].
  destruct a as [i|t|o]; cbn in Ha; try contradiction.
  cbn. now rewrite Ha.
Qed.

(** The loop of [inductor_fails] over the arguments reads [is_cuda] of each
    until the first CUDA tensor.  An int or SymInt that comes before any
    CUDA tensor stops [inductor_fails] with [AttributeError] before the
    graph is run, so a minifier query on such arguments ends with exit
    status 1; arguments after the first CUDA tensor are not looked at. *)
Theorem inductor_fails_needs_tensor_arguments backend pre w :
  Forall is_host_tensor_arg pre ->
  (forall fx_g i post check_str,
     inductor_fails backend fx_g (pre ++ ArgInt i :: post) check_str w
     = (Raise (AttributeError "is_cuda"), w))
  /\ (forall os options repro_mod load_args gm i post w1,
        options.accuracy options = false ->
        repro_common os backend options repro_mod load_args w
          = (Ok (gm, (pre ++ ArgInt i :: post)%list), w1) ->
        repro_minifier_query os backend options repro_mod load_args w
          = (Raise (AttributeError "is_cuda"), w1)
        /\ exit_status (fst (repro_minifier_query os backend options repro_mod
                               load_args w)) = 1)
  /\ (forall t post, is_cuda t = true ->
        any_is_cuda (pre ++ ArgTensor t :: post) w = (Ok true, w)).
Proof.
  intros Hpre.
  assert (Hany : forall i post w',
            any_is_cuda (pre ++ ArgInt i :: post) w'
            = (Raise (AttributeError "is_cuda"), w')).
  { intros i post w'. rewrite any_is_cuda_host by exact Hpre. reflexivity. }
  split; [|split].
  - intros fx_g i post check_str. unfold inductor_fails.
    erewrite bind_Raise by apply Hany. reflexivity.
  - intros os options repro_mod load_args gm i post w1 Hacc Hc.
    assert (Hq : repro_minifier_query os backend options repro_mod load_args w
                 = (Raise (AttributeError "is_cuda"), w1)).
    { unfold repro_minifier_query. erewrite bind_Ok by exact Hc. rewrite Hacc.
      unfold inductor_fails.
      erewrite bind_Raise; [reflexivity|].
      erewrite bind_Raise by apply Hany. reflexivity. }
    rewrite Hq. split; reflexivity.
  - intros t post Ht. rewrite any_is_cuda_host by exact Hpre. cbn. now rewrite Ht.
Qed.

Lemma inductor_fails_needs_tensor_arguments_witness :
  inductor_fails (example_backend (Ok (ObjSeq [])) false) example_graph
    ([ArgTensor example_tensor] ++ ArgInt (Int 5) :: []) None (world0 None 1)
  = (Raise (AttributeError "is_cuda"), world0 None 1).
Proof.
  destruct (inductor_fails_needs_tensor_arguments
              (example_backend (Ok (ObjSeq [])) false) [ArgTensor example_tensor]
              (world0 None 1)) as [H _].
  - repeat constructor.
  - apply H.
Defined.

(** ** Loading a script *)






(** The storage synthesized for content that cannot be fetched has the
    recorded byte length exactly when the item size of the dtype hint (of
    float32 when there is none) divides that length; otherwise it is
    shorter. *)
Theorem synthesized_length_is_recorded_iff_aligned
    randn self storage_hash nbytes device dtype_hint :
  content_available self storage_hash = None ->
  0 <= nbytes ->
  exists s self',
    InputReader.storage randn storage_hash nbytes device dtype_hint self = (Ok s, self')
    /\ (torch.s_nbytes s = nbytes
        <-> (torch.itemsize (_dtype_or_default dtype_hint) | nbytes))
    /\ torch.s_nbytes s <= nbytes
    /\ nbytes - torch.s_nbytes s < torch.itemsize (_dtype_or_default dtype_hint).
Proof.
  intros Hc Hn. rewrite (storage_miss randn _ _ nbytes device dtype_hint Hc).
  eexists _, _. split; [reflexivity|].
  split; [apply synthesized_nbytes|].
  unfold synthesized. cbn.
  pose proof (itemsize_pos (_dtype_or_default dtype_hint)) as Hp.
  pose proof (Z.mod_pos_bound nbytes _ Hp) as Hb.
  pose proof (Z.div_mod nbytes (torch.itemsize (_dtype_or_default dtype_hint))) as Hd.
  split; lia.
Qed.

Lemma synthesized_length_is_recorded_iff_aligned_witness :
  exists s self',
    InputReader.storage (fun _ => []) None 10 None (Some torch.float64)
      (InputReader.__init__ None None) = (Ok s, self')
    /\ (torch.s_nbytes s = 10 <-> (8 | 10))
    /\ torch.s_nbytes s <= 10
    /\ 10 - torch.s_nbytes s < 8.
Proof.
  apply (synthesized_length_is_recorded_iff_aligned (fun _ => [])
           (InputReader.__init__ None None) None 10 None (Some torch.float64)).
  - reflexivity.
  - lia.
Defined.

(** ** [compare_tuples] on tuples of any length *)

Lemma diff_values_short (tuple1 tuple2 : list MetaField) :
  (length tuple2 < length tuple1)%nat -> diff_values tuple1 tuple2 = Raise IndexError.
Proof.
  revert tuple2. induction tuple1 as [|a rest1 IH]; intros [|b rest2] Hlen;
    cbn in *; try lia; [reflexivity|].
  rewrite IH by lia. reflexivity.
Qed.

Lemma diff_values_take (tuple1 tuple2 : list MetaField) :
  diff_values tuple1 tuple2 = diff_values tuple1 (take (length tuple1) tuple2).
Proof.
  revert tuple2. induction tuple1 as [|a rest1 IH]; intros [|b rest2];
    cbn; try reflexivity.
  now rewrite <- IH.
Qed.

(** [compare_tuples] indexes the second tuple by the positions of the
    first: a shorter second tuple raises [IndexError] whatever the entries
    are; entries of the second tuple beyond the length of the first are
    never looked at; and the answer is [None] exactly when the first tuple
    is a prefix of the second. *)
Theorem compare_tuples_by_position (tuple1 tuple2 : list MetaField) st :
  ((length tuple2 < length tuple1)%nat ->
   compare_tuples tuple1 tuple2 st = (Raise IndexError, st))
  /\ ((length tuple1 <= length tuple2)%nat ->
      compare_tuples tuple1 tuple2 st
        = compare_tuples tuple1 (take (length tuple1) tuple2) st
      /\ (compare_tuples tuple1 tuple2 st = (Ok None, st)
          <-> tuple1 `prefix_of` tuple2)
      /\ exists reason, compare_tuples tuple1 tuple2 st = (Ok reason, st)).
Proof.
  split.
  - intros Hlen. unfold compare_tuples. now rewrite diff_values_short.
  - intros Hlen. split; [|split].
    + unfold compare_tuples. now rewrite <- diff_values_take.
    + unfold compare_tuples. rewrite diff_values_take.
      rewrite diff_values_zip by (rewrite length_take; lia).
      pose proof (filter_diff_nil tuple1 (take (length tuple1) tuple2)) as Hnil.
      rewrite length_take in Hnil. specialize (Hnil ltac:(lia)).
      destruct (filter _ _) as [|d ds] eqn:Hf.
      * split; [intros _|reflexivity].
        exists (drop (length tuple1) tuple2).
        rewrite <- (take_drop (length tuple1) tuple2) at 1.
        f_equal. symmetry. now apply Hnil.
      * split; [discriminate|]. intros [k Hk].
        assert (Heq : tuple1 = take (length tuple1) tuple2).
        { rewrite Hk. now rewrite take_app_length. }
        apply Hnil in Heq. discriminate.
    + unfold compare_tuples. rewrite diff_values_take.
      rewrite diff_values_zip by (rewrite length_take; lia).
      destruct (filter _ _); eexists; reflexivity.
Qed.

Lemma compare_tuples_by_position_witness :
  compare_tuples [MetaShape [2; 3]; MetaDtype torch.float32] [MetaShape [2; 3]]
    analysis0
  = (Raise IndexError, analysis0)
  /\ (compare_tuples [MetaShape [2; 3]]
        [MetaShape [2; 3]; MetaDtype torch.float32] analysis0 = (Ok None, analysis0)
      <-> [MetaShape [2; 3]] `prefix_of` [MetaShape [2; 3]; MetaDtype torch.float32]).
Proof.
  split.
  - destruct (compare_tuples_by_position
                [MetaShape [2; 3]; MetaDtype torch.float32] [MetaShape [2; 3]]
                analysis0) as [H _].
    apply H. cbn. lia.
  - destruct (compare_tuples_by_position [MetaShape [2; 3]]
                [MetaShape [2; 3]; MetaDtype torch.float32] analysis0) as [_ H].
    destruct H as (_ & H & _); [cbn; lia|exact H].
Defined.

(** ** The preamble of [repro_common] *)

Lemma warn_large_buffers_spec backend buffers w :
  warn_large_buffers backend buffers w
  = (Ok tt, mkWorld (cfg w) (effects w ++ large_buffer_warnings backend buffers)).
Proof.
  revert w. induction buffers as [|[n numel] rest IH]; intros w.
  - cbn. unfold ret. destruct w; cbn. now rewrite app_nil_r.
  - cbn [warn_large_buffers]. unfold large_buffer_warnings.
    rewrite filter_cons.
    destruct (Z.ltb_spec (MAX_CONSTANT_NUMEL_INLINE backend) numel) as [Hlt|Hge].
    + rewrite decide_True by exact Hlt.
      unfold bind at 1. unfold log_warning, emit, modify. rewrite IH. cbn.
      now rewrite <- app_assoc.
    + rewrite decide_False by (cbn; lia).
      unfold bind at 1. unfold ret at 1. rewrite IH. reflexivity.
Qed.

(** [repro_common] refuses a module that has parameters with
    [AssertionError] before it logs or loads anything; for the buffers of a
    module it logs one warning per buffer with more elements than
    [MAX_CONSTANT_NUMEL_INLINE], in their order, and none for the others. *)
Theorem repro_common_preamble os backend options repro_mod load_args w :
  (named_parameters repro_mod ≠ [] ->
   repro_common os backend options repro_mod load_args w = (Raise AssertionError, w))
  /\ warn_large_buffers backend (named_buffers repro_mod) w
     = (Ok tt,
        mkWorld (cfg w)
          (effects w ++ large_buffer_warnings backend (named_buffers repro_mod))).
Proof.
  split.
  - intros Hp. unfold repro_common. unfold bind at 1. unfold assert.
    rewrite bool_decide_eq_true_2 by exact Hp. reflexivity.
  - apply warn_large_buffers_spec.
Qed.

Lemma repro_common_preamble_witness :
  repro_common (example_os 0) (example_backend (Ok (ObjSeq [])) false)
    (example_options false) (mkReproModule ["weight"] []) example_load_args
    (world0 None 0)
  = (Raise AssertionError, world0 None 0).
Proof.
  destruct (repro_common_preamble (example_os 0)
              (example_backend (Ok (ObjSeq [])) false) (example_options false)
              (mkReproModule ["weight"] []) example_load_args (world0 None 0))
    as [H _].
  apply H. discriminate.
Defined.

(** ** The mode a script is written in *)

Lemma prefix_refl s : String.prefix s s = true.
Proof.
  induction s as [|c s IH]; [reflexivity|]. cbn.
  destruct (Ascii.ascii_dec c c) as [_|Hne]; [exact IH|contradiction].
Qed.

Lemma prefix_app sub s t :
  String.prefix sub s = true -> String.prefix sub (s ++ t) = true.
Proof.
  revert s. induction sub as [|c sub IH]; intros s H; [destruct s, t; reflexivity|].
  destruct s as [|c' s]; [discriminate H|].
  change (String c' s ++ t) with (String c' (s ++ t)).
  cbn [String.prefix] in *.
  destruct (Ascii.ascii_dec c c'); [now apply IH|discriminate H].
Qed.

Lemma contains_prefix sub s : String.prefix sub s = true -> contains sub s = true.
Proof. intros H. destruct s; cbn [contains]; now rewrite H. Qed.

Lemma contains_cons sub c s : contains sub s = true -> contains sub (String c s) = true.
Proof. intros H. cbn [contains]. rewrite H. now destruct (String.prefix _ _). Qed.

Lemma contains_suffix sub s : contains sub (s ++ sub) = true.
Proof.
  induction s as [|c s IH].
  - apply contains_prefix, prefix_refl.
  - change (String c s ++ sub) with (String c (s ++ sub)). now apply contains_cons.
Qed.

Lemma contains_app_l sub s t : contains sub s = true -> contains sub (s ++ t) = true.
Proof.
  induction s as [|c s IH]; intros H.
  - apply contains_prefix. cbn [contains] in H.
    destruct (String.prefix sub "") eqn:Hp; [|discriminate H].
    now apply (prefix_app sub "" t).
  - destruct (String.prefix sub (String c s)) eqn:Hp.
    + apply contains_prefix. now apply prefix_app.
    + cbn [contains] in H. rewrite Hp in H.
      change (String c s ++ t) with (String c (s ++ t)). apply contains_cons. now apply IH.
Qed.

(** The mode of a script is read off the compiler name alone: a script
    written under a name that ends in [_accuracy] asks [run_repro] for the
    accuracy mode, and imports the inductor overrides whenever the name
    before the suffix mentions inductor, as for the two dumps of capture
    level 4; the [accuracy] argument of [isolate_fails] has no part in
    it. *)
Theorem script_mode_follows_compiler_name os gm args save_dir :
  (forall compiler_name command w f w',
     save_graph_repro os gm args (compiler_name ++ "_accuracy") save_dir command w
       = (Ok f, w') ->
     accuracy f = true
     /\ (contains "inductor" compiler_name = true ->
         imports_inductor_overrides f = true))
  /\ (forall compiler_name command w f w',
        save_graph_repro os gm args compiler_name save_dir command w = (Ok f, w') ->
        accuracy f = contains "_accuracy" compiler_name)
  /\ (forall compiler_name env accuracy w,
        isolate_fails os gm args compiler_name env save_dir accuracy w
        = isolate_fails os gm args compiler_name env save_dir (negb accuracy) w).
Proof.
  assert (Hf : forall compiler_name command w f w',
            save_graph_repro os gm args compiler_name save_dir command w = (Ok f, w') ->
            accuracy f = contains "_accuracy" compiler_name
            /\ imports_inductor_overrides f = contains "inductor" compiler_name).
  { intros compiler_name command w f w' H. unfold save_graph_repro in H.
    unfold bind at 1 in H.
    destruct (generate_compiler_repro_string os gm args save_dir w)
      as [[[model_str body]|e] w1]; [|discriminate H].
    unfold_monad. injection H as <- _. split; reflexivity. }
  split; [|split].
  - intros compiler_name command w f w' H. destruct (Hf _ _ _ _ _ H) as [Ha Hi].
    split.
    + rewrite Ha. apply contains_suffix.
    + intros Hc. rewrite Hi. now apply contains_app_l.
  - intros compiler_name command w f w' H. now destruct (Hf _ _ _ _ _ H).
  - reflexivity.
Qed.

Lemma script_mode_follows_compiler_name_witness :
  accuracy
    (repro_file (example_os 0) example_graph example_inputs ("inductor" ++ "_accuracy")
       None "run" (config.mk None 4 false)) = true
  /\ imports_inductor_overrides
       (repro_file (example_os 0) example_graph example_inputs
          ("inductor" ++ "_accuracy") None "run" (config.mk None 4 false)) = true.
Proof.
  destruct (script_mode_follows_compiler_name (example_os 0) example_graph
              example_inputs None) as [H _].
  destruct (H "inductor" "run" (world0 None 4)
              (repro_file (example_os 0) example_graph example_inputs
                 ("inductor" ++ "_accuracy") None "run" (config.mk None 4 false))
              (world0 None 4)) as [Ha Hi].
  - apply save_graph_repro_ok. repeat constructor.
  - split; [exact Ha|apply Hi; reflexivity].
Defined.

(** ** The plain run and the minifier query *)

(** For a graph that runs eagerly, on tensor arguments and with a compiler
    whose outcomes are returns or [Exception]s and do not depend on the
    moment of the call, the commands [run] and [minifier-query] of a repro
    script end with the same exit status when accuracy is not asked for: 1
    when compiling, calling the compiled module or synchronizing raises, 0
    otherwise. *)
Theorem run_and_minifier_query_agree
    os backend same_two_models options repro_mod load_args w gm args w1
    result rs rc :
  options.accuracy options = false ->
  repro_common os backend options repro_mod load_args w = (Ok (gm, args), w1) ->
  Forall is_tensor_arg args ->
  stateless (run_graph backend gm args) (Ok result) ->
  flat_result result = true ->
  stateless (cuda_synchronize backend) rs -> ordinary rs ->
  stateless (compile_fx_inner backend gm args) rc -> ordinary rc ->
  (forall compiled, rc = Ok compiled ->
     exists ro, stateless (compiled args) ro /\ ordinary ro) ->
  exit_status (fst (repro_minifier_query os backend options repro_mod load_args w))
  = exit_status (fst (repro_run os backend same_two_models options repro_mod
                        load_args w))
  /\ (exit_status (fst (repro_run os backend same_two_models options repro_mod
                          load_args w)) = 0
      <-> fst (repro_run os backend same_two_models options repro_mod load_args w)
          = Ok tt).
Proof.
  intros Hacc Hcommon Hargs Heager Hflat Hsync Hrs Hcompile Hrc Hcall.
  unfold repro_minifier_query, repro_run.
  rewrite !(bind_Ok _ _ _ _ _ Hcommon). rewrite Hacc.
  fold is_cuda_arg.
  (* the run *)
  assert (Hrun :
    (let! compiled := compile_fx_inner backend gm args in
     let! _ := compiled args in
     if existsb is_cuda_arg args then cuda_synchronize backend else ret tt) w1
    = match rc with
      | Raise e => (Raise e, w1)
      | Ok compiled =>
          match fst (compiled args w1) with
          | Raise e => (Raise e, w1)
          | Ok _ => inductor_sync backend args w1
          end
      end).
  { unfold bind at 1. rewrite (Hcompile w1). destruct rc as [compiled|e]; [|reflexivity].
    destruct (Hcall compiled eq_refl) as (ro & Hro & _).
    unfold bind. rewrite (Hro w1). cbn [fst]. destruct ro; reflexivity. }
  rewrite Hrun. clear Hrun.
  (* the query *)
  destruct (inductor_sync backend args w1) as [rsync wsync] eqn:Hs1.
  assert (Hs : rsync = (if existsb is_cuda_arg args then rs else Ok tt)
               /\ wsync = w1
               /\ forall w', inductor_sync backend args w' = (rsync, w')).
  { unfold inductor_sync in *. destruct (existsb is_cuda_arg args).
    - rewrite (Hsync w1) in Hs1. injection Hs1 as <- <-.
      repeat split. exact Hsync.
    - unfold ret in Hs1. injection Hs1 as <- <-. repeat split. }
  destruct Hs as (Hrsync & -> & Hstateless).
  assert (Hord : ordinary rsync).
  { rewrite Hrsync. destruct (existsb is_cuda_arg args); [exact Hrs|exact I]. }
  clear Hs1 Hrsync.
  destruct rsync as [[]|es].
  - (* the synchronization returns *)
    unfold bind at 1.
    rewrite (inductor_fails_after_eager backend gm args None w1 result w1 w1 Hargs
               (Heager w1) Hflat (Hstateless w1)).
    unfold try_except. unfold bind at 1. rewrite (Hcompile w1).
    destruct rc as [compiled|e].
    + destruct (Hcall compiled eq_refl) as (ro & Hro & Hordo).
      unfold bind at 1. rewrite (Hro w1). cbn [fst].
      destruct ro as [out|e].
      * unfold bind at 1. rewrite (Hstateless w1). cbn. split; [reflexivity|tauto].
      * cbn in Hordo. rewrite Hordo. cbn [fst].
        rewrite !exit_status_Exception by assumption. cbn. split; [reflexivity|].
        split; [discriminate|discriminate].
    + cbn in Hrc. rewrite Hrc. cbn [fst].
      rewrite !exit_status_Exception by assumption. cbn. split; [reflexivity|].
      split; [discriminate|discriminate].
  - (* the synchronization raises *)
    cbn in Hord.
    assert (Hq : inductor_fails backend gm args None w1 = (Raise es, w1)).
    { unfold inductor_fails.
      erewrite bind_Ok by (apply any_is_cuda_tensors; exact Hargs).
      fold (inductor_sync backend args).
      unfold bind at 1. unfold try_except at 1. unfold bind at 1.
      rewrite (Heager w1). destruct result as [i|l]; cbn in Hflat; [discriminate|].
      cbn. destruct (existsb is_seq_item l); [discriminate|]. cbn.
      unfold bind at 1. rewrite (Hstateless w1). reflexivity. }
    erewrite bind_Raise by exact Hq. cbn [fst].
    rewrite !exit_status_Exception by assumption.
    destruct rc as [compiled|e].
    + destruct (Hcall compiled eq_refl) as (ro & Hro & Hordo).
      rewrite (Hro w1). cbn [fst]. destruct ro as [out|e]; cbn [fst].
      * rewrite !exit_status_Exception by assumption. split; [reflexivity|].
        split; [discriminate|discriminate].
      * cbn in Hordo. rewrite !exit_status_Exception by assumption. split; [reflexivity|].
        split; [discriminate|discriminate].
    + cbn in Hrc. cbn [fst]. rewrite !exit_status_Exception by assumption.
      split; [reflexivity|]. split; [discriminate|discriminate].
Qed.

Lemma run_and_minifier_query_agree_witness :
  exit_status
    (fst (repro_minifier_query (example_os 0)
            (example_backend (Raise (RuntimeError "boom")) false)
            (example_options false) (mkReproModule [] []) example_load_args
            (world0 None 0)))
  = exit_status
      (fst (repro_run (example_os 0)
              (example_backend (Raise (RuntimeError "boom")) false)
              (fun _ _ _ => ret true)
              (example_options false) (mkReproModule [] []) example_load_args
              (world0 None 0))).
Proof.
  destruct (repro_common (example_os 0)
              (example_backend (Raise (RuntimeError "boom")) false)
              (example_options false) (mkReproModule [] []) example_load_args
              (world0 None 0)) as [[[gm args]|e] w1] eqn:Hc;
    [|vm_compute in Hc; discriminate Hc].
  assert (Hargs : Forall is_tensor_arg args).
  { vm_compute in Hc. injection Hc as _ <- _. repeat constructor. }
  assert (Hgm : gm = example_graph).
  { vm_compute in Hc. injection Hc as <- _ _. reflexivity. }
  subst gm.
  apply (proj1 (run_and_minifier_query_agree (example_os 0)
           (example_backend (Raise (RuntimeError "boom")) false)
           (fun _ _ _ => ret true) (example_options false) (mkReproModule [] [])
           example_load_args (world0 None 0) example_graph args w1
           (ObjSeq []) (Ok tt) (Ok (example_callable (Raise (RuntimeError "boom"))))
           eq_refl Hc Hargs (fun _ => eq_refl) eq_refl (fun _ => eq_refl) I
           (fun _ => eq_refl) I
           (fun compiled Heq =>
              ex_intro _ (Raise (RuntimeError "boom"))
                (conj (fun w' =>
                         match Heq in (_ = r)
                               return match r with
                                      | Ok c => c args w' = (Raise (RuntimeError "boom"), w')
                                      | Raise _ => True
                                      end
                         with eq_refl => eq_refl end)
                      eq_refl)))).
Defined.

(** ** Sample inputs for sparse reductions *)

Lemma has_kwargs_of_get sample key :
  sparse.kwargs_get sample key ≠ sparse.VNone -> sparse.has_kwargs sample = true.
Proof.
  unfold sparse.kwargs_get, sparse.has_kwargs. intros H.
  rewrite bool_decide_eq_false_2; [reflexivity|].
  intros He. rewrite He, lookup_empty in H. now apply H.
Qed.

Ltac invalid_with_dim :=
  match goal with
  | Hhas : _ -> sparse.has_kwargs _ = true |- _ =>
      rewrite (Hhas ltac:(discriminate)); clear Hhas
  end;
  destruct (sparse.truthy _);
  try destruct (negb (sparse.ndim _ =? 2)%Z);
  try destruct (negb (sparse.len _ =? sparse.ndim _)%Z);
  destruct (sparse.is_block _) eqn:?; cbn;
  (split; [split; [intros H; discriminate H|intros [H|[H _]]; congruence]
         |split; [reflexivity
                 |intros e H Ht; try discriminate Ht; now injection H as <-]]).

Lemma sum_validator_cases (sample : sparse.SampleInput) :
  (sparse._validate_sample_input_sparse_reduction_sum sample = sparse.Valid sample
   <-> sparse.is_compressed (sparse.t_layout (sparse.input sample)) = false
       \/ (sparse.kwargs_get sample "dim" = sparse.VNone
           /\ (sparse.truthy (sparse.kwargs_get sample "keepdim") = true
               \/ sparse.has_kwargs sample = false)))
  /\ underlying (sparse._validate_sample_input_sparse_reduction_sum sample) = sample
  /\ (forall e,
        sparse._validate_sample_input_sparse_reduction_sum sample = sparse.Invalid e ->
        sparse.is_block (sparse.t_layout (sparse.input sample)) = true ->
        sparse.error_type e = sparse.default_error_type).
Proof.
  unfold sparse._validate_sample_input_sparse_reduction_sum.
  destruct (sparse.is_compressed _) eqn:Hc.
  2:{ split; [split; auto|]. split; [reflexivity|intros e H; discriminate H]. }
  pose proof (has_kwargs_of_get sample "dim") as Hhas.
  destruct (sparse.kwargs_get sample "dim") eqn:Hd;
    cbn [sparse.is_int sparse.is_list_or_tuple andb orb].
  - (* no dim *)
    clear Hhas.
    destruct (sparse.truthy (sparse.kwargs_get sample "keepdim"));
      destruct (sparse.has_kwargs sample); destruct (sparse.is_block _); cbn;
      (split; [split; [intros H; try discriminate H; right; auto
                      |intros [H|[_ [H|H]]]; congruence]
             |split; [reflexivity
                     |intros e H Ht; try discriminate H; now injection H as <-]]).
  - invalid_with_dim.
  - invalid_with_dim.
  - invalid_with_dim.
  - invalid_with_dim.
Qed.

(** [sum] on a sparse compressed tensor is expected to work only without a
    [dim]: the validator returns the sample as it is exactly when the
    layout is not a compressed one, or [dim] is absent or [None] and either
    [keepdim] is true or there are no keyword arguments at all.  Every
    other sample comes back as an [ErrorInput] around the same sample; for
    the block layouts the error expected is always the default one, never
    [NotImplementedError]. *)
Theorem sum_on_compressed_needs_no_dim (sample : sparse.SampleInput) :
  (sparse._validate_sample_input_sparse_reduction_sum sample = sparse.Valid sample
   <-> sparse.is_compressed (sparse.t_layout (sparse.input sample)) = false
       \/ (sparse.kwargs_get sample "dim" = sparse.VNone
           /\ (sparse.truthy (sparse.kwargs_get sample "keepdim") = true
               \/ sparse.has_kwargs sample = false)))
  /\ underlying (sparse._validate_sample_input_sparse_reduction_sum sample) = sample
  /\ (forall e,
        sparse._validate_sample_input_sparse_reduction_sum sample = sparse.Invalid e ->
        sparse.is_block (sparse.t_layout (sparse.input sample)) = true ->
        sparse.error_type e = sparse.default_error_type).
Proof. apply sum_validator_cases. Qed.

Lemma sum_on_compressed_needs_no_dim_witness :
  sparse._validate_sample_input_sparse_reduction_sum (csr_sample ∅)
  = sparse.Valid (csr_sample ∅).
Proof.
  apply (sum_on_compressed_needs_no_dim (csr_sample ∅)).
  right. split; [reflexivity|right; reflexivity].
Defined.

Lemma classified_cons validate s rest v :
  validate s = Ok v -> classified validate (s :: rest) = v :: classified validate rest.
Proof. intros H. unfold classified. simpl. now rewrite H. Qed.

Lemma yield_validated_total {A} validate (keep : sparse.Sample -> option A) samples :
  (forall s, s ∈ samples -> exists v, validate s = Ok v) ->
  sparse.yield_validated validate keep samples
  = (omap keep (classified validate samples), None).
Proof.
  induction samples as [|s rest IH]; intros Hall; [reflexivity|].
  destruct (Hall s) as [v Hv]; [left|].
  cbn [sparse.yield_validated]. rewrite Hv, (classified_cons _ _ _ _ Hv).
  rewrite IH by (intros s' Hs'; apply Hall; now right).
  simpl. now destruct (keep v).
Qed.

Lemma classified_split validate samples :
  (forall s, s ∈ samples -> exists v, validate s = Ok v) ->
  (length (omap sparse.as_sample_input (classified validate samples))
   + length (omap sparse.as_error_input (classified validate samples))
   = length samples)%nat.
Proof.
  induction samples as [|s rest IH]; intros Hall; [reflexivity|].
  destruct (Hall s) as [v Hv]; [left|].
  rewrite (classified_cons _ _ _ _ Hv).
  specialize (IH ltac:(intros s' Hs'; apply Hall; now right)).
  unfold omap in *. destruct v; simpl; lia.
Qed.

(** When the validator returns on every sample, [_sample_inputs_sparse]
    yields the regular samples that are valid followed by the maybe-failing
    samples that are valid, and [_error_inputs_sparse] yields the
    maybe-failing samples that are not: each maybe-failing sample comes out
    of exactly one of the two generators.  A regular sample that the
    validator turns into an [ErrorInput] comes out of neither: every error
    input stems from a maybe-failing sample. *)
Theorem generators_split_the_maybe_failing_samples
    sample_inputs maybe_failing validate op_info :
  (forall s, s ∈ (sample_inputs ++ maybe_failing)%list ->
     exists v, validate op_info s false = Ok v) ->
  let V := fun s => validate op_info s false in
  sparse._sample_inputs_sparse sample_inputs maybe_failing validate op_info
  = ((omap sparse.as_sample_input (classified V sample_inputs)
      ++ omap sparse.as_sample_input (classified V maybe_failing))%list, None)
  /\ sparse._error_inputs_sparse maybe_failing validate op_info
     = (omap sparse.as_error_input (classified V maybe_failing), None)
  /\ (length (omap sparse.as_sample_input (classified V maybe_failing))
      + length (omap sparse.as_error_input (classified V maybe_failing))
      = length maybe_failing)%nat
  /\ (forall e,
        e ∈ fst (sparse._error_inputs_sparse maybe_failing validate op_info) ->
        exists s, s ∈ maybe_failing /\ V s = Ok (sparse.Invalid e)).
Proof.
  intros Hall. cbv zeta.
  unfold sparse._sample_inputs_sparse, sparse._error_inputs_sparse.
  set (V := fun s => validate op_info s false).
  assert (H1 : forall s, s ∈ sample_inputs -> exists v, V s = Ok v).
  { intros s Hs. apply Hall. apply elem_of_app. now left. }
  assert (H2 : forall s, s ∈ maybe_failing -> exists v, V s = Ok v).
  { intros s Hs. apply Hall. apply elem_of_app. now right. }
  rewrite (yield_validated_total V sparse.as_sample_input sample_inputs H1).
  rewrite (yield_validated_total V sparse.as_sample_input maybe_failing H2).
  rewrite (yield_validated_total V sparse.as_error_input maybe_failing H2).
  split; [reflexivity|]. split; [reflexivity|]. split.
  - now apply classified_split.
  - intros e Hin. cbn [fst] in Hin.
    apply list_elem_of_omap in Hin as (v & Hv & Hk).
    destruct v as [s'|e']; [discriminate Hk|]. injection Hk as ->.
    unfold classified in Hv. apply list_elem_of_omap in Hv as (s & Hs & Hvs).
    exists s. split; [exact Hs|]. subst V. cbv beta in *.
    destruct (validate op_info s false) as [v|x]; [|discriminate Hvs].
    injection Hvs as ->. reflexivity.
Qed.

Lemma generators_split_the_maybe_failing_samples_witness :
  sparse._sample_inputs_sparse [csr_sample {["dim" := sparse.VInt 0]}]
    [csr_sample ∅] sparse._validate_sample_input_sparse_reduction sum_op
  = ([csr_sample ∅], None)
  /\ sparse._error_inputs_sparse [csr_sample ∅]
       sparse._validate_sample_input_sparse_reduction sum_op
     = ([], None).
Proof.
  destruct (generators_split_the_maybe_failing_samples
              [csr_sample {["dim" := sparse.VInt 0]}] [csr_sample ∅]
              sparse._validate_sample_input_sparse_reduction sum_op)
    as (H1 & H2 & _).
  - intros s Hs. eexists. unfold sparse._validate_sample_input_sparse_reduction.
    cbn. reflexivity.
  - rewrite H1, H2. split; vm_compute; reflexivity.
Defined.

Lemma sum_verdict_spec sample :
  sparse._validate_sample_input_sparse_reduction_sum sample
  = match sum_verdict (sparse.t_layout (sparse.input sample))
            (sparse.ndim (sparse.input sample)) (sparse.kwargs sample)
            (sparse.mask sample) with
    | None => sparse.Valid sample
    | Some (types, regex) => sparse.Invalid (sparse.mkErrorInput sample types regex)
    end.
Proof.
  unfold sum_verdict, sparse._validate_sample_input_sparse_reduction_sum,
    sparse.kwargs_get, sparse.has_kwargs.
  cbn [sparse.input sparse.kwargs sparse.mask sparse.t_layout sparse.ndim].
  repeat match goal with
         | |- context [if ?c then _ else _] => destruct c
         end; reflexivity.
Qed.

(** Every sample [_maybe_failing_sample_inputs_sparse_reduction_sum]
    yields is classified as an error input for [sum]: six per compressed
    layout and none for the other layouts, so that
    [error_inputs_sparse_reduction_sum] yields them all, in order, and none
    of them is among the sample inputs.  For the block layouts the error
    expected is the default one throughout; for CSR and CSC it is
    [NotImplementedError] except for the third and the sixth sample, the
    two-dimensional reductions without [keepdim]. *)
Theorem known_failing_sum_samples_are_error_inputs to_sparse op_info layout :
  to_sparse_wf to_sparse ->
  sparse.name op_info = "sum" ->
  exists errors,
    sparse.error_inputs_sparse_reduction_sum to_sparse op_info layout = (errors, None)
    /\ map sparse.sample_input errors
       = sparse._maybe_failing_sample_inputs_sparse_reduction_sum to_sparse layout
    /\ map sparse.error_type errors
       = (if sparse.is_block layout then replicate 6 sparse.default_error_type
          else if sparse.is_compressed layout
          then [[sparse.TNotImplementedError]; [sparse.TNotImplementedError];
                sparse.default_error_type; [sparse.TNotImplementedError];
                [sparse.TNotImplementedError]; sparse.default_error_type]
          else [])
    /\ sparse.sample_inputs_sparse_reduction_sum to_sparse [] op_info layout
       = ([], None).
Proof.
  intros Hwf Hname.
  assert (Hv : forall shape blocksize dense_dim kwargs,
            sparse._validate_sample_input_sparse_reduction op_info
              (sparse.mkSampleInput (to_sparse shape layout blocksize dense_dim) []
                 kwargs sparse.Unspecified) false
            = Ok (match sum_verdict layout (Z.of_nat (length shape)) kwargs
                          sparse.Unspecified with
                  | None =>
                      sparse.Valid
                        (sparse.mkSampleInput
                           (to_sparse shape layout blocksize dense_dim) [] kwargs
                           sparse.Unspecified)
                  | Some (types, regex) =>
                      sparse.Invalid
                        (sparse.mkErrorInput
                           (sparse.mkSampleInput
                              (to_sparse shape layout blocksize dense_dim) [] kwargs
                              sparse.Unspecified) types regex)
                  end)).
  { intros shape blocksize dense_dim kwargs.
    unfold sparse._validate_sample_input_sparse_reduction.
    rewrite bool_decide_eq_true_2 by exact Hname. f_equal.
    rewrite sum_verdict_spec. cbn [sparse.input sparse.kwargs sparse.mask].
    destruct (Hwf shape layout blocksize dense_dim) as [-> ->]. reflexivity. }
  unfold sparse.error_inputs_sparse_reduction_sum,
    sparse.sample_inputs_sparse_reduction_sum, sparse._error_inputs_sparse,
    sparse._sample_inputs_sparse,
    sparse._maybe_failing_sample_inputs_sparse_reduction_sum.
  destruct layout; cbn [sparse.is_compressed sparse.is_block];
    try (exists []; repeat split; reflexivity);
    repeat first [rewrite bool_decide_eq_true_2 by (repeat constructor)
                 |rewrite bool_decide_eq_false_2
                    by (intros Hin; repeat (apply elem_of_cons in Hin as [Hin|Hin];
                                            [discriminate Hin|]); inversion Hin)];
    cbn [app sparse.yield_validated]; rewrite !Hv; clear Hv.
  all: eexists; split; [reflexivity|split; [reflexivity|split; reflexivity]].
Qed.

Lemma known_failing_sum_samples_are_error_inputs_witness :
  exists errors,
    sparse.error_inputs_sparse_reduction_sum example_to_sparse sum_op sparse.sparse_csr
      = (errors, None)
    /\ map sparse.sample_input errors
       = sparse._maybe_failing_sample_inputs_sparse_reduction_sum example_to_sparse
           sparse.sparse_csr
    /\ map sparse.error_type errors
       = [[sparse.TNotImplementedError]; [sparse.TNotImplementedError];
          sparse.default_error_type; [sparse.TNotImplementedError];
          [sparse.TNotImplementedError]; sparse.default_error_type]
    /\ sparse.sample_inputs_sparse_reduction_sum example_to_sparse [] sum_op
         sparse.sparse_csr = ([], None).
Proof.
  apply (known_failing_sum_samples_are_error_inputs example_to_sparse sum_op
           sparse.sparse_csr).
  - intros shape layout blocksize dense_dim. split; reflexivity.
  - reflexivity.
Defined.

(** ** Checking a validated sample against the operation *)

(** [_check_validate] passes exactly when the operation agrees with the
    classification: a sample input on which the call returns, or an error
    input on which the call raises an exception of one of the expected
    classes or of a class that derives from one of them; anything else is
    an [AssertionError].  The expected message [error_regex] is never
    looked at, and an error input with the default class accepts every
    class that derives from [RuntimeError], [NotImplementedError] among
    them. *)
Theorem check_validate_compares_classes_only op_info :
  (forall s,
     sparse._check_validate op_info (sparse.Valid s)
     = match sparse.call op_info s with
       | Some _ => Raise AssertionError
       | None => Ok tt
       end)
  /\ (forall e,
        sparse._check_validate op_info (sparse.Invalid e) = Ok tt
        <-> exists raised expected,
              sparse.call op_info (sparse.sample_input e) = Some raised
              /\ expected ∈ sparse.error_type e
              /\ sparse.issubclass raised expected = true)
  /\ (forall sample, sparse._check_validate op_info sample = Ok tt
                     \/ sparse._check_validate op_info sample = Raise AssertionError)
  /\ (forall s types regex regex',
        sparse._check_validate op_info (sparse.Invalid (sparse.mkErrorInput s types regex))
        = sparse._check_validate op_info
            (sparse.Invalid (sparse.mkErrorInput s types regex')))
  /\ (forall s regex raised,
        sparse.call op_info s = Some raised ->
        "RuntimeError" ∈ sparse.mro raised ->
        sparse._check_validate op_info
          (sparse.Invalid (sparse.mkErrorInput s sparse.default_error_type regex))
        = Ok tt)
  /\ "RuntimeError" ∈ sparse.mro sparse.TNotImplementedError.
Proof.
  split; [|split; [|split; [|split; [|split]]]].
  - intros s. cbn. unfold sparse._check_success. now destruct (sparse.call op_info s).
  - intros e. cbn. unfold sparse._check_fail.
    destruct (sparse.call op_info (sparse.sample_input e)) as [raised|].
    + destruct (existsb (sparse.issubclass raised) (sparse.error_type e)) eqn:Hex.
      * split; [intros _|reflexivity].
        apply existsb_exists in Hex as (expected & Hin & Hsub).
        exists raised, expected. split; [reflexivity|]. split; [|exact Hsub].
        now apply list_elem_of_In.
      * split; [discriminate|]. intros (raised' & expected & Hr & Hin & Hsub).
        injection Hr as <-.
        assert (existsb (sparse.issubclass raised) (sparse.error_type e) = true).
        { apply existsb_exists. exists expected. split; [|exact Hsub].
          now apply list_elem_of_In. }
        congruence.
    + split; [discriminate|]. intros (raised & expected & Hr & _). discriminate Hr.
  - intros [s|e]; cbn; unfold sparse._check_success, sparse._check_fail.
    + destruct (sparse.call op_info s); auto.
    + destruct (sparse.call op_info (sparse.sample_input e)); [|auto].
      destruct (existsb _ _); auto.
  - reflexivity.
  - intros s regex raised Hc Hsub. cbn. unfold sparse._check_fail. cbn.
    rewrite Hc. cbn. unfold sparse.issubclass. cbn.
    now rewrite bool_decide_eq_true_2 by exact Hsub.
  - unfold sparse.mro. cbn. set_solver.
Qed.

Lemma check_validate_compares_classes_only_witness :
  sparse._check_validate sum_op
    (sparse.Invalid
       (sparse.mkErrorInput (csr_sample ∅) sparse.default_error_type "torch.empty"))
  = Ok tt.
Proof.
  destruct (check_validate_compares_classes_only sum_op) as (_ & _ & _ & _ & H & Hn).
  apply (H _ _ sparse.TNotImplementedError); [reflexivity|exact Hn].
Defined.

(** ** What validation leaves alone *)

Lemma masked_sum_underlying sample : underlying (sparse.validate_masked_sum sample) = sample.
Proof.
  unfold sparse.validate_masked_sum.
  repeat match goal with
         | |- context [if ?c then _ else _] => destruct c
         end; reflexivity.
Qed.

Lemma masked_other_underlying op_name sample v :
  sparse.validate_masked_other op_name sample = Ok v -> underlying v = sample.
Proof.
  unfold sparse.validate_masked_other. intros H.
  repeat match type of H with
         | context [match ?c with _ => _ end] => destruct c
         end;
    try discriminate H; injection H as <-; reflexivity.
Qed.

Lemma checked_result op_info validated (check_validate : Datatypes.bool) v :
  (if check_validate
   then match sparse._check_validate op_info validated with
        | Ok _ => Ok validated
        | Raise e => Raise e
        end
   else Ok validated) = Ok v ->
  v = validated.
Proof.
  destruct check_validate; [destruct (sparse._check_validate _ _)|];
    intros H; try discriminate H; now injection H as <-.
Qed.

(** Validation wraps, it never rewrites: whatever validator is chosen, a
    result is the sample itself or an [ErrorInput] around that very sample.
    Without [check_validate] the operation is not called: the result
    depends on the name and the kind of the operation only. *)
Theorem validation_keeps_the_sample op_info sample check_validate v :
  sparse.validate_sample_input_sparse op_info sample check_validate = Ok v ->
  underlying v = sample
  /\ (v = sparse.Valid sample \/ exists e, v = sparse.Invalid e)
  /\ (forall call',
        sparse.validate_sample_input_sparse
          (sparse.mkOpInfo (sparse.name op_info) (sparse.is_reduction op_info) call')
          sample false
        = Ok v).
Proof.
  intros H.
  assert (Hu : underlying v = sample
               /\ forall call',
                    sparse.validate_sample_input_sparse
                      (sparse.mkOpInfo (sparse.name op_info)
                         (sparse.is_reduction op_info) call') sample false = Ok v).
  { unfold sparse.validate_sample_input_sparse in *.
    cbn [sparse.name sparse.is_reduction].
    destruct (sparse.is_reduction op_info).
    - unfold sparse._validate_sample_input_sparse_reduction in *.
      cbn [sparse.name sparse.is_reduction].
      destruct (if bool_decide (sparse.name op_info = "sum")
                then Ok (sparse._validate_sample_input_sparse_reduction_sum sample)
                else _) as [validated|x] eqn:Hval; [|discriminate H].
      apply checked_result in H. subst validated. split; [|reflexivity].
      destruct (bool_decide (sparse.name op_info = "sum")).
      { injection Hval as <-. apply sum_validator_cases. }
      destruct (bool_decide (sparse.name op_info = "masked.sum")).
      { injection Hval as <-. apply masked_sum_underlying. }
      destruct (bool_decide (sparse.name op_info ∈ _)).
      { eapply masked_other_underlying. exact Hval. }
      injection Hval as <-. reflexivity.
    - unfold sparse._validate_sample_input_sparse_default in *.
      cbn [sparse.name sparse.is_reduction].
      apply checked_result in H. subst v. split; [|reflexivity].
      now destruct (_ && _ && _). }
  destruct Hu as [Hu Hc]. split; [exact Hu|]. split; [|exact Hc].
  destruct v as [s|e]; [left; cbn in Hu; now subst|right; eauto].
Qed.

Lemma validation_keeps_the_sample_witness :
  underlying
    (sparse.Invalid
       (sparse.mkErrorInput (csr_sample {["dim" := sparse.VInt 0]})
          sparse.default_error_type
          "torch.empty: Only batched sparse compressed [(]non-block[)] tensors are supported"))
  = csr_sample {["dim" := sparse.VInt 0]}.
Proof.
  apply (validation_keeps_the_sample sum_op (csr_sample {["dim" := sparse.VInt 0]})
           true).
  vm_compute. reflexivity.
Defined.

(** ** Masked reductions *)

Lemma masked_sum_valid sample :
  sparse.validate_masked_sum sample = sparse.Valid sample ->
  sparse.truthy (sparse.kwargs_get sample "keepdim") = true
  /\ sparse.mask sample ≠ sparse.Unspecified
  /\ sparse.ndim (sparse.input sample) <= 2.
Proof.
  unfold sparse.validate_masked_sum.
  destruct (match sparse.mask sample with
            | sparse.Mask m => _
            | _ => false
            end); [discriminate|].
  destruct (sparse.truthy _); [|discriminate]. cbn [negb].
  destruct (bool_decide (sparse.mask sample = sparse.Unspecified)) eqn:Hm;
    [discriminate|].
  destruct (Z.ltb_spec 2 (sparse.ndim (sparse.input sample))); [discriminate|].
  intros _. split; [reflexivity|]. split; [|lia].
  now apply bool_decide_eq_false in Hm.
Qed.

Lemma masked_other_valid op_name sample :
  sparse.validate_masked_other op_name sample = Ok (sparse.Valid sample) ->
  sparse.truthy (sparse.kwargs_get sample "keepdim") = true
  /\ (exists m, sparse.mask sample = sparse.Mask m)
  /\ sparse.ndim (sparse.input sample) <= 2.
Proof.
  unfold sparse.validate_masked_other.
  destruct (sparse.mask sample) as [| |m]; [discriminate|discriminate|].
  destruct (_ && _ && sparse.any_zero m); [discriminate|].
  destruct (_ && _ && bool_decide (op_name = "masked.mean")); [discriminate|].
  destruct (sparse.truthy _); [|discriminate]. cbn [negb].
  destruct (Z.ltb_spec 2 (sparse.ndim (sparse.input sample))) as [Hlt|Hle].
  - destruct (sparse.not_in_0_1 _) as [b|e]; [|discriminate].
    destruct (b && _ && _).
    + destruct (bool_decide _); [discriminate|].
      destruct (bool_decide _); discriminate.
    + discriminate.
  - intros _. split; [reflexivity|]. split; [eauto|lia].
Qed.

(** A masked reduction is only valid with [keepdim] true, with a mask in
    the keyword arguments (a tensor, for all but [masked.sum]) and on an
    input of at most two dimensions.  For [masked.amax], [masked.amin],
    [masked.mean] and [masked.prod] on an input of more than two dimensions
    that has passed the checks of mask and [keepdim], a [dim] given as a
    list stops the validator itself with [TypeError]: the list is looked up
    in a set. *)
Theorem masked_reductions_need_keepdim_and_mask op_info sample :
  sparse.name op_info ∈ masked_reductions ->
  (forall check_validate,
     sparse._validate_sample_input_sparse_reduction op_info sample check_validate
       = Ok (sparse.Valid sample) ->
     sparse.truthy (sparse.kwargs_get sample "keepdim") = true
     /\ sparse.mask sample ≠ sparse.Unspecified
     /\ (sparse.name op_info ≠ "masked.sum" -> sparse.mask sample ≠ sparse.MaskNone)
     /\ sparse.ndim (sparse.input sample) <= 2)
  /\ (forall m l check_validate,
        sparse.name op_info ≠ "masked.sum" ->
        sparse.mask sample = sparse.Mask m ->
        ~ (2 < sparse.ndim m /\ sparse.t_layout m = sparse.strided
           /\ sparse.any_zero m = true) ->
        ~ (sparse.t_layout m = sparse.t_layout (sparse.input sample)
           /\ 2 < sparse.ndim m /\ sparse.name op_info = "masked.mean") ->
        sparse.truthy (sparse.kwargs_get sample "keepdim") = true ->
        2 < sparse.ndim (sparse.input sample) ->
        sparse.kwargs_get sample "dim" = sparse.VList l ->
        sparse._validate_sample_input_sparse_reduction op_info sample check_validate
        = Raise (TypeError "unhashable type: 'list'")).
Proof.
  intros Hname.
  assert (Hsum : sparse.name op_info ≠ "sum").
  { intros Heq. rewrite Heq in Hname. unfold masked_reductions in Hname.
    repeat (apply elem_of_cons in Hname as [Hname|Hname]; [discriminate Hname|]).
    inversion Hname. }
  split.
  - intros check_validate H.
    unfold sparse._validate_sample_input_sparse_reduction in H.
    rewrite (bool_decide_eq_false_2 _ Hsum) in H.
    destruct (bool_decide (sparse.name op_info = "masked.sum")) eqn:Hms.
    + apply checked_result in H.
      destruct (masked_sum_valid sample) as (Hk & Hm & Hn); [now symmetry|].
      apply bool_decide_eq_true in Hms. repeat split; auto.
    + destruct (bool_decide (sparse.name op_info ∈ _)) eqn:Hother.
      * destruct (sparse.validate_masked_other _ sample) as [v|e] eqn:Hv;
          [|discriminate H].
        apply checked_result in H. subst v.
        destruct (masked_other_valid _ sample Hv) as (Hk & [m Hm] & Hn).
        repeat split; auto; rewrite Hm; discriminate.
      * apply bool_decide_eq_false in Hms. apply bool_decide_eq_false in Hother.
        exfalso. unfold masked_reductions in Hname.
        apply elem_of_cons in Hname as [Hname|Hname]; [contradiction|].
        contradiction.
  - intros m l check_validate Hns Hm Hzero Hmean Hk Hn Hd.
    unfold sparse._validate_sample_input_sparse_reduction.
    rewrite (bool_decide_eq_false_2 _ Hsum), (bool_decide_eq_false_2 _ Hns).
    rewrite bool_decide_eq_true_2.
    2:{ unfold masked_reductions in Hname.
        apply elem_of_cons in Hname as [Hname|Hname]; [contradiction|exact Hname]. }
    unfold sparse.validate_masked_other. rewrite Hm, Hk, Hd.
    assert (H1 : (2 <? sparse.ndim m)%Z
                 && bool_decide (sparse.t_layout m = sparse.strided)
                 && sparse.any_zero m = false).
    { apply not_true_is_false. intros H.
      apply andb_prop in H as [H Hz]. apply andb_prop in H as [Hlt Hl].
      apply Hzero. apply Z.ltb_lt in Hlt. apply bool_decide_eq_true in Hl. auto. }
    assert (H2 : bool_decide (sparse.t_layout m = sparse.t_layout (sparse.input sample))
                 && (2 <? sparse.ndim m)%Z
                 && bool_decide (sparse.name op_info = "masked.mean") = false).
    { apply not_true_is_false. intros H.
      apply andb_prop in H as [H Hz]. apply andb_prop in H as [Hl Hlt].
      apply Hmean. apply Z.ltb_lt in Hlt. apply bool_decide_eq_true in Hl, Hz. auto. }
    rewrite H1, H2.
    destruct (Z.ltb_spec 2 (sparse.ndim (sparse.input sample))); [|lia].
    reflexivity.
Qed.

Lemma masked_reductions_need_keepdim_and_mask_witness :
  sparse._validate_sample_input_sparse_reduction masked_amax_op
    (batched_masked_sample (sparse.VList [0])) false
  = Raise (TypeError "unhashable type: 'list'").
Proof.
  destruct (masked_reductions_need_keepdim_and_mask masked_amax_op
              (batched_masked_sample (sparse.VList [0]))) as [_ H].
  - unfold masked_reductions. cbn. right. left.
  - apply (H (sparse.mkTensor sparse.sparse_csr 3 0 2 3 false) [0] false).
    + discriminate.
    + reflexivity.
    + cbn. intros (_ & Hl & _). discriminate Hl.
    + cbn. intros (_ & _ & Hn). discriminate Hn.
    + reflexivity.
    + cbn. lia.
    + reflexivity.
Defined.

(** ** What an isolated run writes and spawns *)

(** [isolate_fails] spawns the subprocess only once the script is on disk:
    when the directory cannot be made or the file cannot be opened it
    raises that error and nothing is spawned.  Otherwise it writes the
    script with the command [minifier-query] and the given [save_dir] and
    spawns it in the [isolate] directory.  After exit code 0 it returns
    false and prints nothing; after another exit code it decodes and prints
    the captured stdout, then the captured stderr, and returns true, or
    raises the [UnicodeDecodeError] of the first stream that is not UTF-8.
    In the environment of the subprocess the entries of [env] override
    those of the process environment. *)
Theorem isolated_run_writes_then_spawns
    os fx_g args compiler_name env save_dir accuracy w :
  (forall e,
     path_exists os (isolate_subdir os) = false ->
     makedirs_raises os (isolate_subdir os) = Some e ->
     isolate_fails os fx_g args compiler_name env save_dir accuracy w = (Raise e, w))
  /\ (forall e,
        subdir_available os (isolate_subdir os) ->
        open_write_raises os (isolate_file_name os) = Some e ->
        isolate_fails os fx_g args compiler_name env save_dir accuracy w
        = (Raise e,
           mkWorld (cfg w) (effects w ++ made_dirs os (isolate_subdir os))))
  /\ (subdir_available os (isolate_subdir os) ->
      open_write_raises os (isolate_file_name os) = None ->
      Forall supported args ->
      let p := isolate_process os env in
      let spawned := isolate_spawned os fx_g args compiler_name env save_dir w in
      let out := Printed (textwrap_indent (stdout p) ">>  ") in
      let err := Printed (textwrap_indent (stderr p) ">>  ") in
      (returncode p = 0 ->
       isolate_fails os fx_g args compiler_name env save_dir accuracy w
       = (Ok false, spawned))
      /\ (returncode p ≠ 0 -> decodes (stdout p) -> decodes (stderr p) ->
          isolate_fails os fx_g args compiler_name env save_dir accuracy w
          = (Ok true, with_effects (with_effects spawned [out]) [err]))
      /\ (forall e,
            returncode p ≠ 0 -> decode_error (stdout p) = Some e ->
            isolate_fails os fx_g args compiler_name env save_dir accuracy w
            = (Raise e, spawned))
      /\ (forall e,
            returncode p ≠ 0 -> decodes (stdout p) ->
            decode_error (stderr p) = Some e ->
            isolate_fails os fx_g args compiler_name env save_dir accuracy w
            = (Raise e, with_effects spawned [out])))
  /\ (forall k,
        (default ∅ env ∪ environ os) !! k
        = match default ∅ env !! k with
          | Some v => Some v
          | None => environ os !! k
          end).
Proof.
  split; [|split; [|split]].
  - intros e Hex Hmk. unfold isolate_fails. fold (isolate_subdir os).
    erewrite bind_Raise; [reflexivity|].
    unfold ensure_subdir. rewrite Hex. cbn. unfold syscall. now rewrite Hmk.
  - intros e Hdir Hopen. unfold isolate_fails.
    fold (isolate_subdir os). fold (isolate_file_name os).
    erewrite bind_Ok by (apply ensure_subdir_ok; exact Hdir).
    rewrite Hopen. reflexivity.
  - intros Hdir Hopen Hs p spawned out err.
    rewrite (isolate_fails_spec os fx_g args compiler_name env save_dir accuracy w
               Hdir Hopen Hs).
    fold p spawned. unfold isolate_outcome.
    split; [|split; [|split]].
    + intros Hz. destruct (decide (returncode p ≠ 0)); [contradiction|reflexivity].
    + intros Hnz Hout Herr. destruct (decide (returncode p ≠ 0)); [|contradiction].
      now rewrite (decode_error_decodes _ Hout), (decode_error_decodes _ Herr).
    + intros e Hnz Hout. destruct (decide (returncode p ≠ 0)); [|contradiction].
      now rewrite Hout.
    + intros e Hnz Hout Herr. destruct (decide (returncode p ≠ 0)); [|contradiction].
      now rewrite (decode_error_decodes _ Hout), Herr.
  - intros k. rewrite lookup_union. destruct (default ∅ env !! k) as [v|] eqn:Hk.
    + now destruct (environ os !! k).
    + now destruct (environ os !! k).
Qed.

Lemma isolated_run_writes_then_spawns_witness :
  isolate_fails disk_full_os example_graph example_inputs "inductor" None None false
    (world0 None 0)
  = (Raise (OSError "No space left on device"), world0 None 0)
  /\ isolate_fails (example_os 1) example_graph example_inputs "inductor" None None
       false (world0 None 0)
     = (Ok true,
        mkWorld (config.mk None 0 false)
          [Wrote "/work/isolate/01234.py"
             (repro_file (example_os 1) example_graph example_inputs "inductor" None
                "minifier-query" (config.mk None 0 false));
           Spawned ["python"; "/work/isolate/01234.py"] "/work/isolate" ∅;
           Printed ">>  out"; Printed ">>  err"]).
Proof.
  split.
  - destruct (isolated_run_writes_then_spawns disk_full_os example_graph example_inputs
                "inductor" None None false (world0 None 0)) as (_ & H & _).
    rewrite (H (OSError "No space left on device")).
    + reflexivity.
    + left. reflexivity.
    + reflexivity.
  - destruct (isolated_run_writes_then_spawns (example_os 1) example_graph
                example_inputs "inductor" None None false (world0 None 0))
      as (_ & _ & H & _).
    destruct H as (_ & H & _).
    + left. reflexivity.
    + reflexivity.
    + repeat constructor.
    + rewrite H; [vm_compute; reflexivity|discriminate|reflexivity|reflexivity].
Defined.

(** ** The convenience copy of a checkpoint *)

Lemma dump_compiler_graph_state_written os gm args compiler_name w :
  subdir_available os (checkpoint_dir os) ->
  open_write_raises os (checkpoint_file os gm) = None ->
  Forall supported args ->
  dump_compiler_graph_state os gm args compiler_name w
  = try_except
      (let! _ := syscall (copyfile_raises os (checkpoint_file os gm) (convenience_copy os))
                   (Copied (checkpoint_file os gm) (convenience_copy os)) in
       let! _ := log_warning "Copying repro file for convenience to %s"
                   [convenience_copy os] in
       if use_buck os
       then syscall (buck_write_raises os (checkpoint_file os gm))
              (BuckTarget (checkpoint_file os gm))
       else ret tt)
      is_OSError
      (fun _ => log_warning "No write permissions for %s" [convenience_copy os])
      (checkpoint_written os gm args compiler_name w).
Proof.
  intros Hdir Hopen Hs. unfold dump_compiler_graph_state.
  fold (checkpoint_dir os). fold (checkpoint_file os gm). fold (convenience_copy os).
  erewrite bind_Ok by (apply ensure_subdir_ok; exact Hdir).
  rewrite Hopen.
  unfold bind at 1. unfold log_warning at 1, emit at 1, modify at 1.
  unfold bind at 1. unfold bind at 1. unfold ret at 1.
  erewrite bind_Ok by (apply save_graph_repro_ok; exact Hs).
  unfold emit at 1, modify at 1, with_effects. cbn [cfg effects].
  unfold checkpoint_written. rewrite <- !app_assoc. reflexivity.
Qed.

(** Once the checkpoint file is written, the copy to [repro.py] in the
    working directory is best effort: an [OSError] from the copy, or from
    the Buck target written after a successful copy, is logged as missing
    write permissions for [repro.py] and the dump returns; any other
    exception leaves the dump.  The checkpoint file is named after the
    number of nodes of the graph alone. *)
Theorem checkpoint_copy_is_best_effort os gm args compiler_name w :
  subdir_available os (checkpoint_dir os) ->
  open_write_raises os (checkpoint_file os gm) = None ->
  Forall supported args ->
  let written := checkpoint_written os gm args compiler_name w in
  let copied :=
    [Copied (checkpoint_file os gm) (convenience_copy os);
     Logged (LogRecord WARNING "Copying repro file for convenience to %s"
               [convenience_copy os])] in
  let refused :=
    Logged (LogRecord WARNING "No write permissions for %s" [convenience_copy os]) in
  (forall e,
     copyfile_raises os (checkpoint_file os gm) (convenience_copy os) = Some e ->
     dump_compiler_graph_state os gm args compiler_name w
     = if is_OSError e then (Ok tt, with_effects written [refused])
       else (Raise e, written))
  /\ (copyfile_raises os (checkpoint_file os gm) (convenience_copy os) = None ->
      use_buck os = false ->
      dump_compiler_graph_state os gm args compiler_name w
      = (Ok tt, with_effects written copied))
  /\ (copyfile_raises os (checkpoint_file os gm) (convenience_copy os) = None ->
      use_buck os = true ->
      dump_compiler_graph_state os gm args compiler_name w
      = match buck_write_raises os (checkpoint_file os gm) with
        | None =>
            (Ok tt, with_effects written (copied ++ [BuckTarget (checkpoint_file os gm)]))
        | Some e =>
            if is_OSError e
            then (Ok tt, with_effects written (copied ++ [refused]))
            else (Raise e, with_effects written copied)
        end)
  /\ (forall gm',
        length (fx.nodes gm') = length (fx.nodes gm) ->
        checkpoint_file os gm' = checkpoint_file os gm).
Proof.
  intros Hdir Hopen Hs written copied refused.
  rewrite (dump_compiler_graph_state_written _ _ _ _ _ Hdir Hopen Hs).
  fold written. unfold with_effects.
  split; [|split; [|split]].
  - intros e Hcopy. rewrite Hcopy. unfold try_except, syscall. cbn.
    destruct (is_OSError e); unfold log_warning, emit, modify; reflexivity.
  - intros Hcopy Hbuck. rewrite Hcopy, Hbuck. unfold try_except, syscall.
    unfold_monad. cbn. subst copied. rewrite <- !app_assoc. reflexivity.
  - intros Hcopy Hbuck. rewrite Hcopy, Hbuck. unfold try_except, syscall.
    destruct (buck_write_raises os (checkpoint_file os gm)) as [e|].
    + unfold bind. cbn. unfold raise.
      destruct (is_OSError e); unfold log_warning, emit, modify; cbn;
        subst copied refused; rewrite <- ?app_assoc; reflexivity.
    + unfold_monad. cbn. subst copied. rewrite <- !app_assoc. reflexivity.
  - intros gm' Hlen. unfold checkpoint_file. now rewrite Hlen.
Qed.

Lemma checkpoint_copy_is_best_effort_witness :
  dump_compiler_graph_state buck_read_only_os example_graph example_inputs "inductor"
    (world0 None 1)
  = (Ok tt,
     with_effects
       (checkpoint_written buck_read_only_os example_graph example_inputs "inductor"
          (world0 None 1))
       [Copied "/tmp/minifier/checkpoints/4.py" "/work/repro.py";
        Logged (LogRecord WARNING "Copying repro file for convenience to %s"
                  ["/work/repro.py"]);
        Logged (LogRecord WARNING "No write permissions for %s" ["/work/repro.py"])]).
Proof.
  destruct (checkpoint_copy_is_best_effort buck_read_only_os example_graph
              example_inputs "inductor" (world0 None 1)) as (_ & _ & H & _).
  - left. reflexivity.
  - reflexivity.
  - repeat constructor.
  - rewrite H by reflexivity. vm_compute. reflexivity.
Defined.

(** ** What a checkpoint after a failed invocation holds *)

Lemma copy_tensor_attrs_without_content backend real_inputs :
  makes_fake backend ->
  Forall supported real_inputs ->
  Forall without_content (copy_tensor_attrs backend real_inputs).
Proof.
  intros Hfake Hs. unfold copy_tensor_attrs.
  induction Hs as [|a rest Ha Hs IH]; [constructor|].
  cbn [map]. constructor; [|exact IH].
  destruct a as [i|t|o]; [exact I|apply Hfake|destruct Ha].
Qed.

Lemma repro_file_names_no_content os gm args compiler_name save_dir command c :
  Forall without_content args ->
  Forall names_no_content
    (load_args (repro_file os gm args compiler_name save_dir command c)).
Proof.
  intros Hargs. unfold repro_file. cbn [load_args].
  destruct (after_args_without_content (fx.fx_placeholder_targets gm) args
              (InputWriter.__init__ (option_map (content_store os) save_dir)) Hargs)
    as [H _]; [constructor|exact H].
Qed.

Lemma session_stored_without_content os gm args save_dir :
  Forall without_content args ->
  session_stored os gm args save_dir = [].
Proof.
  intros Hargs. unfold session_stored. apply stored_by_same_store.
  now destruct (after_args_without_content (fx.fx_placeholder_targets gm) args
                  (InputWriter.__init__ (option_map (content_store os) save_dir)) Hargs)
    as [_ H]; [constructor|].
Qed.

(** The checkpoint written after a failed invocation is made from the fake
    copies of the real inputs, not from the inputs themselves: at capture
    level 2, when the compiled function raises an [Exception] and the
    minifier launcher is written, the exception is raised again and the
    script of the launcher names no stored content at all, so that it
    replays on synthesized data.  The same holds for any script written
    from the fake copies, as the checkpoint file of level 1 is. *)
Theorem checkpoint_after_failure_holds_no_content
    os backend compiler compiler_name gm example_inputs inner real_inputs w e w1 :
  makes_fake backend ->
  Forall supported real_inputs ->
  config.repro_level (cfg w) = 2 ->
  config.repro_level (cfg w1) = 2 ->
  inner real_inputs w = (Raise e, w1) ->
  is_Exception e = true ->
  subdir_available os (checkpoint_dir os) ->
  let script :=
    repro_file os gm (copy_tensor_attrs backend real_inputs) compiler_name
      (Some (checkpoint_dir os)) "minify" (cfg w1) in
  helper_for_dump_minify_raises os script = None ->
  inner_debug_fn os backend compiler compiler_name gm example_inputs inner
    real_inputs w
  = (Raise e,
     with_effects w1 (made_dirs os (checkpoint_dir os) ++ [MinifierLauncher script]))
  /\ Forall names_no_content (load_args script)
  /\ (forall save_dir command c,
        Forall names_no_content
          (load_args (repro_file os gm (copy_tensor_attrs backend real_inputs)
                        compiler_name save_dir command c))).
Proof.
  intros Hfake Hs Hl Hl1 Hi He Hdir script Hhelper.
  pose proof (copy_tensor_attrs_without_content backend real_inputs Hfake Hs) as Hwc.
  split; [|split].
  - apply (inner_debug_invocation_raises_dump_ok os backend compiler compiler_name gm
             example_inputs inner real_inputs w w e w1).
    + unfold checkpoint_always. rewrite Hl.
      destruct (decide (2 = 3)) as [H|_]; [discriminate H|reflexivity].
    + rewrite Hl. discriminate.
    + exact Hi.
    + exact He.
    + unfold checkpoint_on_failure. rewrite Hl1.
      destruct (decide (2 = 1)) as [H|_]; [discriminate H|].
      destruct (decide (2 = 2)) as [_|H]; [|contradiction].
      unfold dump_to_minify. fold (checkpoint_dir os).
      erewrite bind_Ok by (apply ensure_subdir_ok; exact Hdir).
      erewrite bind_Ok
        by (apply save_graph_repro_ok; eapply without_content_supported; exact Hwc).
      rewrite (session_stored_without_content _ _ _ _ Hwc), with_effects_nil.
      cbn [cfg]. fold script. rewrite Hhelper.
      unfold syscall, emit, modify, with_effects. cbn.
      now rewrite <- app_assoc.
  - now apply repro_file_names_no_content.
  - intros save_dir command c. now apply repro_file_names_no_content.
Qed.

Lemma checkpoint_after_failure_holds_no_content_witness :
  Forall names_no_content
    (load_args
       (repro_file (example_os 0) example_graph
          (copy_tensor_attrs (fake_backend (Ok (ObjSeq []))) example_inputs)
          "inductor" (Some (checkpoint_dir (example_os 0))) "minify"
          (config.mk None 2 false))).
Proof.
  destruct (checkpoint_after_failure_holds_no_content (example_os 0)
              (fake_backend (Ok (ObjSeq []))) (example_compiler (Ok (ObjSeq [])))
              "inductor" example_graph example_inputs
              (example_callable (Raise (RuntimeError "boom"))) example_inputs
              (world0 None 2) (RuntimeError "boom") (world0 None 2))
    as (_ & H & _).
  - intros t. reflexivity.
  - repeat constructor.
  - reflexivity.
  - reflexivity.
  - reflexivity.
  - reflexivity.
  - left. reflexivity.
  - reflexivity.
  - exact H.
Defined.

(** ** When capture is decided *)

(** Whether a compiled function is wrapped is decided when it is compiled;
    whether a wrapped function captures is decided each time it is called.
    Compiled with [repro_after] at ["aot"], the wrapper returns the deferred
    invoker, and a call made while [repro_after] is no longer ["aot"] is a
    plain call of the compiled function.  Compiled with capture off, the
    wrapper returns the compiled function itself, which never captures,
    whatever the configuration is when it is called. *)
Theorem capture_is_decided_at_call_time
    os backend compiler compiler_name gm example_inputs w inner w1 :
  repro_after_allowed (cfg w) ->
  compiler gm example_inputs w = (Ok inner, w1) ->
  (config.repro_after (cfg w1) = Some "aot" ->
   debug_wrapper os backend compiler compiler_name gm example_inputs w
   = (Ok (deferred_for_real_inputs os backend compiler compiler_name gm
            example_inputs inner), w1)
   /\ forall real_inputs w2,
        config.repro_after (cfg w2) ≠ Some "aot" ->
        deferred_for_real_inputs os backend compiler compiler_name gm example_inputs
          inner real_inputs w2
        = inner real_inputs w2)
  /\ (config.repro_after (cfg w1) ≠ Some "aot" ->
      debug_wrapper os backend compiler compiler_name gm example_inputs w
      = (Ok inner, w1)).
Proof.
  intros Ha Hc.
  assert (Hw : debug_wrapper os backend compiler compiler_name gm example_inputs w
               = (if decide (config.repro_after (cfg w1) = Some "aot")
                  then Ok (deferred_for_real_inputs os backend compiler compiler_name
                             gm example_inputs inner)
                  else Ok inner, w1)).
  { unfold debug_wrapper, compiler_fn, repro_after_allowed in *.
    unfold bind at 1. unfold get_config at 1.
    unfold bind at 1. unfold assert. rewrite bool_decide_eq_true_2 by exact Ha.
    unfold ret at 1. unfold bind at 1.
    erewrite try_except_Ok by exact Hc.
    unfold bind at 1. unfold get_config at 1.
    destruct (decide (config.repro_after (cfg w1) = Some "aot")); reflexivity. }
  rewrite Hw. split.
  - intros Hon. destruct (decide _) as [_|Hn]; [|contradiction].
    split; [reflexivity|]. intros real_inputs w2 Hoff.
    now apply deferred_capture_off.
  - intros Hoff. destruct (decide _) as [Hn|_]; [contradiction|reflexivity].
Qed.

Lemma capture_is_decided_at_call_time_witness :
  debug_wrapper (example_os 0) (example_backend (Ok (ObjSeq [])) false)
    (example_compiler (Raise (RuntimeError "boom"))) "inductor" example_graph
    example_inputs (world0 (Some "dynamo") 1)
  = (Ok (example_callable (Raise (RuntimeError "boom"))), world0 (Some "dynamo") 1).
Proof.
  destruct (capture_is_decided_at_call_time (example_os 0)
              (example_backend (Ok (ObjSeq [])) false)
              (example_compiler (Raise (RuntimeError "boom"))) "inductor"
              example_graph example_inputs (world0 (Some "dynamo") 1)
              (example_callable (Raise (RuntimeError "boom")))
              (world0 (Some "dynamo") 1)) as [_ H].
  - unfold repro_after_allowed. cbn. left.
  - reflexivity.
  - apply H. cbn. discriminate.
Defined.
